(** * mysqldump: the SQL-text codec of the dump and restore paths

    A shallow embedding of the Go package [mysqldump]
    (mysqldump.go, source.go, util.go) together with the properties of its
    row encoder, row batch emitter, trigger cache and restore-side statement
    stream reader.

    Go strings are byte sequences; they are embedded as [string] (a list of
    8-bit [ascii] characters).  Go's [error] values are embedded by their
    message text.  Go's [int] is embedded as [Z]; no arithmetic of the
    embedded code can overflow (only comparisons, a decrement and a
    remainder on small counters are used). *)

From Stdlib Require Import String Ascii List ZArith Lia Bool DecimalString.
From stdpp Require Import base gmap strings list.
Import ListNotations.

(** ** Characters used by the code *)

Definition NUL : ascii := "000"%char.
Definition BS : ascii := "008"%char.
Definition TAB : ascii := "009"%char.
Definition LF : ascii := "010"%char.
Definition CR : ascii := "013"%char.
Definition SUB : ascii := "026"%char.
Definition DQUOTE : ascii := "034"%char.
Definition SQUOTE : ascii := "'"%char.
Definition BACKSLASH : ascii := "\"%char.
Definition SEMI : ascii := ";"%char.

(** A one-character string. *)
Definition str1 (c : ascii) : string := String c EmptyString.

(** The Go [error] interface, by message. *)
Definition error : Type := string.

(** ** The functions of Go's [strings] package that the code calls *)

Module GoStrings.

(** [s[n:]] *)
Fixpoint sliceFrom (n : nat) (s : string) : string :=
  match n, s with
  | O, _ => s
  | S _, EmptyString => EmptyString
  | S k, String _ s' => sliceFrom k s'
  end.

(** [strings.HasPrefix(s, prefix)] *)
Definition HasPrefix (s pre : string) : bool := String.prefix pre s.

(** [strings.TrimPrefix(s, prefix)] *)
Definition TrimPrefix (s pre : string) : string :=
  if HasPrefix s pre then sliceFrom (String.length pre) s else s.

(** [strings.TrimSuffix(s, suffix)]: walking down [s], the remainder equals
    [suffix] exactly at offset [len(s) - len(suffix)], where the string is
    cut. *)
Fixpoint TrimSuffix (s suf : string) : string :=
  match s with
  | EmptyString => EmptyString
  | String c s' => if String.eqb s suf then EmptyString else String c (TrimSuffix s' suf)
  end.

(** [strings.Index(s, substr)]: the byte offset of the first occurrence, or
    [-1]. *)
Fixpoint Index (s sub : string) : Z :=
  if String.prefix sub s then 0%Z
  else match s with
       | EmptyString => (-1)%Z
       | String _ s' => let i := Index s' sub in if (i <? 0)%Z then (-1)%Z else (i + 1)%Z
       end.

(** [strings.Replace(s, old, new, -1)] for a non-empty [old] (both call
    sites pass a non-empty literal): non-overlapping occurrences are replaced
    from left to right; [skip] counts the bytes of a matched occurrence that
    remain to be passed over. *)
Fixpoint replace_from (old new : string) (skip : nat) (s : string) : string :=
  match s with
  | EmptyString => EmptyString
  | String c s' =>
      match skip with
      | S k => replace_from old new k s'
      | O => if String.prefix old s
             then new +:+ replace_from old new (String.length old - 1) s'
             else String c (replace_from old new 0 s')
      end
  end.

Definition Replace (s old new : string) : string := replace_from old new 0 s.

(** [strings.Split(s, sep)] for a non-empty [sep]. [cur] is the current
    field, reversed. *)
Fixpoint rev_string (acc s : string) : string :=
  match s with
  | EmptyString => acc
  | String c s' => rev_string (String c acc) s'
  end.

Fixpoint split_from (sep : string) (skip : nat) (cur : string) (s : string) : list string :=
  match s with
  | EmptyString => [rev_string EmptyString cur]
  | String c s' =>
      match skip with
      | S k => split_from sep k cur s'
      | O => if String.prefix sep s
             then rev_string EmptyString cur :: split_from sep (String.length sep - 1) EmptyString s'
             else split_from sep 0 (String c cur) s'
      end
  end.

Definition Split (s sep : string) : list string := split_from sep 0 EmptyString s.

(** [strings.Join(elems, sep)] *)
Definition Join (elems : list string) (sep : string) : string := String.concat sep elems.

(** [strings.NewReplacer(old1, new1, ...).Replace(s)] when every [old] is a
    single byte (Go then builds a byte-indexed table; for a byte listed
    twice the first pair wins). *)
Fixpoint replacement (pairs : list (ascii * string)) (c : ascii) : string :=
  match pairs with
  | [] => str1 c
  | (o, n) :: rest => if Ascii.eqb c o then n else replacement rest c
  end.

Fixpoint byteReplace (pairs : list (ascii * string)) (s : string) : string :=
  match s with
  | EmptyString => EmptyString
  | String c s' => replacement pairs c +:+ byteReplace pairs s'
  end.

(** [strings.TrimLeft(s, cutset)] for a [cutset] of ASCII characters: leading
    bytes that belong to the cutset are removed. *)
Fixpoint mem_ascii (c : ascii) (cutset : string) : bool :=
  match cutset with
  | EmptyString => false
  | String d rest => Ascii.eqb c d || mem_ascii c rest
  end.

Fixpoint TrimLeft (s cutset : string) : string :=
  match s with
  | EmptyString => EmptyString
  | String c s' => if mem_ascii c cutset then TrimLeft s' cutset else s
  end.

(** [unicode.IsSpace]: the white space characters are U+0009..U+000D,
    U+0020, U+0085, U+00A0, U+1680, U+2000..U+200A, U+2028, U+2029, U+202F,
    U+205F and U+3000, listed here by their UTF-8 encoding. *)
Definition utf8 (bytes : list nat) : string :=
  string_of_list_ascii (map ascii_of_nat bytes).

Definition spaceRunes : list string :=
  map utf8
    [ [9]; [10]; [11]; [12]; [13]; [32];
      [194; 133]; [194; 160];
      [225; 154; 128];
      [226; 128; 128]; [226; 128; 129]; [226; 128; 130]; [226; 128; 131];
      [226; 128; 132]; [226; 128; 133]; [226; 128; 134]; [226; 128; 135];
      [226; 128; 136]; [226; 128; 137]; [226; 128; 138];
      [226; 128; 168]; [226; 128; 169]; [226; 128; 175];
      [226; 129; 159];
      [227; 128; 128] ].

(** [s] is exactly one white space character. *)
Definition isSpaceRune (s : string) : bool := existsb (String.eqb s) spaceRunes.

(** The white space bytes of Go's ASCII fast path: blank, tab, line feed,
    vertical tab, form feed, carriage return. *)
Definition asciiSpace (c : ascii) : bool :=
  let b := nat_of_ascii c in ((9 <=? b) && (b <=? 13)) || (b =? 32).

(** The byte length of the white space character that [s] starts with, or
    [0] when it starts with none. *)
Definition spaceRuneLen (s : string) : nat :=
  match find (fun x => String.prefix x s) spaceRunes with
  | Some x => String.length x
  | None => 0
  end.

(** Leading white space removed ([strings.TrimLeftFunc(s, unicode.IsSpace)]). *)
Fixpoint trimLeftSpace_from (skip : nat) (s : string) : string :=
  match s with
  | EmptyString => EmptyString
  | String _ s' =>
      match skip with
      | S k => trimLeftSpace_from k s'
      | O => match spaceRuneLen s with
             | O => s
             | S k => trimLeftSpace_from k s'
             end
      end
  end.

Definition TrimLeftSpace (s : string) : string := trimLeftSpace_from 0 s.

(** Trailing white space removed ([strings.TrimRightFunc(s, unicode.IsSpace)]):
    once the tail is trimmed, the only suffix that can still be a white space
    character is the whole remaining string. *)
Fixpoint TrimRightSpace (s : string) : string :=
  match s with
  | EmptyString => EmptyString
  | String c s' =>
      let r := String c (TrimRightSpace s') in
      if isSpaceRune r then EmptyString else r
  end.

(** [strings.TrimSpace(s)] *)
Definition TrimSpace (s : string) : string := TrimRightSpace (TrimLeftSpace s).

End GoStrings.

Import GoStrings.

(** ** [bufio.Reader.ReadString]

    The restore input is a byte stream that ends either with [io.EOF]
    ([failure = None]) or with another read error. *)

Module Bufio.

Record Reader : Type := mkReader {
  pending : string;          (* bytes not yet consumed *)
  failure : option error     (* what the underlying reader reports once drained *)
}.

Inductive ReadResult : Type :=
| ReadOk (line : string)                 (* err == nil: [line] ends with the delimiter *)
| ReadEOF (line : string)                (* err == io.EOF: [line] is what was left *)
| ReadFail (line : string) (e : error).  (* any other error *)

(** The bytes up to and including the first [delim], and what follows. *)
Fixpoint cut (delim : ascii) (s : string) : option (string * string) :=
  match s with
  | EmptyString => None
  | String c s' =>
      if Ascii.eqb c delim then Some (str1 c, s')
      else match cut delim s' with
           | Some (line, rest) => Some (String c line, rest)
           | None => None
           end
  end.

Definition ReadString (r : Reader) (delim : ascii) : ReadResult * Reader :=
  match cut delim (pending r) with
  | Some (line, rest) => (ReadOk line, mkReader rest (failure r))
  | None =>
      match failure r with
      | None => (ReadEOF (pending r), mkReader EmptyString None)
      | Some e => (ReadFail (pending r) e, mkReader EmptyString (Some e))
      end
  end.

End Bufio.

Import Bufio.

(** ** util.go *)

Definition splitS (s delimiter : string) : list string := Split s delimiter.

Definition joinS (s : list string) (delimiter : string) : string := Join s delimiter.

(** [GetDBNameFromDSN]: the DSN must hold exactly one ["/"]; the database
    name is what follows it, up to a ["?"]. *)
Definition GetDBNameFromDSN (dsn : string) : error + string :=
  match splitS dsn "/" with
  | [_; s1] => inr (hd EmptyString (splitS s1 "?"))
  | _ => inl ("dsn error: " +:+ dsn)
  end.

(** [trim] *)
Definition trim (s : string) : string := TrimSpace (TrimLeft s (str1 LF)).

(** [sanitize]: the escape table of the value formatter. *)
Definition sanitize_table : list (ascii * string) :=
  [ (NUL, "\0"); (SQUOTE, "\'"); (DQUOTE, String BACKSLASH (str1 DQUOTE));
    (BS, "\b"); (LF, "\n"); (CR, "\r"); (SUB, "\Z") ].

Definition sanitize (input : string) : string := byteReplace sanitize_table input.

(** ** source.go: the restore side *)

Module Restore.

Record sourceOption : Type := mkSourceOption {
  opt_dryRun : bool;
  opt_mergeInsert : Z;
  opt_debug : bool
}.

Definition SourceOption : Type := sourceOption -> sourceOption.

Definition WithDryRun : SourceOption :=
  fun o => mkSourceOption true (opt_mergeInsert o) (opt_debug o).

Definition WithMergeInsert (size : Z) : SourceOption :=
  fun o => mkSourceOption (opt_dryRun o) size (opt_debug o).

Definition WithDebug : SourceOption :=
  fun o => mkSourceOption (opt_dryRun o) (opt_mergeInsert o) true.

(** The zero value of [sourceOption], then every option applied in order. *)
Definition applyOptions (opts : list SourceOption) : sourceOption :=
  fold_left (fun o opt => opt o) opts (mkSourceOption false 0 false).

(** The database server as the restore sees it: whether [sql.Open] accepts
    the DSN and what [DB.Exec] answers to a statement ([None] is [nil]). *)
Record Server : Type := mkServer {
  open_error : string -> option error;
  exec_error : string -> option error
}.

Record dbWrapper : Type := mkDbWrapper {
  DB : Server;
  debug : bool;
  dryRun : bool
}.

Definition newDBWrapper (db : Server) (dry dbg : bool) : dbWrapper :=
  mkDbWrapper db dbg dry.

(** [dbWrapper.Exec]: in dry-run mode the server is not contacted. *)
Definition Exec (db : dbWrapper) (query : string) : option error :=
  if dryRun db then None else exec_error (DB db) query.

(** [mergeInsert]: the loop over [insertSQLs[1:]]. The loop index [i] ranges
    over the tail, so [i < len(insertSQLs)-1] holds at every iteration and a
    comma is written each time; the test is kept as the code has it. *)
Fixpoint mergeInsert_tail (total : nat) (i : nat) (rest : list string) (builder : string)
  : error + string :=
  match rest with
  | [] => inr builder
  | insertSQL :: rest' =>
      let builder := if i <? total - 1 then builder +:+ "," else builder in
      let valuesIdx := Index insertSQL "VALUES" in
      if (valuesIdx =? -1)%Z then inl "invalid SQL: missing VALUES keyword"
      else
        let sqln := sliceFrom (Z.to_nat valuesIdx) insertSQL in
        let sqln := TrimPrefix sqln "VALUES" in
        let sqln := TrimSuffix sqln ";" in
        mergeInsert_tail total (S i) rest' (builder +:+ sqln)
  end.

Definition mergeInsert (insertSQLs : list string) : error + string :=
  match insertSQLs with
  | [] => inl "no input provided"
  | sql1 :: rest =>
      match mergeInsert_tail (length insertSQLs) 0 rest (TrimSuffix sql1 ";") with
      | inl e => inl e
      | inr builder => inr (builder +:+ ";")
      end
  end.

(** The inner loop of [Source]: up to [n] further statements are read; one
    that does not start with [INSERT INTO] ends the loop ([break]) and, being
    local to the loop body, is not kept. *)
Fixpoint accumulate (n : nat) (r : Reader) (insertSQLs : list string)
  : error + (list string * Reader) :=
  match n with
  | O => inr (insertSQLs, r)
  | S n' =>
      match ReadString r SEMI with
      | (ReadEOF _, r') => inr (insertSQLs, r')
      | (ReadFail _ e, _) => inl e
      | (ReadOk line, r') =>
          let ssql2 := trim line in
          if HasPrefix ssql2 "INSERT INTO"
          then accumulate n' r' (insertSQLs ++ [ssql2])
          else inr (insertSQLs, r')
      end
  end.

(** One pass of the body of the outer loop after a statement was read: the
    statement to dispatch and the reader state, or the error that aborts. *)
Definition nextStatement (o : sourceOption) (ssql : string) (r : Reader)
  : error + (string * Reader) :=
  if (1 <? opt_mergeInsert o)%Z && HasPrefix ssql "INSERT INTO" then
    match accumulate (Z.to_nat (opt_mergeInsert o - 1)) r [ssql] with
    | inl e => inl e
    | inr (insertSQLs, r') =>
        match mergeInsert insertSQLs with
        | inl e => inl e
        | inr merged => inr (merged, r')
        end
    end
  else inr (ssql, r).

(** The outer loop of [Source]. [trace] lists the statements handed to
    [dbWrapper.Exec] so far. The result is the trace and the error that
    aborted the loop ([None] when the loop ended at end of input). Each
    iteration consumes at least one byte; [fuel] bounds the iterations. *)
Fixpoint source_loop (fuel : nat) (o : sourceOption) (db : dbWrapper)
    (r : Reader) (trace : list string) : option (list string * option error) :=
  match fuel with
  | O => None
  | S fuel' =>
      match ReadString r SEMI with
      | (ReadEOF _, _) => Some (trace, None)
      | (ReadFail _ e, _) => Some (trace, Some e)
      | (ReadOk line, r1) =>
          match nextStatement o (trim line) r1 with
          | inl e => Some (trace, Some e)
          | inr (ssql, r2) =>
              match Exec db ssql with
              | Some e => Some (trace ++ [ssql], Some e)
              | None => source_loop fuel' o db r2 (trace ++ [ssql])
              end
          end
      end
  end.

(** Statements dispatched one after the other until one fails. *)
Fixpoint execAll (db : dbWrapper) (queries : list string) (trace : list string)
  : list string * option error :=
  match queries with
  | [] => (trace, None)
  | q :: rest =>
      match Exec db q with
      | Some e => (trace ++ [q], Some e)
      | None => execAll db rest (trace ++ [q])
      end
  end.

(** [Source]: the statements dispatched to [dbWrapper.Exec], in order, and
    the returned error ([None] is [nil]). *)
Definition Source (srv : Server) (dsn : string) (reader : Reader) (opts : list SourceOption)
  : list string * option error :=
  let o := applyOptions opts in
  match GetDBNameFromDSN dsn with
  | inl e => ([], Some e)
  | inr dbName =>
      match open_error srv dsn with
      | Some e => ([], Some e)
      | None =>
          let db := newDBWrapper srv (opt_dryRun o) (opt_debug o) in
          match execAll db ["USE " +:+ dbName +:+ ";"; "SET autocommit=0;"] [] with
          | (trace, Some e) => (trace, Some e)
          | (trace, None) =>
              match source_loop (S (String.length (pending reader))) o db reader trace with
              | None => (trace, Some "unreachable: the statement loop ran out of fuel")
              | Some (trace, Some e) => (trace, Some e)
              | Some (trace, None) => execAll db ["COMMIT;"; "SET autocommit=1;"] trace
              end
          end
      end
  end.

End Restore.

Import Restore.

(** ** mysqldump.go: the dump side *)

Module Dump.

(** The value the driver stored in an [interface{}] destination. *)
Record Time : Type := mkTime {
  year : nat; month : nat; day : nat;
  hour : nat; minute : nat; second : nat
}.

Inductive value : Type :=
| Nil                      (* nil: SQL NULL *)
| Bytes (bs : string)      (* []byte *)
| Str (s : string)         (* string *)
| Int64 (n : Z)            (* int64 *)
| Float64 (bits : Z)       (* float64, by its IEEE-754 bit pattern *)
| Boolean (b : bool)       (* bool *)
| TimeV (t : Time).        (* time.Time *)

(** The two revisions of mysqldump.go differ, for the code embedded here, in
    the comment line that heads a data section and in the escape table of
    the character family. *)
Inductive Revision : Type := Inline | Sanitized.

(** What [Outcome] a Go function call has: it returns or it panics. *)
Inductive Outcome (A : Type) : Type :=
| Returned (a : A)
| Panicked.
Arguments Returned {A} a.
Arguments Panicked {A}.

Definition zeroPad (width : nat) (n : nat) : string :=
  let digits := NilZero.string_of_uint (Nat.to_uint n) in
  String.concat EmptyString (repeat "0" (width - String.length digits)) +:+ digits.

(** [t.Format("2006-01-02")] *)
Definition formatDate (t : Time) : string :=
  zeroPad 4 (year t) +:+ "-" +:+ zeroPad 2 (month t) +:+ "-" +:+ zeroPad 2 (day t).

(** [t.Format(DEFAULT_LOG_TIMESTAMP)], the layout ["2006-01-02 15:04:05"] *)
Definition formatTimestamp (t : Time) : string :=
  formatDate t +:+ " " +:+ zeroPad 2 (hour t) +:+ ":" +:+ zeroPad 2 (minute t)
  +:+ ":" +:+ zeroPad 2 (second t).

Definition hexDigit (n : nat) : ascii :=
  if n <? 10 then ascii_of_nat (48 + n) else ascii_of_nat (55 + n).

Fixpoint hexUpper (s : string) : string :=
  match s with
  | EmptyString => EmptyString
  | String c s' =>
      let b := nat_of_ascii c in
      String (hexDigit (b / 16)) (String (hexDigit (b mod 16)) (hexUpper s'))
  end.

(** The escape table of the character family in the first revision. *)
Definition inline_table : list (ascii * string) :=
  [ (LF, "\n"); (SQUOTE, "\'"); (CR, "\r"); (DQUOTE, String BACKSLASH (str1 DQUOTE)) ].

Definition escapeText (rev : Revision) (s : string) : string :=
  match rev with
  | Inline => byteReplace inline_table s
  | Sanitized => sanitize s
  end.

Definition oneOf (s : string) (l : list string) : bool := existsb (String.eqb s) l.

(** The [case] lists of the type switch of [buildRowData]. *)
Definition integerTypes : list string :=
  ["TINYINT"; "SMALLINT"; "MEDIUMINT"; "INT"; "INTEGER"; "BIGINT"].
Definition floatTypes : list string := ["FLOAT"; "DOUBLE"].
Definition decimalTypes : list string := ["DECIMAL"; "DEC"].
Definition dateTypes : list string := ["DATE"].
Definition timestampTypes : list string := ["DATETIME"; "TIMESTAMP"].
Definition timeTypes : list string := ["TIME"].
Definition yearTypes : list string := ["YEAR"].
Definition charTypes : list string :=
  ["CHAR"; "VARCHAR"; "TINYTEXT"; "TEXT"; "MEDIUMTEXT"; "LONGTEXT"].
Definition binaryTypes : list string :=
  ["BIT"; "BINARY"; "VARBINARY"; "TINYBLOB"; "BLOB"; "MEDIUMBLOB"; "LONGBLOB"].
Definition quotedTypes : list string := ["ENUM"; "SET"; "JSON"].
Definition boolTypes : list string := ["BOOL"; "BOOLEAN"].

(** Every type name that has a [case]. *)
Definition supportedTypes : list string :=
  integerTypes ++ floatTypes ++ decimalTypes ++ dateTypes ++ timestampTypes
  ++ timeTypes ++ yearTypes ++ charTypes ++ binaryTypes ++ quotedTypes ++ boolTypes.

(** The declared type name as the switch sees it: [UNSIGNED] and blanks
    removed. *)
Definition normalizeType (Type_ : string) : string :=
  Replace (Replace Type_ "UNSIGNED" "") " " "".

Section Formatting.

(** What [fmt.Sprintf] prints for a verb whose operand has a dynamic type
    other than those written out below (float formatting, and Go's
    [%!verb(type=value)] texts). *)
Variable fmtOther : ascii -> value -> string.

(** [fmt.Sprintf("%s", v)] *)
Definition Sprintf_s (v : value) : string :=
  match v with
  | Bytes bs => bs
  | Str s => s
  | _ => fmtOther "s" v
  end.

(** [fmt.Sprintf("%d", v)] *)
Definition Sprintf_d (v : value) : string :=
  match v with
  | Int64 n => NilZero.string_of_int (Z.to_int n)
  | _ => fmtOther "d" v
  end.

(** [fmt.Sprintf("%f", v)] *)
Definition Sprintf_f (v : value) : string := fmtOther "f" v.

(** [fmt.Sprintf("%X", v)] *)
Definition Sprintf_X (v : value) : string :=
  match v with
  | Bytes bs => hexUpper bs
  | Str s => hexUpper s
  | _ => fmtOther "X" v
  end.

(** What one turn of the [switch] of [buildRowData] does. *)
Inductive Step : Type :=
| Append (text : string)                         (* ssql += text *)
| Return (ssql : string) (err : option error)    (* return ssql, err *)
| Panic.                                         (* a failed type assertion *)

Definition quoted (s : string) : string := "'" +:+ s +:+ "'".

(** The body of the [else] branch: [col] is not nil and [Type] is the
    declared type name as the driver reports it. *)
Definition formatColumn (rev : Revision) (Type_ : string) (col : value) : Step :=
  let Type_ := normalizeType Type_ in
  if oneOf Type_ integerTypes then
    match col with
    | Bytes bs => Append bs
    | _ => Append (Sprintf_d col)
    end
  else if oneOf Type_ floatTypes then
    match col with
    | Bytes bs => Append bs
    | _ => Append (Sprintf_f col)
    end
  else if oneOf Type_ decimalTypes then Append (Sprintf_s col)
  else if oneOf Type_ dateTypes then
    match col with
    | TimeV t => Append (quoted (formatDate t))
    | _ => Return "" None
    end
  else if oneOf Type_ timestampTypes then
    match col with
    | TimeV t => Append (quoted (formatTimestamp t))
    | _ => Return "" None
    end
  else if oneOf Type_ timeTypes then
    match col with
    | Bytes t => Append (quoted t)
    | _ => Return "" None
    end
  else if oneOf Type_ yearTypes then
    match col with
    | Bytes t => Append t
    | _ => Return "" None
    end
  else if oneOf Type_ charTypes then Append (quoted (escapeText rev (Sprintf_s col)))
  else if oneOf Type_ binaryTypes then Append ("0x" +:+ Sprintf_X col)
  else if oneOf Type_ quotedTypes then Append (quoted (Sprintf_s col))
  else if oneOf Type_ boolTypes then
    match col with
    | Boolean true => Append "true"
    | Boolean false => Append "false"
    | _ => Panic
    end
  else Return "" (Some ("unsupported type: " +:+ Type_)).

(** What the loop body does with column [i] of the row: a nil value
    bypasses the switch; [columnTypes[i]] panics out of range. *)
Definition columnStep (rev : Revision) (columnTypes : list string) (i : nat) (col : value)
  : Step :=
  match col with
  | Nil => Append "NULL"
  | _ => match nth_error columnTypes i with
         | Some Type_ => formatColumn rev Type_ col
         | None => Panic
         end
  end.

(** The loop of [buildRowData] from index [i] on; [len] is [len(row)] and
    [ssql] the text built so far. *)
Fixpoint buildRowData_from (rev : Revision) (len i : nat) (row : list value)
    (columnTypes : list string) (ssql : string) : Outcome (string * option error) :=
  match row with
  | [] => Returned (ssql, None)
  | col :: row' =>
      match columnStep rev columnTypes i col with
      | Panic => Panicked
      | Return s e => Returned (s, e)
      | Append text =>
          let ssql := ssql +:+ text in
          let ssql := if i <? len - 1 then ssql +:+ "," else ssql in
          buildRowData_from rev len (S i) row' columnTypes ssql
      end
  end.

Definition buildRowData (rev : Revision) (row : list value) (columnTypes : list string)
  : Outcome (string * option error) :=
  buildRowData_from rev (length row) 0 row columnTypes EmptyString.

(** What [rows.Scan] delivers for one row of a cursor; a scanned row has one
    value per column. *)
Inductive Scanned : Type :=
| ScanErr (e : error)
| ScanRow (row : list value).

(** The cursor [db.Query] returns. *)
Record Rows : Type := mkRows {
  Columns : error + list string;
  ColumnTypes : error + list string;     (* by DatabaseTypeName *)
  cursor : list Scanned
}.

(** The [for lineRows.Next()] loop. [buf] is what was written to the buffer
    so far; the result is the buffer and the error that left the function
    ([None] when the cursor is exhausted). *)
Fixpoint writeRows (rev : Revision) (table : string) (columns columnTypes : list string)
    (perDataNumber : Z) (rowId : Z) (rows : list Scanned) (buf : string)
  : Outcome (string * option error) :=
  match rows with
  | [] => Returned (buf, None)
  | scanned :: rows' =>
      let starts := (rowId =? 0)%Z || (perDataNumber <? 2)%Z
                    || (Z.rem rowId perDataNumber =? 0)%Z in
      let ssql :=
        if starts
        then (if (0 <? rowId)%Z then ";" +:+ str1 LF else EmptyString)
             +:+ ("INSERT INTO `" +:+ table +:+ "` (`" +:+ Join columns "`,`" +:+ "`) VALUES "
                  +:+ str1 LF)
        else EmptyString in
      let buf := if starts then buf else buf +:+ "," +:+ str1 LF in
      match scanned with
      | ScanErr e => Returned (buf, Some e)
      | ScanRow row =>
          match buildRowData rev row columnTypes with
          | Panicked => Panicked
          | Returned (_, Some e) => Returned (buf, Some e)
          | Returned (rowString, None) =>
              writeRows rev table columns columnTypes perDataNumber (rowId + 1) rows'
                (buf +:+ (ssql +:+ "(" +:+ rowString +:+ ")"))
          end
      end
  end.

(** [writeTableData]: [query] is what [db.Query("SELECT * FROM `table`")]
    answers. The result is everything written to [buf] and the returned
    error. The section header is the one difference between the two
    revisions of the function. *)
Definition writeTableData (rev : Revision) (query : error + Rows) (table : string)
    (perDataNumber : Z) : Outcome (string * option error) :=
  let buf :=
    ("-- ----------------------------" +:+ str1 LF)
    +:+ match rev with
        | Inline => "-- Records of " +:+ table +:+ str1 LF
        | Sanitized => "--Dumping data for table " +:+ table +:+ str1 LF
        end
    +:+ ("-- ----------------------------" +:+ str1 LF)
    +:+ "LOCK TABLES `" +:+ table +:+ "` WRITE;" +:+ str1 LF
    +:+ "/*!40000 ALTER TABLE `" +:+ table +:+ "` DISABLE KEYS */;" +:+ str1 LF in
  match query with
  | inl e => Returned (buf, Some e)
  | inr lineRows =>
      match Columns lineRows with
      | inl e => Returned (buf, Some e)
      | inr columns =>
          match ColumnTypes lineRows with
          | inl e => Returned (buf, Some e)
          | inr columnTypes =>
              match writeRows rev table columns columnTypes perDataNumber 0 (cursor lineRows) buf with
              | Panicked => Panicked
              | Returned (buf, Some e) => Returned (buf, Some e)
              | Returned (buf, None) =>
                  Returned
                    (buf +:+ (";" +:+ str1 LF
                              +:+ ("/*!40000 ALTER TABLE `" +:+ table +:+ "` ENABLE KEYS */;"
                                   +:+ str1 LF
                                   +:+ "UNLOCK TABLES;" +:+ str1 LF +:+ str1 LF)), None)
              end
          end
      end
  end.

(** *** The trigger cache *)

Record triggerStruct : Type := mkTrigger {
  Trigger : string;
  Event : string;
  Table : string;
  Statement : string;
  Timing : string
}.

(** The package-level variable [allTriggers] ([None] is the nil map) and the
    queries sent to the server so far. *)
Record Session : Type := mkSession {
  allTriggers : option (gmap string (list triggerStruct));
  queries : list string
}.

(** Reading a Go map: a missing key gives the zero value, the nil slice. *)
Definition triggersOf (m : gmap string (list triggerStruct)) (table : string)
  : list triggerStruct :=
  default [] (m !! table).

(** The [switch columns[k]] of the row loop. *)
Definition setField (trigger : triggerStruct) (column : string) (v : value) : triggerStruct :=
  if String.eqb column "Table" then
    mkTrigger (Trigger trigger) (Event trigger) (Sprintf_s v) (Statement trigger) (Timing trigger)
  else if String.eqb column "Event" then
    mkTrigger (Trigger trigger) (Sprintf_s v) (Table trigger) (Statement trigger) (Timing trigger)
  else if String.eqb column "Trigger" then
    mkTrigger (Sprintf_s v) (Event trigger) (Table trigger) (Statement trigger) (Timing trigger)
  else if String.eqb column "Statement" then
    mkTrigger (Trigger trigger) (Event trigger) (Table trigger) (Sprintf_s v) (Timing trigger)
  else if String.eqb column "Timing" then
    mkTrigger (Trigger trigger) (Event trigger) (Table trigger) (Statement trigger) (Sprintf_s v)
  else trigger.

Definition parseTrigger (columns : list string) (trgrow : list value) : triggerStruct :=
  fold_left (fun trigger kv => setField trigger (fst kv) (snd kv))
            (combine columns trgrow)
            (mkTrigger EmptyString EmptyString EmptyString EmptyString EmptyString).

(** The [for trgs.Next()] loop: the map as filled when the loop is left, and
    the scan error that left it, if any. *)
Fixpoint fillTriggers (columns : list string) (rows : list Scanned)
    (m : gmap string (list triggerStruct))
  : gmap string (list triggerStruct) * option error :=
  match rows with
  | [] => (m, None)
  | ScanErr e :: _ => (m, Some e)
  | ScanRow trgrow :: rows' =>
      let trigger := parseTrigger columns trgrow in
      fillTriggers columns rows'
        (<[Table trigger := triggersOf m (Table trigger) ++ [trigger]]> m)
  end.

(** [getTrigger]: [db] answers a query; the result is the session after the
    call, the returned triggers and the returned error. The error of
    [trgs.Columns()] is overwritten unread, its column list is then empty. *)
Definition getTrigger (db : string -> error + Rows) (st : Session) (table : string)
  : Session * (list triggerStruct * option error) :=
  match allTriggers st with
  | Some m => (st, (triggersOf m table, None))
  | None =>
      let asked := queries st ++ ["SHOW TRIGGERS"] in
      match db "SHOW TRIGGERS" with
      | inl e => (mkSession (Some ∅) asked, ([], Some e))
      | inr trgs =>
          let columns := match Columns trgs with inr c => c | inl _ => [] end in
          match fillTriggers columns (cursor trgs) ∅ with
          | (m, Some e) => (mkSession (Some m) asked, ([], Some e))
          | (m, None) => (mkSession (Some m) asked, (triggersOf m table, None))
          end
      end
  end.

(** A session: [getTrigger] called for each table of [tables] in turn. The
    result is the final session and what each call returned. *)
Fixpoint getTriggers (db : string -> error + Rows) (st : Session) (tables : list string)
  : Session * list (list triggerStruct * option error) :=
  match tables with
  | [] => (st, [])
  | table :: tables' =>
      let '(st1, r) := getTrigger db st table in
      let '(st2, rs) := getTriggers db st1 tables' in
      (st2, r :: rs)
  end.

End Formatting.

End Dump.

Import Dump.

(** ** The text of a data section, written out

    These texts are stated on their own, apart from the functions above:
    the properties compare what [writeTableData] writes with them. *)

Definition commentRule : string := "-- ----------------------------" +:+ str1 LF.

Definition sectionHeader (rev : Revision) (table : string) : string :=
  match rev with
  | Inline => "-- Records of " +:+ table +:+ str1 LF
  | Sanitized => "--Dumping data for table " +:+ table +:+ str1 LF
  end.

(** The lines ahead of the rows: comment lines, [LOCK TABLES], [DISABLE
    KEYS]. *)
Definition dataPrologue (rev : Revision) (table : string) : string :=
  commentRule +:+ sectionHeader rev table +:+ commentRule
  +:+ "LOCK TABLES `" +:+ table +:+ "` WRITE;" +:+ str1 LF
  +:+ "/*!40000 ALTER TABLE `" +:+ table +:+ "` DISABLE KEYS */;" +:+ str1 LF.

(** The lines after the rows: [ENABLE KEYS], [UNLOCK TABLES]. *)
Definition dataFooter (table : string) : string :=
  "/*!40000 ALTER TABLE `" +:+ table +:+ "` ENABLE KEYS */;" +:+ str1 LF
  +:+ "UNLOCK TABLES;" +:+ str1 LF +:+ str1 LF.

(** The terminator of the last statement, then the footer. *)
Definition dataEpilogue (table : string) : string :=
  ";" +:+ str1 LF +:+ dataFooter table.

(** The text that opens an [INSERT] statement. *)
Definition insertPrefix (table : string) (columns : list string) : string :=
  "INSERT INTO `" +:+ table +:+ "` (`" +:+ String.concat "`,`" columns +:+ "`) VALUES "
  +:+ str1 LF.

(** ** Reference notions the properties are stated against *)

Module Reference.

(** *** How a MySQL parser reads a single-quoted literal

    Inside the quotes a backslash introduces an escape sequence, a doubled
    quote stands for one quote, and the first lone quote closes the literal.
    [\%] and [\_] keep their backslash; a backslash before any other
    character is dropped. *)
Definition unescape (c : ascii) : string :=
  if Ascii.eqb c "0" then str1 NUL
  else if Ascii.eqb c "b" then str1 BS
  else if Ascii.eqb c "n" then str1 LF
  else if Ascii.eqb c "r" then str1 CR
  else if Ascii.eqb c "t" then str1 TAB
  else if Ascii.eqb c "Z" then str1 SUB
  else if Ascii.eqb c "%" || Ascii.eqb c "_" then String BACKSLASH (str1 c)
  else str1 c.

(** The text after the opening quote; [None] when the literal does not close
    at the end of the text. *)
Fixpoint decodeBody (s : string) : option string :=
  match s with
  | EmptyString => None
  | String c s' =>
      if Ascii.eqb c BACKSLASH then
        match s' with
        | EmptyString => None
        | String d s'' => option_map (String.append (unescape d)) (decodeBody s'')
        end
      else if Ascii.eqb c SQUOTE then
        match s' with
        | EmptyString => Some EmptyString
        | String d s'' =>
            if Ascii.eqb d SQUOTE then option_map (String SQUOTE) (decodeBody s'') else None
        end
      else option_map (String c) (decodeBody s')
  end.

Definition decodeLiteral (literal : string) : option string :=
  match literal with
  | String c body => if Ascii.eqb c SQUOTE then decodeBody body else None
  | EmptyString => None
  end.

(** *** A statement terminator that respects quoting

    The bytes up to and including the first [;] that is neither preceded by
    a backslash nor inside a quoted literal. [quote] is the quote character
    of the literal being read, [escaped] tells that the previous byte was an
    escaping backslash. *)
Definition isQuote (c : ascii) : bool :=
  Ascii.eqb c SQUOTE || Ascii.eqb c DQUOTE || Ascii.eqb c "`".

Fixpoint cutUnescaped (quote : option ascii) (escaped : bool) (s : string)
  : option (string * string) :=
  match s with
  | EmptyString => None
  | String c s' =>
      let keep q e :=
        match cutUnescaped q e s' with
        | Some (line, rest) => Some (String c line, rest)
        | None => None
        end in
      if escaped then keep quote false
      else if Ascii.eqb c BACKSLASH then keep quote true
      else
        match quote with
        | Some q => if Ascii.eqb c q then keep None false else keep quote false
        | None =>
            if Ascii.eqb c SEMI then Some (str1 c, s')
            else if isQuote c then keep (Some c) false
            else keep None false
        end
  end.

(** The statement a reader that stops at the next unescaped terminator
    hands on, and the bytes left. *)
Definition readUnescaped (input : string) : option (string * string) :=
  match cutUnescaped None false input with
  | Some (line, rest) => Some (trim line, rest)
  | None => None
  end.

(** *** Batches of rows

    A list cut into consecutive groups of [n] elements, the last group
    holding what is left. *)
Fixpoint chunks_fuel {A : Type} (fuel n : nat) (l : list A) : list (list A) :=
  match fuel with
  | O => []
  | S fuel' =>
      match l with
      | [] => []
      | _ => take n l :: chunks_fuel fuel' n (drop n l)
      end
  end.

Definition chunks {A : Type} (n : nat) (l : list A) : list (list A) :=
  chunks_fuel (length l) n l.

(** One multi-row [INSERT] statement: the prefix, the parenthesised tuples
    separated by a comma and a line break, the terminator. *)
Definition renderBatch (table : string) (columns : list string) (tuples : list string)
  : string :=
  insertPrefix table columns
  +:+ String.concat ("," +:+ str1 LF) (map (fun t => "(" +:+ t +:+ ")") tuples)
  +:+ ";" +:+ str1 LF.

(** A string made of white space characters only. *)
Inductive Spaces : string -> Prop :=
| Spaces_nil : Spaces EmptyString
| Spaces_cons (x rest : string) :
    isSpaceRune x = true -> Spaces rest -> Spaces (x +:+ rest).

End Reference.

Import Reference.

(** The ReadStatement step of [Source]: a statement is read up to the
    delimiter and trimmed; [None] when the read reports an error, [io.EOF]
    included. *)
Definition readStatement (r : Reader) : option (string * Reader) :=
  match ReadString r SEMI with
  | (ReadOk line, r') => Some (trim line, r')
  | _ => None
  end.

(** ** Notions used to state the properties *)

(** A server that accepts every DSN and every statement. *)
Definition acceptAll : Server := mkServer (fun _ => None) (fun _ => None).

(** The two bytes backslash, [n]. *)
Definition backslash_n : string := String BACKSLASH "n".

(** The columns [cols], which start at index [i] of a row, are all appended
    to the row text: none of them leaves the loop of [buildRowData]. *)
Fixpoint formatted (fmtOther : ascii -> value -> string) (rev : Revision)
    (columnTypes : list string) (i : nat) (cols : list value) : bool :=
  match cols with
  | [] => true
  | col :: cols' =>
      match columnStep fmtOther rev columnTypes i col with
      | Append _ => formatted fmtOther rev columnTypes (S i) cols'
      | _ => false
      end
  end.

Definition isTime (v : value) : bool := match v with TimeV _ => true | _ => false end.
Definition isBytes (v : value) : bool := match v with Bytes _ => true | _ => false end.

(** A temporal column whose value does not have the dynamic type its [case]
    asserts: [time.Time] for DATE, DATETIME and TIMESTAMP, a byte slice for
    TIME and YEAR. *)
Definition temporalMismatch (Type_ : string) (col : value) : bool :=
  let T := normalizeType Type_ in
  (oneOf T (dateTypes ++ timestampTypes) && negb (isTime col))
  || (oneOf T (timeTypes ++ yearTypes) && negb (isBytes col)).

(** Row number [rowId] opens a new [INSERT] statement. *)
Definition startsBatch (perDataNumber rowId : Z) : bool :=
  (rowId =? 0)%Z || (perDataNumber <? 2)%Z || (Z.rem rowId perDataNumber =? 0)%Z.

(** What the row loop writes ahead of the tuple of row number [rowId]. *)
Definition rowOpening (table : string) (columns : list string) (perDataNumber rowId : Z)
  : string :=
  if startsBatch perDataNumber rowId
  then (if (0 <? rowId)%Z then ";" +:+ str1 LF else EmptyString) +:+ insertPrefix table columns
  else "," +:+ str1 LF.

(** The reader [r] with the bytes [tail] added after its pending bytes. *)
Definition extend (tail : string) (r : Reader) : Reader :=
  mkReader (pending r +:+ tail) (failure r).

(** A string of ASCII white space bytes (blank, tab, line feed, ...). *)
Fixpoint allAsciiSpace (s : string) : bool :=
  match s with
  | EmptyString => true
  | String c s' => asciiSpace c && allAsciiSpace s'
  end.

(** The text of a single-row [INSERT]: the head up to the [VALUES] keyword,
    the keyword, the value tuple, the terminator. *)
Definition insertStatement (head tuple : string) : string :=
  head +:+ "VALUES" +:+ tuple +:+ ";".

(** [head] and [tuple] make a single-row [INSERT] statement of a dump: the
    head begins with [INSERT INTO], no terminator occurs inside the
    statement, and its [VALUES] keyword is the first occurrence of [VALUES]
    in it. *)
Definition singleRowInsert (head tuple : string) : bool :=
  HasPrefix head "INSERT INTO"
  && negb (mem_ascii SEMI head) && negb (mem_ascii SEMI tuple)
  && (Index (insertStatement head tuple) "VALUES" =? Z.of_nat (String.length head))%Z.

(** The ReadStatement step stops where a reader that respects quoting and
    escaping stops, on [input]: both hand on the same statement and leave
    the same bytes, or both find no statement. *)
Definition stopsAtUnescaped (input : string) : Prop :=
  match readStatement (mkReader input None) with
  | Some (ssql, r) => readUnescaped input = Some (ssql, pending r)
  | None => readUnescaped input = None
  end.

(** Strings put one after the other. *)
Definition concatAll (l : list string) : string := fold_right String.append EmptyString l.

(** What the row loop writes for rows number [rowId], [rowId + 1], ... whose
    tuples are [tuples]. *)
Fixpoint emitted (table : string) (columns : list string) (perDataNumber rowId : Z)
    (tuples : list string) : string :=
  match tuples with
  | [] => EmptyString
  | t :: tuples' =>
      rowOpening table columns perDataNumber rowId +:+ "(" +:+ t +:+ ")"
      +:+ emitted table columns perDataNumber (rowId + 1) tuples'
  end.

(** *** The trigger answer, read row by row *)

(** The rows of a cursor that are scanned before the first failure, and
    that failure. *)
Fixpoint scannedRows (lineRows : list Scanned) : list (list value) :=
  match lineRows with
  | ScanRow row :: rest => row :: scannedRows rest
  | _ => []
  end.

Fixpoint scanFailure (lineRows : list Scanned) : option error :=
  match lineRows with
  | [] => None
  | ScanErr e :: _ => Some e
  | ScanRow _ :: rest => scanFailure rest
  end.

(** What a row holds under the column name [column]: the text of the last
    column of that name, and the empty string when there is none. *)
Definition fieldOf (fmtOther : ascii -> value -> string) (column : string)
    (columns : list string) (trgrow : list value) : string :=
  fold_left (fun text kv => if String.eqb (fst kv) column then Sprintf_s fmtOther (snd kv)
                            else text)
            (combine columns trgrow) EmptyString.

Definition triggerOfRow (fmtOther : ascii -> value -> string) (columns : list string)
    (trgrow : list value) : triggerStruct :=
  mkTrigger (fieldOf fmtOther "Trigger" columns trgrow)
            (fieldOf fmtOther "Event" columns trgrow)
            (fieldOf fmtOther "Table" columns trgrow)
            (fieldOf fmtOther "Statement" columns trgrow)
            (fieldOf fmtOther "Timing" columns trgrow).

(** The triggers the server's answer to [SHOW TRIGGERS] holds, up to the
    first row that is not scanned, and the error of that answer, if any. *)
Definition answeredTriggers (fmtOther : ascii -> value -> string)
    (db : string -> error + Rows) : list triggerStruct :=
  match db "SHOW TRIGGERS" with
  | inl _ => []
  | inr trgs =>
      map (triggerOfRow fmtOther (match Columns trgs with inr c => c | inl _ => [] end))
          (scannedRows (cursor trgs))
  end.

Definition answerFailure (db : string -> error + Rows) : option error :=
  match db "SHOW TRIGGERS" with
  | inl e => Some e
  | inr trgs => scanFailure (cursor trgs)
  end.

(** The triggers of a list that belong to [table], in the order of the
    list. *)
Definition triggersOn (table : string) (triggers : list triggerStruct) : list triggerStruct :=
  List.filter (fun trigger => String.eqb (Table trigger) table) triggers.

(** *** The properties as the specification words them, on one input *)

(** Single-row [INSERT] statements for the rows [tuples], as
    [writeTableData] writes them with the default batch size. *)
Definition insertsOf (table : string) (columns : list string) (tuples : list string)
  : string :=
  concatAll (map (fun t => renderBatch table columns [t]) tuples).

(** C3 on an input: with merge size 2, three statements are dispatched
    between the opening and the closing statements of the session, and
    [Source] returns nil. *)
Definition executesThree (srv : Server) (dsn input : string) : Prop :=
  exists dbName s1 s2 s3,
    Source srv dsn (mkReader input None) [WithMergeInsert 2]
    = (["USE " +:+ dbName +:+ ";"; "SET autocommit=0;"; s1; s2; s3;
        "COMMIT;"; "SET autocommit=1;"], None).

(** C6 on a session: the calls for [tables] send one [SHOW TRIGGERS]. *)
Definition asksOnce (fmtOther : ascii -> value -> string) (db : string -> error + Rows)
    (st : Session) (tables : list string) : Prop :=
  queries (fst (getTriggers fmtOther db st tables)) = queries st ++ ["SHOW TRIGGERS"].

(** A row holds a non-NULL temporal column whose value has not the dynamic
    type its case asserts. *)
Definition holdsTemporalMismatch (row : list value) (columnTypes : list string) : Prop :=
  exists i col Type_,
    nth_error row i = Some col /\ col <> Nil
    /\ nth_error columnTypes i = Some Type_ /\ temporalMismatch Type_ col = true.

(** C8 on a row: the empty string and a nil error are returned. *)
Definition truncatedSilently (fmtOther : ascii -> value -> string) (rev : Revision)
    (row : list value) (columnTypes : list string) : Prop :=
  buildRowData fmtOther rev row columnTypes = Returned (EmptyString, None).

(** ** Further notions: the restore side *)

(** The terminated lines of an input, in order: each ends with its [;];
    the bytes after the last terminator belong to no line. *)
Fixpoint terminatedLines (s : string) : list string :=
  match s with
  | EmptyString => []
  | String c s' =>
      if Ascii.eqb c SEMI then str1 c :: terminatedLines s'
      else match terminatedLines s' with
           | [] => []
           | line :: lines => String c line :: lines
           end
  end.

(** What [mergeInsert] keeps of a statement it merges into a batch: the
    text after the first [VALUES] of the statement, without a final
    terminator. *)
Definition mergedPart (insertSQL : string) : string :=
  TrimSuffix (TrimPrefix (sliceFrom (Z.to_nat (Index insertSQL "VALUES")) insertSQL) "VALUES") ";".

(** The statement holds no [VALUES]. *)
Definition lacksValues (insertSQL : string) : bool := (Index insertSQL "VALUES" =? -1)%Z.

(** The server [srv] with every statement accepted. *)
Definition accepting (srv : Server) : Server := mkServer (open_error srv) (fun _ => None).

(** The wrapper [Source] builds for the options [opts]. *)
Definition wrapperOf (srv : Server) (opts : list SourceOption) : dbWrapper :=
  newDBWrapper srv (opt_dryRun (applyOptions opts)) (opt_debug (applyOptions opts)).

(** A stream of single-row [INSERT] statements, given by head and tuple,
    each followed by [sep]. *)
Definition insertStream (sep : string) (inserts : list (string * string)) : string :=
  concatAll (map (fun ht => insertStatement (fst ht) (snd ht) +:+ sep) inserts).

(** The statement a batch of single-row [INSERT]s is merged into: the head
    and tuple of the first, then a comma and the tuple of each of the
    others. *)
Definition mergedStatement (batch : list (string * string)) : string :=
  match batch with
  | [] => EmptyString
  | ht :: more =>
      fst ht +:+ "VALUES" +:+ snd ht
      +:+ concatAll (map (fun ht' => "," +:+ snd ht') more) +:+ ";"
  end.

(** ** Further notions: util.go *)

(** [GetDBHostFromDSN]: the DSN must hold exactly one ["@"]; the host is
    what follows it up to the first ["/"], without a [tcp(] .. [)] wrapping,
    and [127.0.0.1] when that is blank. [strings.CutPrefix] and
    [strings.CutSuffix] return what [TrimPrefix] and [TrimSuffix] return. *)
Definition GetDBHostFromDSN (dsn : string) : error + string :=
  match splitS dsn "@" with
  | [_; s1] =>
      let h := hd EmptyString (splitS s1 "/") in
      let h := if HasPrefix h "tcp(" then TrimSuffix (TrimPrefix h "tcp(") ")" else h in
      if String.eqb (TrimSpace h) "" then inr "127.0.0.1" else inr h
  | _ => inl ("dsn error: " +:+ dsn)
  end.

(** How often the byte [d] occurs in [s]. *)
Fixpoint countChar (d : ascii) (s : string) : nat :=
  match s with
  | EmptyString => 0
  | String c s' => (if Ascii.eqb c d then 1 else 0) + countChar d s'
  end.

(** ** Further notions: the dump side *)

(** The texts the columns [cols], which start at index [i] of a row, add to
    the row text; [None] when one of them leaves the loop of
    [buildRowData]. *)
Fixpoint columnTexts (fmtOther : ascii -> value -> string) (rev : Revision)
    (columnTypes : list string) (i : nat) (cols : list value) : option (list string) :=
  match cols with
  | [] => Some []
  | col :: cols' =>
      match columnStep fmtOther rev columnTypes i col with
      | Append text =>
          option_map (cons text) (columnTexts fmtOther rev columnTypes (S i) cols')
      | _ => None
      end
  end.

(** How a MySQL parser reads a hexadecimal literal [0x<digits>]: at least
    one digit must follow the [0x]; two digits make a byte. *)
Definition hexValue (c : ascii) : option nat :=
  let b := nat_of_ascii c in
  if (48 <=? b) && (b <=? 57) then Some (b - 48)
  else if (65 <=? b) && (b <=? 70) then Some (b - 55)
  else if (97 <=? b) && (b <=? 102) then Some (b - 87)
  else None.

Fixpoint unhex (digits : string) : option string :=
  match digits with
  | EmptyString => Some EmptyString
  | String a (String b rest) =>
      match hexValue a, hexValue b, unhex rest with
      | Some x, Some y, Some bytes => Some (String (ascii_of_nat (16 * x + y)) bytes)
      | _, _, _ => None
      end
  | String _ EmptyString => None
  end.

Definition decodeHexLiteral (literal : string) : option string :=
  match literal with
  | String "0" (String "x" (String a rest)) => unhex (String a rest)
  | _ => None
  end.

(** ** mysqldump.go: the orchestrator (first revision) *)

Module Orchestrator.

Record dumpOption : Type := mkDumpOption {
  isData : bool;
  dbs : list string;
  isAllDB : bool;
  tables : list string;
  isAllTables : bool;
  isDropTable : bool;
  isUseDb : bool;
  perDataNumber : Z;
  log : bool;
  version : string
}.

Definition DumpOption : Type := dumpOption -> dumpOption.

Definition WithDropTable : DumpOption := fun o =>
  mkDumpOption (isData o) (dbs o) (isAllDB o) (tables o) (isAllTables o) true (isUseDb o)
               (perDataNumber o) (log o) (version o).
Definition WithData : DumpOption := fun o =>
  mkDumpOption true (dbs o) (isAllDB o) (tables o) (isAllTables o) (isDropTable o) (isUseDb o)
               (perDataNumber o) (log o) (version o).
Definition WithAllDatabases : DumpOption := fun o =>
  mkDumpOption (isData o) (dbs o) true (tables o) (isAllTables o) (isDropTable o) (isUseDb o)
               (perDataNumber o) (log o) (version o).
Definition WithUseDb : DumpOption := fun o =>
  mkDumpOption (isData o) (dbs o) (isAllDB o) (tables o) (isAllTables o) (isDropTable o) true
               (perDataNumber o) (log o) (version o).
Definition WithDBs (databases : list string) : DumpOption := fun o =>
  mkDumpOption (isData o) databases (isAllDB o) (tables o) (isAllTables o) (isDropTable o)
               (isUseDb o) (perDataNumber o) (log o) (version o).
Definition WithTables (tbls : list string) : DumpOption := fun o =>
  mkDumpOption (isData o) (dbs o) (isAllDB o) tbls (isAllTables o) (isDropTable o) (isUseDb o)
               (perDataNumber o) (log o) (version o).
Definition WithAllTables : DumpOption := fun o =>
  mkDumpOption (isData o) (dbs o) (isAllDB o) (tables o) true (isDropTable o) (isUseDb o)
               (perDataNumber o) (log o) (version o).
Definition WithMultiInsert (num : Z) : DumpOption := fun o =>
  mkDumpOption (isData o) (dbs o) (isAllDB o) (tables o) (isAllTables o) (isDropTable o)
               (isUseDb o) num (log o) (version o).
Definition WithLogErrors : DumpOption := fun o =>
  mkDumpOption (isData o) (dbs o) (isAllDB o) (tables o) (isAllTables o) (isDropTable o)
               (isUseDb o) (perDataNumber o) true (version o).

(** The zero value of [dumpOption], then every option applied in order.
    [WithWriter] only chooses the sink and is left out: the bytes written
    are the result of [Dump] here. *)
Definition applyDumpOptions (opts : list DumpOption) : dumpOption :=
  fold_left (fun o opt => opt o) opts
            (mkDumpOption false [] false [] false false false 0 false EmptyString).

(** The database server as the dump sees it. Every answer may depend on the
    statements and queries the server has received so far, oldest first.
    [rowOf] answers a [QueryRow] by the columns of the first row as [Scan]
    stores them in strings (no row, or a column that is NULL, is an error
    answer), [namesOf] a [Query] whose rows are scanned into one string
    each, [rowsOf] a [Query] scanned into [interface{}] values. *)
Record Database : Type := mkDatabase {
  openError : string -> option error;
  execError : list string -> string -> option error;
  rowOf : list string -> string -> error + list string;
  namesOf : list string -> string -> error + list (error + string);
  rowsOf : list string -> string -> error + Rows
}.

(** The readings of the clock that the header and the footer show. *)
Record Clock : Type := mkClock {
  startTime : string;   (* start.Format(DEFAULT_LOG_TIMESTAMP) *)
  costTime : string     (* time.Since(start).String() *)
}.

(** How a part of [Dump] ends: it goes on with a value, it returns an
    error, or it panics. The session is the one reached; the buffer is
    followed up to a return. *)
Inductive Run (A : Type) : Type :=
| Next (a : A) (st : Session) (buf : string)
| Stop (e : error) (st : Session) (buf : string)
| Crash (st : Session).
Arguments Next {A} a st buf.
Arguments Stop {A} e st buf.
Arguments Crash {A} st.

Definition Prog (A : Type) : Type := Session -> string -> Run A.

Definition ret {A : Type} (a : A) : Prog A := fun st buf => Next a st buf.

Definition bind {A B : Type} (m : Prog A) (k : A -> Prog B) : Prog B :=
  fun st buf =>
    match m st buf with
    | Next a st' buf' => k a st' buf'
    | Stop e st' buf' => Stop e st' buf'
    | Crash st' => Crash st'
    end.

Notation "x <- m ;; k" := (bind m (fun x => k))
  (at level 100, m at next level, right associativity).
Notation "m ;;; k" := (bind m (fun _ => k))
  (at level 100, right associativity).

(** [buf.WriteString(s)] *)
Definition write (s : string) : Prog unit := fun st buf => Next tt st (buf +:+ s).

(** [return err] *)
Definition stop {A : Type} (e : error) : Prog A := fun st buf => Stop e st buf.

(** A statement or query is sent: the server answers from what it has
    received before, and the text joins the record. *)
Definition sent (st : Session) (q : string) : Session :=
  mkSession (allTriggers st) (queries st ++ [q]).

Definition exec (srv : Database) (q : string) : Prog unit :=
  fun st buf =>
    match execError srv (queries st) q with
    | Some e => Stop e (sent st q) buf
    | None => Next tt (sent st q) buf
    end.

(** [db.QueryRow(q).Scan(..)] with [n] destinations: the row must have [n]
    columns. *)
Definition queryRow (srv : Database) (q : string) (n : nat) : Prog (list string) :=
  fun st buf =>
    match rowOf srv (queries st) q with
    | inl e => Stop e (sent st q) buf
    | inr cols =>
        if length cols =? n then Next cols (sent st q) buf
        else Stop ("sql: expected " +:+ NilZero.string_of_uint (Nat.to_uint (length cols))
                   +:+ " destination arguments in Scan, not "
                   +:+ NilZero.string_of_uint (Nat.to_uint n))
                  (sent st q) buf
    end.

(** The [for rows.Next()] loop of [getDBs] and [getAllTables]. *)
Fixpoint scanNames (rows : list (error + string)) (names : list string)
  : error + list string :=
  match rows with
  | [] => inr names
  | inl e :: _ => inl e
  | inr name :: rows' => scanNames rows' (names ++ [name])
  end.

Definition queryNames (srv : Database) (q : string) : Prog (list string) :=
  fun st buf =>
    match namesOf srv (queries st) q with
    | inl e => Stop e (sent st q) buf
    | inr rows =>
        match scanNames rows [] with
        | inl e => Stop e (sent st q) buf
        | inr names => Next names (sent st q) buf
        end
    end.

(** [getDBs] *)
Definition getDBs (srv : Database) : Prog (list string) := queryNames srv "SHOW DATABASES".

(** [getAllTables] *)
Definition getAllTables (srv : Database) : Prog (list string) := queryNames srv "SHOW TABLES".

Definition tableTypeQuery (table : string) : string :=
  "SELECT TABLE_TYPE FROM INFORMATION_SCHEMA.TABLES WHERE TABLE_SCHEMA = DATABASE() AND TABLE_NAME = '"
  +:+ table +:+ "'".

(** [getTableType] *)
Definition getTableType (srv : Database) (table : string) : Prog string :=
  cols <- queryRow srv (tableTypeQuery table) 1 ;;
  let tableType := nth 0 cols EmptyString in
  if String.eqb tableType "BASE TABLE" then ret "TABLE"
  else if String.eqb tableType "VIEW" then ret "VIEW"
  else ret "".

(** [strings.Replace(s, old, new, 1)] for a non-empty [old]: the first
    occurrence is replaced. *)
Fixpoint replaceFirst (s old new : string) : string :=
  if String.prefix old s then new +:+ sliceFrom (String.length old) s
  else match s with
       | EmptyString => EmptyString
       | String c s' => String c (replaceFirst s' old new)
       end.

Definition showCreateQuery (table : string) : string :=
  "SHOW CREATE TABLE `" +:+ table +:+ "`".

(** [getCreateTableSQL] *)
Definition getCreateTableSQL (srv : Database) (table : string) : Prog string :=
  cols <- queryRow srv (showCreateQuery table) 2 ;;
  ret (replaceFirst (nth 1 cols EmptyString) "CREATE TABLE" "CREATE TABLE IF NOT EXISTS").

(** [writeTableStruct] *)
Definition writeTableStruct (srv : Database) (table : string) : Prog unit :=
  write ("-- ----------------------------" +:+ str1 LF) ;;;
  write ("-- Table structure for " +:+ table +:+ str1 LF) ;;;
  write ("-- ----------------------------" +:+ str1 LF) ;;;
  createTableSQL <- getCreateTableSQL srv table ;;
  write createTableSQL ;;;
  write ";" ;;;
  write (str1 LF +:+ str1 LF) ;;;
  write (str1 LF +:+ str1 LF).

(** [writeViewStruct] *)
Definition writeViewStruct (srv : Database) (table : string) : Prog unit :=
  write ("-- ----------------------------" +:+ str1 LF) ;;;
  write ("-- View structure for " +:+ table +:+ str1 LF) ;;;
  write ("-- ----------------------------" +:+ str1 LF) ;;;
  cols <- queryRow srv (showCreateQuery table) 4 ;;
  write (nth 1 cols EmptyString) ;;;
  write ";" ;;;
  write (str1 LF +:+ str1 LF) ;;;
  write (str1 LF +:+ str1 LF).

Definition selectAllQuery (table : string) : string := "SELECT * FROM `" +:+ table +:+ "`".

Section Formatted.

Variable fmtOther : ascii -> value -> string.

(** [writeTableData] inside a run: the opening of the section is written,
    then the query is sent. *)
Definition runTableData (srv : Database) (table : string) (perData : Z) : Prog unit :=
  fun st buf =>
    match writeTableData fmtOther Inline (rowsOf srv (queries st) (selectAllQuery table))
                         table perData with
    | Panicked => Crash (sent st (selectAllQuery table))
    | Returned (text, Some e) => Stop e (sent st (selectAllQuery table)) (buf +:+ text)
    | Returned (text, None) => Next tt (sent st (selectAllQuery table)) (buf +:+ text)
    end.

(** The lines [writeTableTrigger] collects for one trigger. *)
Definition triggerLines (v : triggerStruct) : list string :=
  [ "DELIMITER ;;";
    "/*!50003 SET SESSION SQL_MODE=" +:+ str1 DQUOTE +:+ str1 DQUOTE +:+ " */;;";
    "/*!50003 CREATE TRIGGER `" +:+ Trigger v +:+ "` " +:+ Timing v +:+ " " +:+ Event v
      +:+ " ON `" +:+ Table v +:+ "` FOR EACH ROW " +:+ Statement v +:+ " */;;";
    "DELIMITER ;";
    "/*!50003 SET SESSION SQL_MODE=@OLD_SQL_MODE */;" +:+ str1 LF ].

Definition triggerSection (table : string) (triggers : list triggerStruct) : string :=
  Join ((if 0 <? length triggers
         then [ "-- ----------------------------";
                "-- Dump table triggers of " +:+ table +:+ "--------";
                "-- ----------------------------" ]
         else [])
        ++ flat_map triggerLines triggers)
       (str1 LF).

(** [writeTableTrigger] *)
Definition writeTableTrigger (srv : Database) (table : string) : Prog unit :=
  fun st buf =>
    match getTrigger fmtOther (rowsOf srv (queries st)) st table with
    | (st', (_, Some e)) => Stop e st' buf
    | (st', (triggers, None)) => Next tt st' (buf +:+ triggerSection table triggers)
    end.

(** The body of the loop over the tables of a database. *)
Definition dumpTable (srv : Database) (o : dumpOption) (table : string) : Prog unit :=
  tt_ <- getTableType srv table ;;
  (if String.eqb tt_ "TABLE" then
     (if isDropTable o then write ("DROP TABLE IF EXISTS `" +:+ table +:+ "`;" +:+ str1 LF)
      else ret tt) ;;;
     writeTableStruct srv table ;;;
     (if isData o then runTableData srv table (perDataNumber o) else ret tt) ;;;
     writeTableTrigger srv table
   else ret tt) ;;;
  (if String.eqb tt_ "VIEW" then
     (if isDropTable o then write ("DROP VIEW IF EXISTS  `" +:+ table +:+ "`;" +:+ str1 LF)
      else ret tt) ;;;
     writeViewStruct srv table
   else ret tt).

Fixpoint forEach {A : Type} (body : A -> Prog unit) (l : list A) : Prog unit :=
  match l with
  | [] => ret tt
  | a :: l' => body a ;;; forEach body l'
  end.

(** The body of the loop over the databases; [useDb] is [o.isUseDb] as set
    before the loop. *)
Definition dumpDatabase (srv : Database) (o : dumpOption) (useDb : bool) (dbStr : string)
  : Prog unit :=
  exec srv ("USE `" +:+ dbStr +:+ "`") ;;;
  tbls <- (if isAllTables o then getAllTables srv else ret (tables o)) ;;
  (if useDb then write ("USE `" +:+ dbStr +:+ "`;" +:+ str1 LF) else ret tt) ;;;
  forEach (dumpTable srv o) tbls.

Definition dumpHeader (dbHost : string) (databases : list string) (serverVersion : string)
    (clock : Clock) : string :=
  "-- ----------------------------" +:+ str1 LF
  +:+ "-- MySQL Database Dump" +:+ str1 LF
  +:+ "-- Host: " +:+ dbHost +:+ str1 LF
  +:+ "-- Database(s): " +:+ joinS databases "," +:+ str1 LF
  +:+ "-- Server version: " +:+ serverVersion +:+ str1 LF
  +:+ "-- Start Time: " +:+ startTime clock +:+ str1 LF
  +:+ "-- ----------------------------" +:+ str1 LF
  +:+ str1 LF +:+ str1 LF
  +:+ "/*!40101 SET @OLD_SQL_MODE=@@SQL_MODE, SQL_MODE='NO_AUTO_VALUE_ON_ZERO' */;" +:+ str1 LF.

Definition dumpFooter (clock : Clock) : string :=
  "-- ----------------------------" +:+ str1 LF
  +:+ "-- Dumped by mysqldump" +:+ str1 LF
  +:+ "-- Cost Time: " +:+ costTime clock +:+ str1 LF
  +:+ "-- ----------------------------" +:+ str1 LF.

(** [Dump]. [st] holds the package variable [allTriggers] as the call finds
    it and the record of what the server has received. The run ends with
    the bytes written, which the deferred [Flush] hands to the writer on
    every return. *)
Definition Dump (srv : Database) (clock : Clock) (dsn : string) (opts : list DumpOption)
  : Prog unit :=
  let o := applyDumpOptions opts in
  databases <- (if length (dbs o) =? 0
                then match GetDBNameFromDSN dsn with
                     | inl e => stop e
                     | inr dbName => ret [dbName]
                     end
                else ret (dbs o)) ;;
  let o := mkDumpOption (isData o) databases (isAllDB o) (tables o)
                        (if length (tables o) =? 0 then true else isAllTables o)
                        (isDropTable o) (isUseDb o) (perDataNumber o) (log o) (version o) in
  dbHost <- match GetDBHostFromDSN dsn with
            | inl e => stop e
            | inr h => ret h
            end ;;
  match openError srv dsn with Some e => stop e | None => ret tt end ;;;
  cols <- queryRow srv "SELECT version()" 1 ;;
  let serverVersion := nth 0 cols EmptyString in
  write (dumpHeader dbHost (dbs o) serverVersion clock) ;;;
  databases <- (if isAllDB o then getDBs srv else ret (dbs o)) ;;
  let useDb := if 1 <? length databases then true else isUseDb o in
  forEach (dumpDatabase srv o useDb) databases ;;;
  write (dumpFooter clock).

End Formatted.

(** *** Notions used to state the properties of a run *)

(** The session a run ends in. *)
Definition sessionOf {A : Type} (r : Run A) : Session :=
  match r with
  | Next _ st _ => st
  | Stop _ st _ => st
  | Crash st => st
  end.

Definition isTriggerQuery (q : string) : bool := String.eqb q "SHOW TRIGGERS".

(** How many times the triggers are asked for in a list of queries. *)
Definition triggerQueries (l : list string) : nat := length (List.filter isTriggerQuery l).

(** A query that reads the rows of a table. *)
Definition readsRows (q : string) : bool := HasPrefix q "SELECT * FROM".

(** [st'] is reached from [st] by sending [asked]. *)
Definition reached (st st' : Session) (asked : list string) : Prop :=
  queries st' = queries st ++ asked.

(** The trigger queries sent so far, plus the one still to come while the
    cache is not loaded. *)
Definition triggerBudget (st : Session) : nat :=
  triggerQueries (queries st) + match allTriggers st with Some _ => 0 | None => 1 end.

Definition withinBudget (st st' : Session) : Prop :=
  (exists asked, reached st st' asked) /\ triggerBudget st' <= triggerBudget st.

Definition withoutRows (st st' : Session) : Prop :=
  exists asked, reached st st' asked /\ forallb (fun q => negb (readsRows q)) asked = true.

(** Every run of [p] ends in a session related by [R] to the one it
    started in. *)
Definition keeps {A : Type} (R : Session -> Session -> Prop) (p : Prog A) : Prop :=
  forall st buf, R st (sessionOf (p st buf)).

(** The trigger cache is loaded. *)
Definition loaded (st : Session) : Prop := allTriggers st <> None.

(** From a session with a loaded cache, [p] and [p'] run alike, and the
    cache stays loaded. *)
Definition agree {A : Type} (p p' : Prog A) : Prop :=
  forall st buf, loaded st -> p st buf = p' st buf /\ loaded (sessionOf (p st buf)).

(** The queries of [Dump] that neither ask for the triggers nor read the
    rows of a table. *)
Inductive plainQuery : string -> Prop :=
| plain_version : plainQuery "SELECT version()"
| plain_databases : plainQuery "SHOW DATABASES"
| plain_tables : plainQuery "SHOW TABLES"
| plain_use (dbStr : string) : plainQuery ("USE `" +:+ dbStr +:+ "`")
| plain_type (table : string) : plainQuery (tableTypeQuery table)
| plain_create (table : string) : plainQuery (showCreateQuery table).

Definition dumpQuery (q : string) : Prop :=
  plainQuery q \/ q = "SHOW TRIGGERS" \/ exists table, q = selectAllQuery table.

(** The text starts with one of the verbs [SELECT], [SHOW] and [USE]. *)
Definition startsAsRead (q : string) : bool :=
  HasPrefix q "SELECT " || HasPrefix q "SHOW " || HasPrefix q "USE ".

Definition onlyDumpQueries (st st' : Session) : Prop :=
  exists asked, reached st st' asked /\ Forall dumpQuery asked.

(** The server [srv], except that [SHOW TRIGGERS] is answered by [answer]. *)
Definition withTriggers (answer : error + Rows) (srv : Database) : Database :=
  mkDatabase (openError srv) (execError srv) (rowOf srv) (namesOf srv)
             (fun asked q => if isTriggerQuery q then answer else rowsOf srv asked q).

(** A session in which nothing was sent and no trigger is cached. *)
Definition freshSession : Session := mkSession None [].

Definition exampleClock : Clock := mkClock "2024-01-01 00:00:00" "1s".

(** A server with one database, [shop], that holds one base table, [item],
    with one row and one trigger. *)
Definition shopServer : Database :=
  mkDatabase
    (fun _ => None)
    (fun _ _ => None)
    (fun _ q =>
       if String.eqb q "SELECT version()" then inr ["8.0.36"]
       else if String.eqb q (tableTypeQuery "item") then inr ["BASE TABLE"]
       else if String.eqb q (showCreateQuery "item")
            then inr ["item"; "CREATE TABLE `item` (`id` int)"]
       else inl "sql: no rows in result set")
    (fun _ q =>
       if String.eqb q "SHOW TABLES" then inr [inr "item"]
       else if String.eqb q "SHOW DATABASES" then inr [inr "shop"]
       else inl "refused")
    (fun _ q =>
       if String.eqb q "SHOW TRIGGERS"
       then inr (mkRows (inr ["Trigger"; "Event"; "Table"; "Statement"; "Timing"]) (inr [])
                        [ScanRow [Bytes "audit"; Bytes "INSERT"; Bytes "item";
                                  Bytes "SET @n = 1"; Bytes "BEFORE"]])
       else if String.eqb q (selectAllQuery "item")
            then inr (mkRows (inr ["id"]) (inr ["INT"]) [ScanRow [Int64 7]])
       else inl "refused").

End Orchestrator.

(** ** Further notions: a dump read back by [Source] *)

Definition noSemi (s : string) : bool := negb (mem_ascii SEMI s).

(** The statements of a data section, as they stand between terminators. *)
Definition lockStatement (rev : Revision) (table : string) : string :=
  commentRule +:+ sectionHeader rev table +:+ commentRule
  +:+ "LOCK TABLES `" +:+ table +:+ "` WRITE;".

Definition disableKeys (table : string) : string :=
  "/*!40000 ALTER TABLE `" +:+ table +:+ "` DISABLE KEYS */;".

Definition enableKeys (table : string) : string :=
  "/*!40000 ALTER TABLE `" +:+ table +:+ "` ENABLE KEYS */;".

Definition insertOf (table : string) (columns : list string) (batch : list string) : string :=
  insertPrefix table columns
  +:+ String.concat ("," +:+ str1 LF) (map (fun t => "(" +:+ t +:+ ")") batch)
  +:+ ";".

(** The rows of a table as [writeTableData] groups them into statements. *)
Definition batchesOf (N : Z) (tuples : list string) : list (list string) :=
  if (N <? 2)%Z then map (fun t => [t]) tuples else chunks (Z.to_nat N) tuples.

(** The comment lines ahead of the triggers of a table. *)
Definition triggerBanner (table : string) : string :=
  "-- ----------------------------" +:+ str1 LF
  +:+ "-- Dump table triggers of " +:+ table +:+ "--------" +:+ str1 LF
  +:+ "-- ----------------------------" +:+ str1 LF.


(** * Properties *)

(** ** Strings *)

Lemma app_nil_l (s : string) : "" +:+ s = s.
Proof. reflexivity. Qed.

Lemma app_cons (c : ascii) (a b : string) : String c a +:+ b = String c (a +:+ b).
Proof. reflexivity. Qed.

Lemma app_nil_r (s : string) : s +:+ "" = s.
Proof. induction s as [|c s IH]; [reflexivity | now rewrite app_cons, IH]. Qed.

Lemma app_assoc (a b c : string) : (a +:+ b) +:+ c = a +:+ (b +:+ c).
Proof. induction a as [|x a IH]; [reflexivity | now rewrite !app_cons, IH]. Qed.

Lemma length_app (a b : string) :
  String.length (a +:+ b) = String.length a + String.length b.
Proof. induction a as [|x a IH]; [reflexivity | rewrite app_cons; simpl; now rewrite IH]. Qed.

Lemma prefix_app (p s : string) : String.prefix p (p +:+ s) = true.
Proof.
  induction p as [|c p IH].
  - now destruct s.
  - rewrite app_cons. simpl.
    destruct (ascii_dec c c) as [_|n]; [exact IH | now contradiction n].
Qed.

Lemma sliceFrom_app (p s : string) : sliceFrom (String.length p) (p +:+ s) = s.
Proof. induction p as [|c p IH]; [reflexivity | rewrite app_cons; exact IH]. Qed.

Lemma TrimPrefix_app (p s : string) : TrimPrefix (p +:+ s) p = s.
Proof. unfold TrimPrefix, HasPrefix. rewrite prefix_app. apply sliceFrom_app. Qed.

Lemma eqb_app_longer (c : ascii) (a suf : string) :
  String.eqb (String c a +:+ suf) suf = false.
Proof.
  apply String.eqb_neq. intros H.
  apply (f_equal String.length) in H. rewrite app_cons in H. simpl in H.
  rewrite length_app in H. lia.
Qed.

Lemma TrimSuffix_app (a suf : string) : TrimSuffix (a +:+ suf) suf = a.
Proof.
  induction a as [|c a IH].
  - rewrite app_nil_l. destruct suf as [|d suf]; [reflexivity|].
    simpl. now rewrite Ascii.eqb_refl, String.eqb_refl.
  - pose proof (eqb_app_longer c a suf) as E. rewrite app_cons in E |- *.
    simpl. simpl in E. now rewrite E, IH.
Qed.

(** ** The frame of a data section *)

(** [writeTableData] on a cursor whose columns and column types are read:
    the row loop runs on the prologue, and the epilogue follows when it
    returns no error. *)
Lemma writeTableData_frame (fmtOther : ascii -> value -> string) (rev : Revision)
    (table : string) (columns columnTypes : list string) (lineRows : list Scanned)
    (perDataNumber : Z) :
  writeTableData fmtOther rev (inr (mkRows (inr columns) (inr columnTypes) lineRows)) table
                 perDataNumber
  = match writeRows fmtOther rev table columns columnTypes perDataNumber 0 lineRows
            (dataPrologue rev table) with
    | Panicked => Panicked
    | Returned (buf, Some e) => Returned (buf, Some e)
    | Returned (buf, None) => Returned (buf +:+ dataEpilogue table, None)
    end.
Proof. reflexivity. Qed.

(** ** The row batch emitter on a table without rows *)

(** C10. For every table whose cursor yields no row, [writeTableData]
    returns without error after writing the comment header, [LOCK TABLES ..
    WRITE], [DISABLE KEYS], then a line that holds nothing but [;], then
    [ENABLE KEYS] and [UNLOCK TABLES]: no [INSERT] statement stands between
    the brackets. *)
Theorem writeTableData_no_rows
    (fmtOther : ascii -> value -> string) (rev : Revision) (table : string)
    (columns columnTypes : list string) (perDataNumber : Z) :
  writeTableData fmtOther rev (inr (mkRows (inr columns) (inr columnTypes) [])) table
                 perDataNumber
  = Returned
      (commentRule +:+ sectionHeader rev table +:+ commentRule
       +:+ "LOCK TABLES `" +:+ table +:+ "` WRITE;" +:+ str1 LF
       +:+ "/*!40000 ALTER TABLE `" +:+ table +:+ "` DISABLE KEYS */;" +:+ str1 LF
       +:+ ";" +:+ str1 LF
       +:+ "/*!40000 ALTER TABLE `" +:+ table +:+ "` ENABLE KEYS */;" +:+ str1 LF
       +:+ "UNLOCK TABLES;" +:+ str1 LF +:+ str1 LF,
       None).
Proof.
  unfold writeTableData, dataPrologue, dataEpilogue, dataFooter. cbn [Columns ColumnTypes cursor writeRows].
  f_equal. f_equal.
  repeat rewrite app_assoc. reflexivity.
Qed.

(** ** The statement loop of [Source], step by step *)

Lemma source_loop_next (f : nat) (o : sourceOption) (db : dbWrapper) (r r1 r2 : Reader)
    (line q : string) (trace : list string) :
  ReadString r SEMI = (ReadOk line, r1) ->
  nextStatement o (trim line) r1 = inr (q, r2) ->
  Exec db q = None ->
  source_loop (S f) o db r trace = source_loop f o db r2 (trace ++ [q]).
Proof. intros Hr Hn He. simpl. now rewrite Hr, Hn, He. Qed.

Lemma source_loop_eof (f : nat) (o : sourceOption) (db : dbWrapper) (r r' : Reader)
    (line : string) (trace : list string) :
  ReadString r SEMI = (ReadEOF line, r') ->
  source_loop (S f) o db r trace = Some (trace, None).
Proof. intros Hr. simpl. now rewrite Hr. Qed.

Lemma nextStatement_plain (o : sourceOption) (ssql : string) (r : Reader) :
  HasPrefix ssql "INSERT INTO" = false -> nextStatement o ssql r = inr (ssql, r).
Proof. intros H. unfold nextStatement. now rewrite H, andb_false_r. Qed.

Lemma nextStatement_unmerged (o : sourceOption) (ssql : string) (r : Reader) :
  (opt_mergeInsert o <= 1)%Z -> nextStatement o ssql r = inr (ssql, r).
Proof.
  intros H. unfold nextStatement.
  destruct (1 <? opt_mergeInsert o)%Z eqn:E; [apply Z.ltb_lt in E; lia | reflexivity].
Qed.

(** ** The statement that ends a merge batch *)

(** C1. With merge size [M > 1], a statement that does not begin with
    [INSERT INTO] and is read while a merge batch is accumulated ends the
    batch; [Source] then dispatches the batch and goes on to read the next
    statement: the one that ended the batch, here [UNLOCK TABLES;], is in no
    dispatched statement although the restore reports success. *)
Theorem Source_loses_the_statement_ending_a_batch (M : Z) :
  (1 < M)%Z ->
  Source acceptAll "root:secret@tcp(127.0.0.1:3306)/shop"
         (mkReader "INSERT INTO t VALUES (1);UNLOCK TABLES;DROP TABLE u;" None)
         [WithMergeInsert M]
  = (["USE shop;"; "SET autocommit=0;"; "INSERT INTO t VALUES (1);"; "DROP TABLE u;";
      "COMMIT;"; "SET autocommit=1;"], None).
Proof.
  intros HM.
  destruct (Z.to_nat (M - 1)) as [|k] eqn:Ek; [lia|].
  assert (HltM : (1 <? M)%Z = true) by (apply Z.ltb_lt; exact HM).
  unfold Source, applyOptions, WithMergeInsert. cbn [fold_left opt_dryRun opt_mergeInsert opt_debug].
  replace (GetDBNameFromDSN "root:secret@tcp(127.0.0.1:3306)/shop") with (inr "shop" : error + string)
    by (vm_compute; reflexivity).
  cbn [open_error acceptAll execAll Exec newDBWrapper dryRun DB exec_error pending].
  change (S (String.length "INSERT INTO t VALUES (1);UNLOCK TABLES;DROP TABLE u;")) with (3 + 50).
  cbn [Nat.add].
  rewrite (source_loop_next _ _ _ _ (mkReader "UNLOCK TABLES;DROP TABLE u;" None)
             (mkReader "DROP TABLE u;" None)
             "INSERT INTO t VALUES (1);" "INSERT INTO t VALUES (1);");
    [ | vm_compute; reflexivity | | reflexivity ].
  2:{ replace (trim "INSERT INTO t VALUES (1);") with "INSERT INTO t VALUES (1);"
        by (vm_compute; reflexivity).
      unfold nextStatement. cbn [opt_mergeInsert]. rewrite HltM, Ek.
      replace (HasPrefix "INSERT INTO t VALUES (1);" "INSERT INTO") with true
        by (vm_compute; reflexivity).
      cbn [andb accumulate].
      replace (ReadString (mkReader "UNLOCK TABLES;DROP TABLE u;" None) SEMI)
        with (ReadOk "UNLOCK TABLES;", mkReader "DROP TABLE u;" None)
        by (vm_compute; reflexivity).
      replace (HasPrefix (trim "UNLOCK TABLES;") "INSERT INTO") with false
        by (vm_compute; reflexivity).
      vm_compute. reflexivity. }
  rewrite (source_loop_next _ _ _ _ (mkReader "" None) (mkReader "" None)
             "DROP TABLE u;" "DROP TABLE u;");
    [ | vm_compute; reflexivity | apply nextStatement_plain; vm_compute; reflexivity
      | reflexivity ].
  rewrite (source_loop_eof _ _ _ _ (mkReader "" None) ""); [ | vm_compute; reflexivity ].
  reflexivity.
Qed.

Lemma Source_loses_the_statement_ending_a_batch_witness :
  Source acceptAll "root:secret@tcp(127.0.0.1:3306)/shop"
         (mkReader "INSERT INTO t VALUES (1);UNLOCK TABLES;DROP TABLE u;" None)
         [WithMergeInsert 2]
  = (["USE shop;"; "SET autocommit=0;"; "INSERT INTO t VALUES (1);"; "DROP TABLE u;";
      "COMMIT;"; "SET autocommit=1;"], None).
Proof. apply (Source_loses_the_statement_ending_a_batch 2). lia. Defined.

(** Without merging the same stream is dispatched in full. *)
Example Source_without_merge_keeps_every_statement :
  Source acceptAll "root:secret@tcp(127.0.0.1:3306)/shop"
         (mkReader "INSERT INTO t VALUES (1);UNLOCK TABLES;DROP TABLE u;" None) []
  = (["USE shop;"; "SET autocommit=0;"; "INSERT INTO t VALUES (1);"; "UNLOCK TABLES;";
      "DROP TABLE u;"; "COMMIT;"; "SET autocommit=1;"], None).
Proof. vm_compute. reflexivity. Qed.

(** ** Escaping of textual values *)

(** Apart from the backslash every byte survives the round trip: an escaped
    byte is read back from its escape sequence, any other byte stands for
    itself. *)
Lemma decodeBody_escaped (rev : Revision) (c : ascii) (rest : string) :
  Ascii.eqb BACKSLASH c = false ->
  decodeBody (escapeText rev (str1 c) +:+ rest) = option_map (String c) (decodeBody rest).
Proof.
  destruct rev;
    destruct c as [[] [] [] [] [] [] [] []]; intros H; try discriminate H;
    reflexivity.
Qed.

Lemma escapeText_cons (rev : Revision) (c : ascii) (s : string) :
  escapeText rev (String c s) = escapeText rev (str1 c) +:+ escapeText rev s.
Proof.
  destruct rev; unfold escapeText, sanitize, str1; cbn [byteReplace]; now rewrite app_nil_r.
Qed.

Lemma escaping_keeps_values_without_backslash (rev : Revision) (s : string) :
  mem_ascii BACKSLASH s = false ->
  decodeLiteral (quoted (escapeText rev s)) = Some s.
Proof.
  intros H.
  change (decodeLiteral (quoted (escapeText rev s)))
    with (decodeBody (escapeText rev s +:+ "'")).
  induction s as [|c s IH].
  - now destruct rev.
  - change (mem_ascii BACKSLASH (String c s))
      with (Ascii.eqb BACKSLASH c || mem_ascii BACKSLASH s) in H.
    apply orb_false_iff in H as [Hc Hs].
    rewrite escapeText_cons, app_assoc, (decodeBody_escaped _ _ _ Hc), (IH Hs).
    reflexivity.
Qed.

(** C2. A character value that holds a backslash is written unchanged
    between the quotes by either escape table, so the value of two bytes
    backslash, [n] becomes the literal ['\n'], which a MySQL parser reads as
    the single byte line feed: the round trip loses the original bytes. *)
Theorem escaping_loses_a_backslash (fmtOther : ascii -> value -> string) (rev : Revision) :
  escapeText rev backslash_n = backslash_n
  /\ buildRowData fmtOther rev [Bytes backslash_n] ["VARCHAR"]
     = Returned (quoted backslash_n, None)
  /\ decodeLiteral (quoted backslash_n) = Some (str1 LF)
  /\ str1 LF <> backslash_n.
Proof.
  repeat split.
  - destruct rev; vm_compute; reflexivity.
  - destruct rev; vm_compute; reflexivity.
  - discriminate.
Qed.

(** ** The value formatter *)

Section RowData.

Variable fmtOther : ascii -> value -> string.
Variable rev : Revision.
Variable columnTypes : list string.

Lemma oneOf_app (x : string) (l1 l2 : list string) :
  oneOf x (l1 ++ l2) = oneOf x l1 || oneOf x l2.
Proof. apply existsb_app. Qed.

(** Columns that are all appended only extend the text built so far. *)
Lemma buildRowData_from_formatted (len : nat) (before rest : list value) :
  forall (i : nat) (ssql : string),
    formatted fmtOther rev columnTypes i before = true ->
    exists ssql',
      buildRowData_from fmtOther rev len i (before ++ rest) columnTypes ssql
      = buildRowData_from fmtOther rev len (i + length before) rest columnTypes ssql'.
Proof.
  induction before as [|col before IH]; intros i ssql Hf.
  - exists ssql. simpl. now rewrite Nat.add_0_r.
  - simpl in Hf. simpl.
    destruct (columnStep fmtOther rev columnTypes i col) eqn:E; try discriminate.
    destruct (IH (S i) (if i <? len - 1 then (ssql +:+ text) +:+ "," else ssql +:+ text) Hf)
      as [ssql' H].
    exists ssql'. rewrite H. f_equal. lia.
Qed.

(** The column that leaves the loop decides what [buildRowData] returns. *)
Lemma buildRowData_returns (before after : list value) (col : value)
    (s : string) (e : option error) :
  formatted fmtOther rev columnTypes 0 before = true ->
  columnStep fmtOther rev columnTypes (length before) col = Return s e ->
  buildRowData fmtOther rev (before ++ col :: after) columnTypes = Returned (s, e).
Proof.
  intros Hf Hc. unfold buildRowData.
  destruct (buildRowData_from_formatted (length (before ++ col :: after)) before
              (col :: after) 0 "" Hf) as [ssql' H].
  rewrite H. simpl. now rewrite Hc.
Qed.

Lemma columnStep_unsupported (i : nat) (col : value) (Type_ : string) :
  col <> Nil ->
  nth_error columnTypes i = Some Type_ ->
  oneOf (normalizeType Type_) supportedTypes = false ->
  columnStep fmtOther rev columnTypes i col
  = Return "" (Some ("unsupported type: " +:+ normalizeType Type_)).
Proof.
  intros Hnil Hty Hun. unfold supportedTypes in Hun.
  repeat (rewrite oneOf_app in Hun; apply orb_false_iff in Hun; destruct Hun as [? Hun]).
  unfold columnStep. rewrite Hty.
  destruct col; try (now contradiction Hnil); unfold formatColumn;
    repeat match goal with H : oneOf _ _ = false |- _ => rewrite H; clear H end;
    reflexivity.
Qed.

Lemma columnStep_temporal (i : nat) (col : value) (Type_ : string) :
  col <> Nil ->
  nth_error columnTypes i = Some Type_ ->
  temporalMismatch Type_ col = true ->
  columnStep fmtOther rev columnTypes i col = Return "" None.
Proof.
  intros Hnil Hty Hm. unfold columnStep. rewrite Hty.
  unfold temporalMismatch in Hm. cbv zeta in Hm.
  unfold formatColumn. cbv zeta.
  remember (normalizeType Type_) as T.
  unfold oneOf, integerTypes, floatTypes, decimalTypes, dateTypes, timestampTypes,
    timeTypes, yearTypes in *.
  cbn [existsb app] in *.
  destruct (String.eqb_spec T "DATE") as [->|_];
    [destruct col; try (now contradiction Hnil); try reflexivity; discriminate|].
  destruct (String.eqb_spec T "DATETIME") as [->|_];
    [destruct col; try (now contradiction Hnil); try reflexivity; discriminate|].
  destruct (String.eqb_spec T "TIMESTAMP") as [->|_];
    [destruct col; try (now contradiction Hnil); try reflexivity; discriminate|].
  destruct (String.eqb_spec T "TIME") as [->|_];
    [destruct col; try (now contradiction Hnil); try reflexivity; discriminate|].
  destruct (String.eqb_spec T "YEAR") as [->|_];
    [destruct col; try (now contradiction Hnil); try reflexivity; discriminate|].
  discriminate.
Qed.

End RowData.

(** ** The row loop of [writeTableData] *)

Section RowLoop.

Variable fmtOther : ascii -> value -> string.
Variable rev : Revision.
Variable table : string.
Variables columns columnTypes : list string.
Variable perDataNumber : Z.

Let loop := writeRows fmtOther rev table columns columnTypes perDataNumber.

(** A row that is formatted adds its opening and its tuple to the buffer. *)
Lemma writeRows_row (row : list value) (t : string) (rowId : Z) (rows : list Scanned)
    (buf : string) :
  buildRowData fmtOther rev row columnTypes = Returned (t, None) ->
  loop rowId (ScanRow row :: rows) buf
  = loop (rowId + 1)%Z rows
      (buf +:+ rowOpening table columns perDataNumber rowId +:+ "(" +:+ t +:+ ")").
Proof.
  intros H. unfold loop. simpl. rewrite H. unfold rowOpening, startsBatch.
  destruct ((rowId =? 0)%Z || (perDataNumber <? 2)%Z || (Z.rem rowId perDataNumber =? 0)%Z).
  - reflexivity.
  - now rewrite !app_assoc, app_nil_l.
Qed.

(** A row that fails leaves at most a separator behind. *)
Lemma writeRows_error (row : list value) (s : string) (e : error) (rowId : Z)
    (rows : list Scanned) (buf : string) :
  buildRowData fmtOther rev row columnTypes = Returned (s, Some e) ->
  loop rowId (ScanRow row :: rows) buf
  = Returned (buf +:+ (if startsBatch perDataNumber rowId then "" else "," +:+ str1 LF),
              Some e).
Proof.
  intros H. unfold loop. simpl. rewrite H. unfold startsBatch.
  destruct ((rowId =? 0)%Z || (perDataNumber <? 2)%Z || (Z.rem rowId perDataNumber =? 0)%Z).
  - now rewrite app_nil_r.
  - reflexivity.
Qed.

(** Rows that are written without error are followed by the rest of the
    cursor. *)
Lemma writeRows_app (good rest : list Scanned) :
  forall (rowId : Z) (buf b0 : string),
    loop rowId good buf = Returned (b0, None) ->
    loop rowId (good ++ rest) buf = loop (rowId + Z.of_nat (length good))%Z rest b0.
Proof.
  unfold loop.
  induction good as [|sc good IH]; intros rowId buf b0 H.
  - simpl in H. injection H as <-. simpl. now rewrite Z.add_0_r.
  - simpl in H. simpl.
    destruct sc as [e|row]; [discriminate|].
    destruct (buildRowData fmtOther rev row columnTypes) as [[t [e|]]|];
      try discriminate.
    rewrite (IH _ _ _ H). f_equal. simpl length. lia.
Qed.

(** Where the unsupported type is reported: when the first column that
    leaves the loop of [buildRowData] is a non-NULL column whose normalized
    type has no case, [buildRowData] fails with the error
    [unsupported type: <type>]; [writeTableData] returns that error at once,
    and the buffer holds what the rows before wrote, followed by the
    separator of a continued statement when the row does not open one:
    nothing of the row or of the rows after it is written. *)
Lemma writeTableData_unsupported_type
    (good rest : list Scanned) (written : string)
    (before after : list value) (col : value) (Type_ : string) :
  writeRows fmtOther rev table columns columnTypes perDataNumber 0 good
            (dataPrologue rev table) = Returned (written, None) ->
  formatted fmtOther rev columnTypes 0 before = true ->
  col <> Nil ->
  nth_error columnTypes (length before) = Some Type_ ->
  oneOf (normalizeType Type_) supportedTypes = false ->
  buildRowData fmtOther rev (before ++ col :: after) columnTypes
  = Returned ("", Some ("unsupported type: " +:+ normalizeType Type_))
  /\ writeTableData fmtOther rev
       (inr (mkRows (inr columns) (inr columnTypes)
                    (good ++ ScanRow (before ++ col :: after) :: rest)))
       table perDataNumber
     = Returned
         (written +:+ (if startsBatch perDataNumber (Z.of_nat (length good))
                       then "" else "," +:+ str1 LF),
          Some ("unsupported type: " +:+ normalizeType Type_)).
Proof.
  intros Hgood Hf Hnil Hty Hun.
  assert (Hb : buildRowData fmtOther rev (before ++ col :: after) columnTypes
               = Returned ("", Some ("unsupported type: " +:+ normalizeType Type_))).
  { apply buildRowData_returns; [exact Hf|]. now apply columnStep_unsupported. }
  split; [exact Hb|].
  rewrite writeTableData_frame.
  fold loop. rewrite (writeRows_app good _ 0%Z _ written Hgood).
  rewrite (writeRows_error _ _ _ _ rest written Hb). reflexivity.
Qed.

End RowLoop.

Example writeTableData_unsupported_type_example :
  buildRowData (fun _ _ => "") Inline ([Int64 2] ++ Bytes "POINT(1 1)" :: [])
               ["INT"; "GEOMETRY"]
  = Returned ("", Some ("unsupported type: " +:+ normalizeType "GEOMETRY"))
  /\ writeTableData (fun _ _ => "") Inline
       (inr (mkRows (inr ["id"; "g"]) (inr ["INT"; "GEOMETRY"])
                    ([ScanRow [Int64 1; Nil]]
                     ++ ScanRow ([Int64 2] ++ Bytes "POINT(1 1)" :: [])
                     :: [ScanRow [Int64 3; Nil]])))
       "t" 2
     = Returned
         ((dataPrologue Inline "t" +:+ insertPrefix "t" ["id"; "g"] +:+ "(1,NULL)")
          +:+ (if startsBatch 2 (Z.of_nat (length [ScanRow [Int64 1; Nil]]))
               then "" else "," +:+ str1 LF),
          Some ("unsupported type: " +:+ normalizeType "GEOMETRY")).
Proof.
  apply (writeTableData_unsupported_type (fun _ _ => "") Inline "t" ["id"; "g"]
           ["INT"; "GEOMETRY"] 2 [ScanRow [Int64 1; Nil]] [ScanRow [Int64 3; Nil]]
           (dataPrologue Inline "t" +:+ insertPrefix "t" ["id"; "g"] +:+ "(1,NULL)")
           [Int64 2] [] (Bytes "POINT(1 1)") "GEOMETRY").
  - vm_compute. reflexivity.
  - reflexivity.
  - discriminate.
  - reflexivity.
  - reflexivity.
Qed.

(** ** The trigger cache *)

Section TriggerCache.

Variable fmtOther : ascii -> value -> string.
Variable db : string -> error + Rows.

(** Once the mapping exists, a call reads from it and leaves the session as
    it is: no query is sent. *)
Lemma getTriggers_cached (m : gmap string (list triggerStruct)) (asked : list string)
    (tables : list string) :
  getTriggers fmtOther db (mkSession (Some m) asked) tables
  = (mkSession (Some m) asked, map (fun t => (triggersOf m t, None)) tables).
Proof.
  induction tables as [|t tables IH]; [reflexivity|].
  cbn [getTriggers getTrigger allTriggers]. now rewrite IH.
Qed.

Lemma triggersOf_insert (m : gmap string (list triggerStruct)) (key table : string)
    (l : list triggerStruct) :
  triggersOf (<[key := l]> m) table = if String.eqb key table then l else triggersOf m table.
Proof.
  unfold triggersOf. destruct (String.eqb_spec key table) as [->|Hne].
  - now rewrite lookup_insert_eq.
  - now rewrite lookup_insert_ne.
Qed.

(** The [switch] of the row loop sets each field from the columns of its
    name, the last one winning. *)
Lemma setField_fields (l : list (string * value)) :
  forall trigger : triggerStruct,
    fold_left (fun trigger kv => setField fmtOther trigger (fst kv) (snd kv)) l trigger
    = mkTrigger
        (fold_left (fun text kv => if String.eqb (fst kv) "Trigger"
                                   then Sprintf_s fmtOther (snd kv) else text) l
                   (Trigger trigger))
        (fold_left (fun text kv => if String.eqb (fst kv) "Event"
                                   then Sprintf_s fmtOther (snd kv) else text) l
                   (Event trigger))
        (fold_left (fun text kv => if String.eqb (fst kv) "Table"
                                   then Sprintf_s fmtOther (snd kv) else text) l
                   (Table trigger))
        (fold_left (fun text kv => if String.eqb (fst kv) "Statement"
                                   then Sprintf_s fmtOther (snd kv) else text) l
                   (Statement trigger))
        (fold_left (fun text kv => if String.eqb (fst kv) "Timing"
                                   then Sprintf_s fmtOther (snd kv) else text) l
                   (Timing trigger)).
Proof.
  induction l as [|[column v] l IH]; intros trigger; [now destruct trigger|].
  cbn [fold_left fst snd]. rewrite IH. unfold setField.
  destruct (String.eqb_spec column "Table") as [->|_]; [reflexivity|].
  destruct (String.eqb_spec column "Event") as [->|_]; [reflexivity|].
  destruct (String.eqb_spec column "Trigger") as [->|_]; [reflexivity|].
  destruct (String.eqb_spec column "Statement") as [->|_]; [reflexivity|].
  destruct (String.eqb_spec column "Timing") as [->|_]; reflexivity.
Qed.

Lemma parseTrigger_fields (columns : list string) (trgrow : list value) :
  parseTrigger fmtOther columns trgrow = triggerOfRow fmtOther columns trgrow.
Proof. unfold parseTrigger. now rewrite setField_fields. Qed.

(** The row loop files every scanned row under its table, behind the rows
    filed before, and stops at the first row that is not scanned. *)
Lemma fillTriggers_cursor (columns : list string) (lineRows : list Scanned) :
  forall (m0 : gmap string (list triggerStruct)),
  exists m,
    fillTriggers fmtOther columns lineRows m0 = (m, scanFailure lineRows)
    /\ forall t,
         default [] (m !! t)
         = default [] (m0 !! t)
           ++ triggersOn t (map (triggerOfRow fmtOther columns) (scannedRows lineRows)).
Proof.
  induction lineRows as [|[e|trgrow] lineRows IH]; intros m0.
  - exists m0. split; [reflexivity|]. intros t. cbn. now rewrite List.app_nil_r.
  - exists m0. split; [reflexivity|]. intros t. cbn. now rewrite List.app_nil_r.
  - cbn [fillTriggers scanFailure scannedRows map].
    destruct (IH (<[Table (parseTrigger fmtOther columns trgrow)
                    := triggersOf m0 (Table (parseTrigger fmtOther columns trgrow))
                       ++ [parseTrigger fmtOther columns trgrow]]> m0)) as (m & Hm & Hl).
    exists m. split; [exact Hm|]. intros t. rewrite Hl.
    fold (triggersOf (<[Table (parseTrigger fmtOther columns trgrow)
                        := triggersOf m0 (Table (parseTrigger fmtOther columns trgrow))
                           ++ [parseTrigger fmtOther columns trgrow]]> m0) t).
    rewrite triggersOf_insert, <- parseTrigger_fields.
    unfold triggersOn. cbn [List.filter].
    destruct (String.eqb_spec (Table (parseTrigger fmtOther columns trgrow)) t) as [->|_].
    + unfold triggersOf. now rewrite <- List.app_assoc.
    + reflexivity.
Qed.

(** C6, amended. In a process, however many tables ask for their triggers
    and in whatever order, exactly one [SHOW TRIGGERS] is sent: by the
    first call, which finds no mapping. That call installs the mapping: for
    every table, the triggers of the answer whose [Table] column names it,
    in the order of the answer, up to the first row that is not scanned
    (none when the query fails); it returns the entry of its table, or the
    error of the answer. Every later call returns the entry of its table
    in that mapping, with a nil error, and sends nothing. A session that
    finds the mapping loaded, as every dump of the process after the first
    does, sends no query at all and reads the mapping it finds. *)
Theorem trigger_cache_sends_one_query (st : Session) (table : string) (tables : list string) :
  match allTriggers st with
  | None =>
      exists m : gmap string (list triggerStruct),
        (forall t, default [] (m !! t) = triggersOn t (answeredTriggers fmtOther db))
        /\ getTriggers fmtOther db st (table :: tables)
           = (mkSession (Some m) (queries st ++ ["SHOW TRIGGERS"]),
              match answerFailure db with
              | Some e => ([], Some e)
              | None => (triggersOn table (answeredTriggers fmtOther db), None)
              end
              :: map (fun t => (triggersOn t (answeredTriggers fmtOther db), None)) tables)
  | Some m =>
      getTriggers fmtOther db st (table :: tables)
      = (st, map (fun t => (default [] (m !! t), None)) (table :: tables))
  end.
Proof.
  destruct st as [[m|] asked]; cbn [allTriggers queries].
  - apply getTriggers_cached.
  - cbn [getTriggers]. unfold getTrigger at 1. cbn [allTriggers queries].
    unfold answeredTriggers, answerFailure.
    destruct (db "SHOW TRIGGERS") as [e|trgs].
    + exists ∅. split; [intros t; now rewrite lookup_empty|].
      rewrite getTriggers_cached.
      do 2 f_equal; try (apply map_ext; intros t; unfold triggersOf; now rewrite lookup_empty).
    + destruct (fillTriggers_cursor
                  (match Columns trgs with inr c => c | inl _ => [] end) (cursor trgs) ∅)
        as (m & Hm & Hl).
      assert (H : forall t,
                 default [] (m !! t)
                 = triggersOn t
                     (map (triggerOfRow fmtOther
                             (match Columns trgs with inr c => c | inl _ => [] end))
                          (scannedRows (cursor trgs)))).
      { intros t. rewrite Hl. now rewrite lookup_empty. }
      exists m. split; [exact H|]. rewrite Hm.
      assert (Hrest : map (fun t => (triggersOf m t, @None error)) tables
                      = map (fun t => (triggersOn t
                                         (map (triggerOfRow fmtOther
                                                 (match Columns trgs with
                                                  | inr c => c | inl _ => [] end))
                                              (scannedRows (cursor trgs))), @None error))
                            tables).
      { apply map_ext. intros t. unfold triggersOf. now rewrite H. }
      destruct (scanFailure (cursor trgs)) as [e|];
        rewrite getTriggers_cached, Hrest; [reflexivity|].
      unfold triggersOf. now rewrite H.
Qed.

End TriggerCache.

Lemma trigger_cache_sends_one_query_witness :
  exists m : gmap string (list triggerStruct),
    (forall t,
        default [] (m !! t)
        = triggersOn t [mkTrigger "audit" "INSERT" "item" "SET @n = 1" "BEFORE";
                        mkTrigger "purge" "DELETE" "other" "SET @d = 1" "AFTER";
                        mkTrigger "stamp" "UPDATE" "item" "SET @u = 1" "BEFORE"])
    /\ getTriggers (fun _ _ => "")
         (fun _ => inr (mkRows (inr ["Trigger"; "Event"; "Table"; "Statement"; "Timing"])
                               (inr [])
                               [ScanRow [Bytes "audit"; Bytes "INSERT"; Bytes "item";
                                         Bytes "SET @n = 1"; Bytes "BEFORE"];
                                ScanRow [Bytes "purge"; Bytes "DELETE"; Bytes "other";
                                         Bytes "SET @d = 1"; Bytes "AFTER"];
                                ScanRow [Bytes "stamp"; Bytes "UPDATE"; Bytes "item";
                                         Bytes "SET @u = 1"; Bytes "BEFORE"]]))
         (mkSession None []) ("item" :: ["none"; "other"; "item"])
       = (mkSession (Some m) ["SHOW TRIGGERS"],
          [ ([mkTrigger "audit" "INSERT" "item" "SET @n = 1" "BEFORE";
              mkTrigger "stamp" "UPDATE" "item" "SET @u = 1" "BEFORE"], None);
            ([], None);
            ([mkTrigger "purge" "DELETE" "other" "SET @d = 1" "AFTER"], None);
            ([mkTrigger "audit" "INSERT" "item" "SET @n = 1" "BEFORE";
              mkTrigger "stamp" "UPDATE" "item" "SET @u = 1" "BEFORE"], None) ]).
Proof.
  exact (trigger_cache_sends_one_query (fun _ _ => "")
           (fun _ => inr (mkRows (inr ["Trigger"; "Event"; "Table"; "Statement"; "Timing"])
                                 (inr [])
                                 [ScanRow [Bytes "audit"; Bytes "INSERT"; Bytes "item";
                                           Bytes "SET @n = 1"; Bytes "BEFORE"];
                                  ScanRow [Bytes "purge"; Bytes "DELETE"; Bytes "other";
                                           Bytes "SET @d = 1"; Bytes "AFTER"];
                                  ScanRow [Bytes "stamp"; Bytes "UPDATE"; Bytes "item";
                                           Bytes "SET @u = 1"; Bytes "BEFORE"]]))
           (mkSession None []) "item" ["none"; "other"; "item"]).
Defined.

(** C6 as stated fails for a session that finds the mapping loaded, as the
    second dump of a process does: its calls send no query. *)
Lemma loaded_session_sends_no_query :
  ~ asksOnce (fun _ _ => "") (fun _ => inr (mkRows (inr []) (inr []) []))
             (mkSession (Some ∅) []) ["item"; "other"].
Proof. unfold asksOnce. vm_compute. discriminate. Qed.

(** ** Reading up to the delimiter *)

Lemma cut_split (d : ascii) (s line rest : string) :
  cut d s = Some (line, rest) -> s = line +:+ rest /\ 0 < String.length line.
Proof.
  revert line rest. induction s as [|c s IH]; intros line rest H; [discriminate|].
  simpl in H. destruct (Ascii.eqb c d).
  - injection H as <- <-. split; [reflexivity | simpl; lia].
  - destruct (cut d s) as [[l r]|]; [|discriminate].
    injection H as <- <-. destruct (IH l r eq_refl) as [-> _].
    split; [reflexivity | simpl; lia].
Qed.

Lemma cut_found (d : ascii) (body rest : string) :
  mem_ascii d body = false ->
  cut d (body +:+ String d rest) = Some (body +:+ str1 d, rest).
Proof.
  induction body as [|c body IH]; intros H.
  - rewrite !app_nil_l. simpl. now rewrite Ascii.eqb_refl.
  - rewrite !app_cons. simpl in H. apply orb_false_iff in H as [Hc Hb].
    simpl. rewrite Ascii.eqb_sym, Hc, (IH Hb). reflexivity.
Qed.

Lemma cut_none (d : ascii) (s : string) : mem_ascii d s = false -> cut d s = None.
Proof.
  induction s as [|c s IH]; intros H; [reflexivity|].
  simpl in H. apply orb_false_iff in H as [Hc Hs].
  simpl. rewrite Ascii.eqb_sym, Hc, (IH Hs). reflexivity.
Qed.

Lemma cut_app_some (d : ascii) (s t line rest : string) :
  cut d s = Some (line, rest) -> cut d (s +:+ t) = Some (line, rest +:+ t).
Proof.
  revert line rest. induction s as [|c s IH]; intros line rest H; [discriminate|].
  rewrite app_cons. simpl in H |- *. destruct (Ascii.eqb c d).
  - now injection H as <- <-.
  - destruct (cut d s) as [[l r]|]; [|discriminate].
    injection H as <- <-. now rewrite (IH l r eq_refl).
Qed.

Lemma cut_app_none (d : ascii) (s t : string) :
  cut d s = None -> mem_ascii d t = false -> cut d (s +:+ t) = None.
Proof.
  intros Hs Ht. induction s as [|c s IH].
  - now apply cut_none.
  - rewrite app_cons. simpl in Hs |- *. destruct (Ascii.eqb c d); [discriminate|].
    destruct (cut d s) as [[l r]|]; [discriminate|]. now rewrite IH.
Qed.

(** A statement was read: the reader moved on by at least one byte. *)
Lemma ReadString_ok_shorter (r r1 : Reader) (line : string) :
  ReadString r SEMI = (ReadOk line, r1) ->
  String.length (pending r1) < String.length (pending r).
Proof.
  unfold ReadString. intros H.
  destruct (cut SEMI (pending r)) as [[l rest]|] eqn:E.
  - injection H as <- <-. apply cut_split in E as [-> Hl].
    rewrite length_app. simpl. lia.
  - destruct (failure r); discriminate.
Qed.

Lemma ReadString_not_longer (r r1 : Reader) (res : ReadResult) :
  ReadString r SEMI = (res, r1) ->
  String.length (pending r1) <= String.length (pending r).
Proof.
  unfold ReadString. intros H.
  destruct (cut SEMI (pending r)) as [[l rest]|] eqn:E.
  - injection H as <- <-. apply cut_split in E as [-> Hl].
    rewrite length_app. simpl. lia.
  - destruct (failure r); injection H as <- <-; simpl; lia.
Qed.

(** ** The statement loop ends *)

Section Termination.

Variable o : sourceOption.
Variable db : dbWrapper.

Lemma accumulate_not_longer (n : nat) :
  forall (r r' : Reader) (acc l : list string),
    accumulate n r acc = inr (l, r') ->
    String.length (pending r') <= String.length (pending r).
Proof.
  induction n as [|n IH]; intros r r' acc l H.
  - simpl in H. injection H as <- <-. lia.
  - simpl in H. destruct (ReadString r SEMI) as [res r1] eqn:E.
    pose proof (ReadString_not_longer _ _ _ E) as Hle.
    destruct res as [line|line|line e]; [| |discriminate].
    + destruct (HasPrefix (trim line) "INSERT INTO").
      * apply IH in H. lia.
      * injection H as <- <-. lia.
    + injection H as <- <-. lia.
Qed.

Lemma nextStatement_not_longer (ssql q : string) (r r' : Reader) :
  nextStatement o ssql r = inr (q, r') ->
  String.length (pending r') <= String.length (pending r).
Proof.
  unfold nextStatement. intros H.
  destruct ((1 <? opt_mergeInsert o)%Z && HasPrefix ssql "INSERT INTO").
  - destruct (accumulate _ r [ssql]) as [e|[l r1]] eqn:E; [discriminate|].
    destruct (mergeInsert l); [discriminate|].
    injection H as <- <-. now apply accumulate_not_longer in E.
  - injection H as <- <-. lia.
Qed.

(** With more fuel than pending bytes the loop returns. *)
Lemma source_loop_total (f : nat) :
  forall (r : Reader) (trace : list string),
    String.length (pending r) < f ->
    exists res, source_loop f o db r trace = Some res.
Proof.
  induction f as [|f IH]; intros r trace Hlt; [lia|].
  simpl. destruct (ReadString r SEMI) as [res r1] eqn:E.
  destruct res as [line|line|line e]; [|eauto|eauto].
  apply ReadString_ok_shorter in E.
  destruct (nextStatement o (trim line) r1) as [e|[q r2]] eqn:En; [eauto|].
  apply nextStatement_not_longer in En.
  destruct (Exec db q); [eauto|].
  apply IH. lia.
Qed.

(** More fuel does not change what the loop returns. *)
Lemma source_loop_mono (f : nat) :
  forall (f' : nat) (r : Reader) (trace : list string) res,
    source_loop f o db r trace = Some res -> f <= f' ->
    source_loop f' o db r trace = Some res.
Proof.
  induction f as [|f IH]; intros f' r trace res H Hle; [discriminate|].
  destruct f' as [|f']; [lia|].
  simpl in H |- *. destruct (ReadString r SEMI) as [rr r1].
  destruct rr as [line|line|line e]; try exact H.
  destruct (nextStatement o (trim line) r1) as [e|[q r2]]; try exact H.
  destruct (Exec db q); try exact H.
  apply IH; [exact H | lia].
Qed.

End Termination.

(** ** Bytes after the last terminator *)

Section UnterminatedTail.

Variable tail : string.
Hypothesis tail_open : mem_ascii SEMI tail = false.

Variable o : sourceOption.
Variable db : dbWrapper.

(** A read sees the same statement with or without the tail; at the end of
    the input only the discarded remainder differs. *)
Lemma ReadString_extend (r : Reader) :
  match ReadString r SEMI with
  | (ReadOk line, r1) => ReadString (extend tail r) SEMI = (ReadOk line, extend tail r1)
  | (ReadEOF _, r1) => exists l, ReadString (extend tail r) SEMI = (ReadEOF l, r1)
  | (ReadFail _ e, r1) => exists l, ReadString (extend tail r) SEMI = (ReadFail l e, r1)
  end.
Proof.
  unfold ReadString, extend. cbn [pending failure].
  destruct (cut SEMI (pending r)) as [[line rest]|] eqn:E.
  - now rewrite (cut_app_some _ _ tail _ _ E).
  - rewrite (cut_app_none _ _ tail E tail_open).
    destruct (failure r); eauto.
Qed.

Lemma accumulate_extend (n : nat) :
  forall (r : Reader) (acc : list string),
    match accumulate n r acc with
    | inl e => accumulate n (extend tail r) acc = inl e
    | inr (l, r1) =>
        accumulate n (extend tail r) acc = inr (l, extend tail r1)
        \/ accumulate n (extend tail r) acc = inr (l, r1)
    end.
Proof.
  induction n as [|n IH]; intros r acc.
  - left. reflexivity.
  - simpl. pose proof (ReadString_extend r) as H.
    destruct (ReadString r SEMI) as [[line|line|line e] r1] eqn:E.
    + rewrite H. destruct (HasPrefix (trim line) "INSERT INTO").
      * apply IH.
      * now left.
    + destruct H as [l ->]. now right.
    + destruct H as [l ->]. reflexivity.
Qed.

(** The loop dispatches the same statements and ends the same way with or
    without the tail. *)
Lemma source_loop_extend (f : nat) :
  forall (r : Reader) (trace : list string),
    source_loop f o db (extend tail r) trace = source_loop f o db r trace.
Proof.
  induction f as [|f IH]; intros r trace; [reflexivity|].
  simpl. pose proof (ReadString_extend r) as H.
  destruct (ReadString r SEMI) as [[line|line|line e] r1] eqn:E.
  - rewrite H. unfold nextStatement.
    destruct ((1 <? opt_mergeInsert o)%Z && HasPrefix (trim line) "INSERT INTO").
    + pose proof (accumulate_extend (Z.to_nat (opt_mergeInsert o - 1)) r1 [trim line]) as Ha.
      destruct (accumulate _ r1 [trim line]) as [e|[l r2]].
      * now rewrite Ha.
      * destruct Ha as [-> | ->].
        -- destruct (mergeInsert l) as [e|q]; [reflexivity|].
           destruct (Exec db q); [reflexivity | apply IH].
        -- reflexivity.
    + destruct (Exec db (trim line)); [reflexivity | apply IH].
  - destruct H as [l ->]. reflexivity.
  - destruct H as [l ->]. reflexivity.
Qed.

End UnterminatedTail.

(** ** [Source] as a whole *)

Lemma execAll_two (db : dbWrapper) (a b : string) (trace : list string) :
  forall (tr : list string),
    execAll db [a; b] trace = (tr, None) -> tr = trace ++ [a; b].
Proof.
  intros tr. simpl. destruct (Exec db a); [discriminate|].
  destruct (Exec db b); [discriminate|].
  intros H. injection H as <-. now rewrite <- List.app_assoc.
Qed.

(** A restore that returns nil has dispatched [COMMIT] and
    [SET autocommit=1] last. *)
Lemma Source_success_commits (srv : Server) (dsn : string) (reader : Reader)
    (opts : list SourceOption) (trace : list string) :
  Source srv dsn reader opts = (trace, None) ->
  exists dispatched, trace = dispatched ++ ["COMMIT;"; "SET autocommit=1;"].
Proof.
  unfold Source.
  destruct (GetDBNameFromDSN dsn) as [e|dbName]; [discriminate|].
  destruct (open_error srv dsn); [discriminate|].
  destruct (execAll _ _ []) as [tr0 [e|]]; [discriminate|].
  destruct (source_loop _ _ _ reader tr0) as [[tr1 [e|]]|]; try discriminate.
  intros H. exists tr1. now apply execAll_two in H.
Qed.

(** The fuel [Source] gives its loop is enough: the loop returns. *)
Lemma Source_loop_returns (o : sourceOption) (db : dbWrapper) (reader : Reader)
    (trace : list string) :
  exists res, source_loop (S (String.length (pending reader))) o db reader trace = Some res.
Proof. apply source_loop_total. lia. Qed.

Lemma Source_extend (srv : Server) (dsn tail : string) (reader : Reader)
    (opts : list SourceOption) :
  mem_ascii SEMI tail = false ->
  Source srv dsn (extend tail reader) opts = Source srv dsn reader opts.
Proof.
  intros Ht. unfold Source.
  destruct (GetDBNameFromDSN dsn) as [e|dbName]; [reflexivity|].
  destruct (open_error srv dsn); [reflexivity|].
  destruct (execAll _ _ []) as [tr0 [e|]]; [reflexivity|].
  rewrite (source_loop_extend tail Ht).
  destruct (Source_loop_returns (applyOptions opts)
              (newDBWrapper srv (opt_dryRun (applyOptions opts)) (opt_debug (applyOptions opts)))
              reader tr0) as [res Hres].
  rewrite Hres.
  rewrite (source_loop_mono _ _ _ _ _ _ _ Hres); [reflexivity|].
  unfold extend. cbn [pending]. rewrite length_app. lia.
Qed.

(** C9. When the input ends with bytes that hold no terminator, [Source]
    behaves as on the input without them: it dispatches the same statements
    and returns the same result, so the trailing bytes reach the executor in
    no statement. When the terminated part restores without error, [Source]
    ends by dispatching [COMMIT;] and [SET autocommit=1;] and returns nil. *)
Theorem Source_discards_unterminated_tail (srv : Server) (dsn pre tail : string)
    (opts : list SourceOption) :
  tail <> "" ->
  mem_ascii SEMI tail = false ->
  Source srv dsn (mkReader (pre +:+ tail) None) opts
  = Source srv dsn (mkReader pre None) opts
  /\ (snd (Source srv dsn (mkReader pre None) opts) = None ->
      exists dispatched,
        Source srv dsn (mkReader (pre +:+ tail) None) opts
        = (dispatched ++ ["COMMIT;"; "SET autocommit=1;"], None)).
Proof.
  intros _ Ht.
  assert (E : Source srv dsn (mkReader (pre +:+ tail) None) opts
              = Source srv dsn (mkReader pre None) opts)
    by exact (Source_extend srv dsn tail (mkReader pre None) opts Ht).
  split; [exact E|].
  intros Hok. rewrite E.
  destruct (Source srv dsn (mkReader pre None) opts) as [trace res] eqn:Es.
  simpl in Hok. subst res.
  destruct (Source_success_commits _ _ _ _ _ Es) as [dispatched ->].
  now exists dispatched.
Qed.

Lemma Source_discards_unterminated_tail_witness :
  Source acceptAll "root:secret@tcp(127.0.0.1:3306)/shop"
         (mkReader ("DROP TABLE t;" +:+ " INSERT INTO t VALUES (1)") None) []
  = Source acceptAll "root:secret@tcp(127.0.0.1:3306)/shop" (mkReader "DROP TABLE t;" None) []
  /\ exists dispatched,
      Source acceptAll "root:secret@tcp(127.0.0.1:3306)/shop"
             (mkReader ("DROP TABLE t;" +:+ " INSERT INTO t VALUES (1)") None) []
      = (dispatched ++ ["COMMIT;"; "SET autocommit=1;"], None).
Proof.
  destruct (Source_discards_unterminated_tail acceptAll "root:secret@tcp(127.0.0.1:3306)/shop"
              "DROP TABLE t;" " INSERT INTO t VALUES (1)" [])
    as [H1 H2]; [discriminate | reflexivity |].
  split; [exact H1 | apply H2; vm_compute; reflexivity].
Defined.

(** The dispatched statements of that run. *)
Example Source_tail_trace :
  Source acceptAll "root:secret@tcp(127.0.0.1:3306)/shop"
         (mkReader ("DROP TABLE t;" +:+ " INSERT INTO t VALUES (1)") None) []
  = (["USE shop;"; "SET autocommit=0;"; "DROP TABLE t;"; "COMMIT;"; "SET autocommit=1;"], None).
Proof. vm_compute. reflexivity. Qed.

(** ** Trimming *)

Lemma mem_ascii_app (c : ascii) (a b : string) :
  mem_ascii c (a +:+ b) = mem_ascii c a || mem_ascii c b.
Proof.
  induction a as [|x a IH]; [reflexivity|].
  rewrite app_cons. simpl. now rewrite IH, orb_assoc.
Qed.

Lemma prefix_split (p s : string) :
  String.prefix p s = true -> exists r, s = p +:+ r.
Proof.
  revert s. induction p as [|c p IH]; intros s H.
  - now exists s.
  - destruct s as [|d s]; [discriminate|]. simpl in H.
    destruct (ascii_dec c d) as [->|]; [|discriminate].
    destruct (IH s H) as [r ->]. now exists r.
Qed.

Lemma spaceRuneLen_ascii (c : ascii) (s : string) :
  asciiSpace c = true -> spaceRuneLen (String c s) = 1.
Proof.
  destruct c as [[] [] [] [] [] [] [] []]; intros H; try discriminate H;
    destruct s; reflexivity.
Qed.

Lemma spaceRuneLen_head (c : ascii) (s : string) :
  spaceRuneLen (String c s) = 0 -> asciiSpace c = false.
Proof.
  intros H. destruct (asciiSpace c) eqn:E; [|reflexivity].
  rewrite (spaceRuneLen_ascii _ s E) in H. discriminate.
Qed.

(** No white space character holds the terminator. *)
Lemma isSpaceRune_no_semi (x : string) :
  isSpaceRune x = true -> mem_ascii SEMI x = false.
Proof.
  unfold isSpaceRune. intros H. apply existsb_exists in H as (y & Hin & E).
  apply String.eqb_eq in E. subst y.
  assert (F : Forall (fun y => mem_ascii SEMI y = false) spaceRunes)
    by (repeat constructor).
  rewrite Forall_forall in F. now apply F, list_elem_of_In.
Qed.

Lemma trimLeftSpace_from_0 (s : string) :
  spaceRuneLen s = 0 -> trimLeftSpace_from 0 s = s.
Proof.
  intros H. destruct s as [|c s]; [reflexivity|].
  unfold trimLeftSpace_from. now rewrite H.
Qed.

Lemma TrimLeftSpace_ascii (ws s : string) :
  allAsciiSpace ws = true -> spaceRuneLen s = 0 -> TrimLeftSpace (ws +:+ s) = s.
Proof.
  intros Hws Hs. unfold TrimLeftSpace.
  induction ws as [|c ws IH].
  - now apply trimLeftSpace_from_0.
  - simpl in Hws. apply andb_prop in Hws as [Hc Hws].
    rewrite app_cons.
    change (trimLeftSpace_from 0 (String c (ws +:+ s)))
      with (match spaceRuneLen (String c (ws +:+ s)) with
            | O => String c (ws +:+ s)
            | S k => trimLeftSpace_from k (ws +:+ s)
            end).
    rewrite (spaceRuneLen_ascii _ _ Hc). now apply IH.
Qed.

Lemma TrimLeft_LF_ascii (ws s : string) :
  allAsciiSpace ws = true -> spaceRuneLen s = 0 ->
  exists ws', allAsciiSpace ws' = true /\ TrimLeft (ws +:+ s) (str1 LF) = ws' +:+ s.
Proof.
  intros Hws Hs. induction ws as [|c ws IH].
  - exists "". split; [reflexivity|]. rewrite !app_nil_l.
    destruct s as [|c s]; [reflexivity|].
    apply spaceRuneLen_head in Hs.
    change (TrimLeft (String c s) (str1 LF))
      with (if Ascii.eqb c LF || false then TrimLeft s (str1 LF) else String c s).
    destruct (Ascii.eqb_spec c LF) as [->|_]; [discriminate | reflexivity].
  - simpl in Hws. apply andb_prop in Hws as [Hc Hws].
    destruct (IH Hws) as (ws' & Hws' & E).
    rewrite app_cons.
    change (TrimLeft (String c (ws +:+ s)) (str1 LF))
      with (if Ascii.eqb c LF || false then TrimLeft (ws +:+ s) (str1 LF)
            else String c (ws +:+ s)).
    destruct (Ascii.eqb c LF || false).
    + now exists ws'.
    + exists (String c ws). split; [simpl; now rewrite Hc, Hws | reflexivity].
Qed.

(** No white space character ends with the terminator. *)
Lemma isSpaceRune_semi (c : ascii) (x : string) :
  isSpaceRune (String c (x +:+ ";")) = false.
Proof.
  destruct (isSpaceRune (String c (x +:+ ";"))) eqn:E; [|reflexivity].
  apply isSpaceRune_no_semi in E.
  change (String c (x +:+ ";")) with (String c x +:+ ";") in E.
  rewrite mem_ascii_app in E. apply orb_false_iff in E as [_ E]. discriminate.
Qed.

Lemma TrimRightSpace_semi (x : string) : TrimRightSpace (x +:+ ";") = x +:+ ";".
Proof.
  induction x as [|c x IH]; [reflexivity|].
  rewrite app_cons.
  change (TrimRightSpace (String c (x +:+ ";")))
    with (if isSpaceRune (String c (TrimRightSpace (x +:+ ";"))) then ""
          else String c (TrimRightSpace (x +:+ ";"))).
  now rewrite IH, isSpaceRune_semi.
Qed.

(** Leading ASCII white space is all that [trim] removes from a statement
    that ends with the terminator and starts with no white space. *)
Lemma trim_statement (ws x : string) :
  allAsciiSpace ws = true -> spaceRuneLen (x +:+ ";") = 0 ->
  trim (ws +:+ x +:+ ";") = x +:+ ";".
Proof.
  intros Hws Hx. unfold trim, TrimSpace.
  destruct (TrimLeft_LF_ascii ws (x +:+ ";") Hws Hx) as (ws' & Hws' & ->).
  rewrite (TrimLeftSpace_ascii ws' _ Hws' Hx). apply TrimRightSpace_semi.
Qed.

(** ** Merging single-row INSERT statements *)

Lemma prefix_app_l (p s x : string) :
  String.prefix p s = true -> String.prefix p (s +:+ x) = true.
Proof.
  intros H. destruct (prefix_split _ _ H) as [r ->].
  rewrite app_assoc. apply prefix_app.
Qed.

Lemma allAsciiSpace_no_semi (ws : string) :
  allAsciiSpace ws = true -> mem_ascii SEMI ws = false.
Proof.
  induction ws as [|c ws IH]; intros H; [reflexivity|].
  simpl in H. apply andb_prop in H as [Hc Hws].
  change (mem_ascii SEMI (String c ws)) with (Ascii.eqb SEMI c || mem_ascii SEMI ws).
  rewrite (IH Hws), orb_false_r.
  destruct (Ascii.eqb_spec SEMI c) as [<-|_]; [discriminate | reflexivity].
Qed.

Section SingleRowInsert.

Variables head tuple : string.
Hypothesis shape : singleRowInsert head tuple = true.

Lemma singleRowInsert_prefix : HasPrefix head "INSERT INTO" = true.
Proof.
  unfold singleRowInsert in shape.
  now repeat (apply andb_prop in shape as [shape ?]).
Qed.

Lemma singleRowInsert_index :
  Index (insertStatement head tuple) "VALUES" = Z.of_nat (String.length head).
Proof.
  unfold singleRowInsert in shape.
  apply andb_prop in shape as [_ H]. now apply Z.eqb_eq in H.
Qed.

Lemma singleRowInsert_body : mem_ascii SEMI (head +:+ "VALUES" +:+ tuple) = false.
Proof.
  unfold singleRowInsert in shape.
  apply andb_prop in shape as [H _]. apply andb_prop in H as [H Ht].
  apply andb_prop in H as [_ Hh].
  rewrite !mem_ascii_app.
  apply negb_true_iff in Hh, Ht. now rewrite Hh, Ht.
Qed.

Lemma insertStatement_prefix : HasPrefix (insertStatement head tuple) "INSERT INTO" = true.
Proof. unfold insertStatement, HasPrefix. apply prefix_app_l, singleRowInsert_prefix. Qed.

Lemma insertStatement_no_space : spaceRuneLen (insertStatement head tuple) = 0.
Proof.
  pose proof singleRowInsert_prefix as H. unfold HasPrefix in H.
  destruct (prefix_split _ _ H) as [r ->]. reflexivity.
Qed.

Lemma insertStatement_semi :
  insertStatement head tuple = (head +:+ "VALUES" +:+ tuple) +:+ ";".
Proof. unfold insertStatement. now rewrite !app_assoc. Qed.

(** The statement is read whole, white space ahead of it included, and
    trimmed to its text. *)
Lemma read_insertStatement (ws rest : string) (fl : option error) :
  allAsciiSpace ws = true ->
  ReadString (mkReader (ws +:+ insertStatement head tuple +:+ rest) fl) SEMI
  = (ReadOk (ws +:+ insertStatement head tuple), mkReader rest fl)
  /\ trim (ws +:+ insertStatement head tuple) = insertStatement head tuple.
Proof.
  intros Hws. split.
  - unfold ReadString. cbn [pending failure].
    rewrite insertStatement_semi.
    replace (ws +:+ ((head +:+ "VALUES" +:+ tuple) +:+ ";") +:+ rest)
      with ((ws +:+ head +:+ "VALUES" +:+ tuple) +:+ String SEMI rest)
      by (now rewrite !app_assoc).
    rewrite cut_found.
    + now rewrite !app_assoc.
    + rewrite mem_ascii_app, (allAsciiSpace_no_semi _ Hws), singleRowInsert_body.
      reflexivity.
  - rewrite insertStatement_semi. apply trim_statement; [exact Hws|].
    rewrite <- insertStatement_semi. apply insertStatement_no_space.
Qed.

(** What [mergeInsert] keeps of a statement that is merged into a batch:
    its value tuple. *)
Lemma merged_part :
  TrimSuffix (TrimPrefix (sliceFrom (Z.to_nat (Index (insertStatement head tuple) "VALUES"))
                                    (insertStatement head tuple)) "VALUES") ";"
  = tuple.
Proof.
  rewrite singleRowInsert_index, Nat2Z.id. unfold insertStatement.
  now rewrite sliceFrom_app, TrimPrefix_app, TrimSuffix_app.
Qed.

Lemma Index_found : (Index (insertStatement head tuple) "VALUES" =? -1)%Z = false.
Proof. rewrite singleRowInsert_index. apply Z.eqb_neq. lia. Qed.

End SingleRowInsert.

(** A statement alone in its batch is dispatched as it is. *)
Lemma mergeInsert_one (head tuple : string) :
  mergeInsert [insertStatement head tuple] = inr (insertStatement head tuple).
Proof.
  unfold mergeInsert. cbn [mergeInsert_tail].
  rewrite insertStatement_semi at 1. rewrite TrimSuffix_app.
  now rewrite <- insertStatement_semi.
Qed.

(** Two statements become one: the first, a comma, the tuple of the second. *)
Lemma mergeInsert_two (h1 t1 h2 t2 : string) :
  singleRowInsert h2 t2 = true ->
  mergeInsert [insertStatement h1 t1; insertStatement h2 t2]
  = inr (h1 +:+ "VALUES" +:+ t1 +:+ "," +:+ t2 +:+ ";").
Proof.
  intros H2. unfold mergeInsert. cbn [mergeInsert_tail length Nat.sub Nat.ltb Nat.leb].
  rewrite (Index_found _ _ H2), (merged_part _ _ H2).
  rewrite (insertStatement_semi h1 t1), TrimSuffix_app.
  now rewrite !app_assoc.
Qed.

Section MergeSizeTwo.

Variable o : sourceOption.
Hypothesis merge_two : opt_mergeInsert o = 2%Z.

(** An [INSERT] followed by a second one: both are read and dispatched as
    one statement. *)
Lemma nextStatement_pair (h1 t1 h2 t2 ws rest : string) (fl : option error) :
  singleRowInsert h1 t1 = true ->
  singleRowInsert h2 t2 = true ->
  allAsciiSpace ws = true ->
  nextStatement o (insertStatement h1 t1)
                (mkReader (ws +:+ insertStatement h2 t2 +:+ rest) fl)
  = inr (h1 +:+ "VALUES" +:+ t1 +:+ "," +:+ t2 +:+ ";", mkReader rest fl).
Proof.
  intros H1 H2 Hws. unfold nextStatement.
  rewrite merge_two, (insertStatement_prefix _ _ H1).
  change (Z.to_nat (2 - 1)) with 1. cbn [Z.ltb Z.compare Pos.compare Pos.compare_cont andb].
  cbn [accumulate].
  destruct (read_insertStatement h2 t2 H2 ws rest fl Hws) as [-> ->].
  rewrite (insertStatement_prefix _ _ H2). cbn [app].
  now rewrite (mergeInsert_two _ _ _ _ H2).
Qed.

(** An [INSERT] followed by the end of the input is dispatched alone. *)
Lemma nextStatement_last (h t ws : string) :
  singleRowInsert h t = true ->
  allAsciiSpace ws = true ->
  nextStatement o (insertStatement h t) (mkReader ws None)
  = inr (insertStatement h t, mkReader "" None).
Proof.
  intros H Hws. unfold nextStatement.
  rewrite merge_two, (insertStatement_prefix _ _ H).
  change (Z.to_nat (2 - 1)) with 1. cbn [Z.ltb Z.compare Pos.compare Pos.compare_cont andb].
  cbn [accumulate]. unfold ReadString. cbn [pending failure].
  rewrite (cut_none _ _ (allAsciiSpace_no_semi _ Hws)).
  now rewrite mergeInsert_one.
Qed.

End MergeSizeTwo.

(** C3, amended. Five single-row [INSERT] statements, each of which begins
    with [INSERT INTO], holds no [;] but its terminator and no [VALUES]
    before its keyword, and is followed by the same run of white space,
    restored with merge size 2 against a server that accepts every
    statement: between the opening [USE]/[SET autocommit=0] and the closing
    [COMMIT]/[SET autocommit=1], [Source] dispatches exactly three
    statements. The first carries the tuples of statements 1 and 2, the
    second those of statements 3 and 4, the third the tuple of statement 5,
    in the order of the stream. *)
Theorem Source_merges_five_inserts_by_two
    (srv : Server) (dsn dbName sep : string)
    (h1 t1 h2 t2 h3 t3 h4 t4 h5 t5 : string) :
  GetDBNameFromDSN dsn = inr dbName ->
  open_error srv dsn = None ->
  (forall q, exec_error srv q = None) ->
  allAsciiSpace sep = true ->
  singleRowInsert h1 t1 = true ->
  singleRowInsert h2 t2 = true ->
  singleRowInsert h3 t3 = true ->
  singleRowInsert h4 t4 = true ->
  singleRowInsert h5 t5 = true ->
  Source srv dsn
         (mkReader (insertStatement h1 t1 +:+ sep +:+ insertStatement h2 t2 +:+ sep
                    +:+ insertStatement h3 t3 +:+ sep +:+ insertStatement h4 t4 +:+ sep
                    +:+ insertStatement h5 t5 +:+ sep) None)
         [WithMergeInsert 2]
  = (["USE " +:+ dbName +:+ ";"; "SET autocommit=0;";
      h1 +:+ "VALUES" +:+ t1 +:+ "," +:+ t2 +:+ ";";
      h3 +:+ "VALUES" +:+ t3 +:+ "," +:+ t4 +:+ ";";
      h5 +:+ "VALUES" +:+ t5 +:+ ";";
      "COMMIT;"; "SET autocommit=1;"], None).
Proof.
  intros Hdsn Hopen Hexec Hsep H1 H2 H3 H4 H5.
  unfold Source. rewrite Hdsn, Hopen.
  unfold applyOptions, WithMergeInsert.
  cbn [fold_left opt_dryRun opt_mergeInsert opt_debug].
  set (o := mkSourceOption false 2 false).
  set (db := newDBWrapper srv false false).
  assert (Hdb : forall q, Exec db q = None) by (intros q; apply Hexec).
  cbn [execAll]. rewrite !Hdb. cbn [app].
  set (input := mkReader _ None).
  set (tr0 := ["USE " +:+ dbName +:+ ";"; "SET autocommit=0;"]).
  assert (Hloop : source_loop 4 o db input tr0
                  = Some (tr0 ++ [h1 +:+ "VALUES" +:+ t1 +:+ "," +:+ t2 +:+ ";"]
                              ++ [h3 +:+ "VALUES" +:+ t3 +:+ "," +:+ t4 +:+ ";"]
                              ++ [h5 +:+ "VALUES" +:+ t5 +:+ ";"], None)).
  { destruct (read_insertStatement h1 t1 H1 ""
                (sep +:+ insertStatement h2 t2 +:+ sep +:+ insertStatement h3 t3 +:+ sep
                 +:+ insertStatement h4 t4 +:+ sep +:+ insertStatement h5 t5 +:+ sep)
                None eq_refl) as [R1 T1].
    rewrite (source_loop_next _ o db input _ _ _ _ tr0 R1
               ltac:(rewrite T1; apply nextStatement_pair; [reflexivity| | |]; assumption)
               (Hdb _)).
    destruct (read_insertStatement h3 t3 H3 sep
                (sep +:+ insertStatement h4 t4 +:+ sep +:+ insertStatement h5 t5 +:+ sep)
                None Hsep) as [R3 T3].
    rewrite (source_loop_next _ o db _ _ _ _ _ _ R3
               ltac:(rewrite T3; apply nextStatement_pair; [reflexivity| | |]; assumption)
               (Hdb _)).
    destruct (read_insertStatement h5 t5 H5 sep sep None Hsep) as [R5 T5].
    rewrite (source_loop_next _ o db _ _ _ _ _ _ R5
               ltac:(rewrite T5; apply nextStatement_last; [reflexivity| |]; assumption)
               (Hdb _)).
    rewrite (source_loop_eof _ o db (mkReader "" None) (mkReader "" None) "");
      [|reflexivity].
    rewrite (insertStatement_semi h5 t5), !app_assoc, <- !List.app_assoc. reflexivity. }
  rewrite (source_loop_mono o db 4 _ _ _ _ Hloop).
  - reflexivity.
  - subst input. cbn [pending]. unfold insertStatement at 1.
    rewrite !length_app. simpl String.length. lia.
Qed.

Lemma Source_merges_five_inserts_by_two_witness :
  Source acceptAll "root:secret@tcp(127.0.0.1:3306)/shop"
         (mkReader (insertStatement "INSERT INTO `t` (`id`) " " (1)" +:+ str1 LF
                    +:+ insertStatement "INSERT INTO `t` (`id`) " " (2)" +:+ str1 LF
                    +:+ insertStatement "INSERT INTO `t` (`id`) " " (3)" +:+ str1 LF
                    +:+ insertStatement "INSERT INTO `t` (`id`) " " (4)" +:+ str1 LF
                    +:+ insertStatement "INSERT INTO `t` (`id`) " " (5)" +:+ str1 LF) None)
         [WithMergeInsert 2]
  = (["USE " +:+ "shop" +:+ ";"; "SET autocommit=0;";
      "INSERT INTO `t` (`id`) " +:+ "VALUES" +:+ " (1)" +:+ "," +:+ " (2)" +:+ ";";
      "INSERT INTO `t` (`id`) " +:+ "VALUES" +:+ " (3)" +:+ "," +:+ " (4)" +:+ ";";
      "INSERT INTO `t` (`id`) " +:+ "VALUES" +:+ " (5)" +:+ ";";
      "COMMIT;"; "SET autocommit=1;"], None).
Proof.
  apply (Source_merges_five_inserts_by_two acceptAll "root:secret@tcp(127.0.0.1:3306)/shop"
           "shop" (str1 LF));
    solve [ vm_compute; reflexivity | intros q; reflexivity ].
Defined.

(** C3 as stated fails when a value holds a [;]. The five statements
    [writeTableData] writes for the rows ['a'], ['b;c'], ['d'], ['e'] and
    ['f'] of a one-column table are dispatched as four statements: the
    second statement is cut inside its literal, the first merged statement
    ends there, and the rest of the literal is dispatched alone. *)
Lemma Source_cuts_a_merged_insert_inside_a_literal :
  Source acceptAll "root:secret@tcp(127.0.0.1:3306)/shop"
         (mkReader (insertsOf "t" ["a"] ["'a'"; "'b;c'"; "'d'"; "'e'"; "'f'"]) None)
         [WithMergeInsert 2]
  = (["USE shop;"; "SET autocommit=0;";
      "INSERT INTO `t` (`a`) VALUES " +:+ str1 LF +:+ "('a'), " +:+ str1 LF +:+ "('b;";
      "c');";
      "INSERT INTO `t` (`a`) VALUES " +:+ str1 LF +:+ "('d'), " +:+ str1 LF +:+ "('e');";
      "INSERT INTO `t` (`a`) VALUES " +:+ str1 LF +:+ "('f');";
      "COMMIT;"; "SET autocommit=1;"], None)
  /\ ~ executesThree acceptAll "root:secret@tcp(127.0.0.1:3306)/shop"
                     (insertsOf "t" ["a"] ["'a'"; "'b;c'"; "'d'"; "'e'"; "'f'"]).
Proof.
  split; [vm_compute; reflexivity|].
  intros (dbName & s1 & s2 & s3 & H). vm_compute in H. discriminate H.
Qed.

(** ** The ReadStatement step *)

Lemma trimLeftSpace_from_skip (s : string) :
  forall skip, trimLeftSpace_from skip s = TrimLeftSpace (sliceFrom skip s).
Proof.
  induction s as [|c s IH]; intros [|k]; try reflexivity.
  change (trimLeftSpace_from (S k) (String c s)) with (trimLeftSpace_from k s).
  apply IH.
Qed.

Lemma TrimLeftSpace_step (s : string) (k : nat) :
  spaceRuneLen s = S k -> TrimLeftSpace s = TrimLeftSpace (sliceFrom (S k) s).
Proof.
  intros H. destruct s as [|c s]; [discriminate|].
  unfold TrimLeftSpace at 1.
  change (trimLeftSpace_from 0 (String c s))
    with (match spaceRuneLen (String c s) with
          | O => String c s
          | S k => trimLeftSpace_from k s
          end).
  rewrite H. exact (trimLeftSpace_from_skip s k).
Qed.

(** A string that starts with white space splits into its first white space
    character and the rest. *)
Lemma spaceRune_split (s : string) (k : nat) :
  spaceRuneLen s = S k ->
  exists x, s = x +:+ sliceFrom (S k) s /\ isSpaceRune x = true /\ String.length x = S k.
Proof.
  unfold spaceRuneLen. destruct (find _ spaceRunes) as [x|] eqn:F; [|discriminate].
  intros Hl. apply find_some in F as [Hin Hp].
  destruct (prefix_split _ _ Hp) as [r ->].
  exists x. rewrite <- Hl, sliceFrom_app. repeat split.
  unfold isSpaceRune. apply existsb_exists. exists x.
  split; [exact Hin | apply String.eqb_refl].
Qed.

Lemma Spaces_app (a b : string) : Spaces a -> Spaces b -> Spaces (a +:+ b).
Proof.
  induction 1 as [|x rest Hx _ IH]; intros Hb; [exact Hb|].
  rewrite app_assoc. apply Spaces_cons; [exact Hx | now apply IH].
Qed.

Lemma Spaces_no_semi (l : string) : Spaces l -> mem_ascii SEMI l = false.
Proof.
  induction 1 as [|x rest Hx _ IH]; [reflexivity|].
  now rewrite mem_ascii_app, (isSpaceRune_no_semi _ Hx), IH.
Qed.

(** [TrimLeftSpace] removes a run of white space and leaves a string that
    starts with none. *)
Lemma TrimLeftSpace_spec (n : nat) :
  forall s, String.length s <= n ->
    exists l, s = l +:+ TrimLeftSpace s /\ Spaces l /\ spaceRuneLen (TrimLeftSpace s) = 0.
Proof.
  induction n as [|n IH]; intros s Hn.
  - destruct s; [|simpl in Hn; lia]. exists "". repeat split. constructor.
  - destruct (spaceRuneLen s) as [|k] eqn:E.
    + exists "". unfold TrimLeftSpace. rewrite (trimLeftSpace_from_0 _ E).
      repeat split; [constructor | exact E].
    + destruct (spaceRune_split _ _ E) as (x & Hs & Hx & Hl).
      rewrite (TrimLeftSpace_step _ _ E).
      destruct (IH (sliceFrom (S k) s)) as (l & Hl' & Hsp & H0).
      { apply (f_equal String.length) in Hs. rewrite length_app in Hs. lia. }
      exists (x +:+ l). repeat split.
      * rewrite app_assoc, <- Hl'. exact Hs.
      * now apply Spaces_cons.
      * exact H0.
Qed.

(** [TrimLeft(s, "\n")] removes a run of line feeds. *)
Lemma TrimLeft_LF_spec (s : string) :
  exists l, s = l +:+ TrimLeft s (str1 LF) /\ Spaces l.
Proof.
  induction s as [|c s (l & Hs & Hl)].
  - exists "". split; [reflexivity | constructor].
  - change (TrimLeft (String c s) (str1 LF))
      with (if Ascii.eqb c LF || false then TrimLeft s (str1 LF) else String c s).
    destruct (Ascii.eqb_spec c LF) as [->|_].
    + exists (str1 LF +:+ l). split.
      * cbn [orb]. rewrite app_assoc, <- Hs. reflexivity.
      * apply Spaces_cons; [reflexivity | exact Hl].
    + exists "". split; [reflexivity | constructor].
Qed.

(** What is left of a line that ends with the terminator, after bytes
    without terminator are taken from its front, ends with the terminator. *)
Lemma semi_suffix (l : string) :
  forall (T x : string),
    l +:+ T = x +:+ ";" -> mem_ascii SEMI l = false ->
    exists y, x = l +:+ y /\ T = y +:+ ";".
Proof.
  induction l as [|c l IH]; intros T x H Hl.
  - exists x. split; [reflexivity | exact H].
  - change (mem_ascii SEMI (String c l)) with (Ascii.eqb SEMI c || mem_ascii SEMI l) in Hl.
    apply orb_false_iff in Hl as [Hc Hl].
    destruct x as [|d x].
    + rewrite app_cons, app_nil_l in H. injection H as -> _.
      rewrite Ascii.eqb_refl in Hc. discriminate.
    + rewrite !app_cons in H. injection H as -> H.
      destruct (IH _ _ H Hl) as (y & -> & ->). now exists y.
Qed.

(** On a line that ends with the terminator, [trim] removes the leading
    white space and nothing else. *)
Lemma trim_line (body : string) :
  exists ws text,
    body = ws +:+ text /\ Spaces ws /\ spaceRuneLen (text +:+ ";") = 0
    /\ trim (body +:+ ";") = text +:+ ";".
Proof.
  unfold trim, TrimSpace.
  destruct (TrimLeft_LF_spec (body +:+ ";")) as (l1 & H1 & S1).
  destruct (semi_suffix _ _ _ (eq_sym H1) (Spaces_no_semi _ S1)) as (y1 & -> & E1).
  rewrite E1.
  destruct (TrimLeftSpace_spec _ (y1 +:+ ";") (Nat.le_refl _)) as (l2 & H2 & S2 & Z2).
  destruct (semi_suffix _ _ _ (eq_sym H2) (Spaces_no_semi _ S2)) as (y2 & -> & E2).
  rewrite E2 in *. exists (l1 +:+ l2), y2.
  repeat split.
  - now rewrite app_assoc.
  - now apply Spaces_app.
  - exact Z2.
  - apply TrimRightSpace_semi.
Qed.

(** The loop of [Source] starts every pass with the ReadStatement step. *)
Lemma source_loop_reads (f : nat) (o : sourceOption) (db : dbWrapper) (r r1 : Reader)
    (ssql : string) (trace : list string) :
  readStatement r = Some (ssql, r1) ->
  source_loop (S f) o db r trace
  = match nextStatement o ssql r1 with
    | inl e => Some (trace, Some e)
    | inr (q, r2) =>
        match Exec db q with
        | Some e => Some (trace ++ [q], Some e)
        | None => source_loop f o db r2 (trace ++ [q])
        end
    end.
Proof.
  unfold readStatement. intros H. simpl.
  destruct (ReadString r SEMI) as [[line|line|line e] r']; try discriminate.
  now injection H as <- <-.
Qed.

(** C7 as stated fails: a terminator inside a quoted literal ends the
    statement that [Source] reads. *)
Lemma readStatement_stops_inside_a_literal :
  ~ stopsAtUnescaped "INSERT INTO t VALUES ('a;b');COMMIT;".
Proof. unfold stopsAtUnescaped. vm_compute. discriminate. Qed.

(** C7, amended. The ReadStatement step reads the bytes up to and including
    the next [;] byte, whatever quotes or backslashes stand before it, and
    leaves the bytes after it in the reader; the statement handed on is the
    line without its leading white space (line feeds included), and it ends
    with the terminator. *)
Theorem readStatement_first_terminator (body rest : string) (fl : option error) :
  mem_ascii SEMI body = false ->
  readStatement (mkReader (body +:+ String SEMI rest) fl)
  = Some (trim (body +:+ ";"), mkReader rest fl)
  /\ exists ws text,
       body = ws +:+ text /\ Spaces ws /\ spaceRuneLen (text +:+ ";") = 0
       /\ trim (body +:+ ";") = text +:+ ";".
Proof.
  intros Hb. split; [|apply trim_line].
  unfold readStatement, ReadString. cbn [pending failure].
  now rewrite (cut_found SEMI body rest Hb).
Qed.

Lemma readStatement_first_terminator_witness :
  readStatement (mkReader ((" " +:+ str1 LF +:+ "INSERT INTO t VALUES ('a")
                           +:+ String SEMI "b');COMMIT;") None)
  = Some (trim ((" " +:+ str1 LF +:+ "INSERT INTO t VALUES ('a") +:+ ";"),
          mkReader "b');COMMIT;" None)
  /\ exists ws text,
       " " +:+ str1 LF +:+ "INSERT INTO t VALUES ('a" = ws +:+ text /\ Spaces ws
       /\ spaceRuneLen (text +:+ ";") = 0
       /\ trim ((" " +:+ str1 LF +:+ "INSERT INTO t VALUES ('a") +:+ ";") = text +:+ ";".
Proof.
  apply (readStatement_first_terminator (" " +:+ str1 LF +:+ "INSERT INTO t VALUES ('a")
           "b');COMMIT;" None).
  reflexivity.
Defined.

(** ** The row batch emitter *)

Lemma concat_cons (sep x : string) (xs : list string) :
  String.concat sep (x :: xs) = x +:+ concatAll (map (String.append sep) xs).
Proof.
  revert x. induction xs as [|y xs IH]; intros x.
  - simpl. now rewrite app_nil_r.
  - change (String.concat sep (x :: y :: xs)) with (x +:+ sep +:+ String.concat sep (y :: xs)).
    rewrite IH. cbn [map concatAll fold_right]. now rewrite !app_assoc.
Qed.

Lemma chunks_fuel_enough {A : Type} (n : nat) (f : nat) :
  forall (g : nat) (l : list A), 0 < n -> length l <= f -> length l <= g ->
    chunks_fuel f n l = chunks_fuel g n l.
Proof.
  induction f as [|f IH]; intros g l Hn Hf Hg.
  - destruct l; [now destruct g | cbn [length] in Hf; lia].
  - destruct l as [|a l]; [now destruct g|].
    cbn [length] in Hf, Hg. destruct g as [|g]; [lia|].
    cbn [chunks_fuel]. f_equal.
    assert (Hd : length (drop n (a :: l)) <= length l).
    { rewrite length_drop. cbn [length]. lia. }
    apply IH; [exact Hn | lia | lia].
Qed.

Lemma chunks_cons {A : Type} (n : nat) (l : list A) :
  0 < n -> l <> [] -> chunks n l = take n l :: chunks n (drop n l).
Proof.
  intros Hn Hl. unfold chunks. destruct l as [|a l]; [contradiction|].
  cbn [length chunks_fuel]. f_equal.
  apply chunks_fuel_enough; [exact Hn | | lia]. rewrite length_drop. cbn [length]. lia.
Qed.

Section Batches.

Variable fmtOther : ascii -> value -> string.
Variable rev : Revision.
Variable table : string.
Variables columns columnTypes : list string.
Variable N : Z.
Hypothesis batch : (2 <= N)%Z.

Let paren (t : string) : string := "(" +:+ t +:+ ")".

(** Rows that are all formatted: the loop writes an opening and a tuple for
    each. *)
Lemma writeRows_formatted (rows : list (list value)) (tuples : list string) :
  Forall2 (fun row t => buildRowData fmtOther rev row columnTypes = Returned (t, None))
          rows tuples ->
  forall (rowId : Z) (buf : string),
    writeRows fmtOther rev table columns columnTypes N rowId (map ScanRow rows) buf
    = Returned (buf +:+ emitted table columns N rowId tuples, None).
Proof.
  induction 1 as [|row t rows tuples Hrow _ IH]; intros rowId buf.
  - simpl. now rewrite app_nil_r.
  - cbn [map]. rewrite (writeRows_row _ _ _ _ _ _ _ _ _ _ _ Hrow), IH.
    cbn [emitted]. now rewrite !app_assoc.
Qed.

Lemma emitted_app (a b : list string) :
  forall rowId,
    emitted table columns N rowId (a ++ b)
    = emitted table columns N rowId a
      +:+ emitted table columns N (rowId + Z.of_nat (length a)) b.
Proof.
  induction a as [|t a IH]; intros rowId.
  - simpl. now rewrite Z.add_0_r.
  - cbn [app emitted length].
    replace (rowId + Z.of_nat (S (length a)))%Z with (rowId + 1 + Z.of_nat (length a))%Z
      by lia.
    now rewrite IH, !app_assoc.
Qed.

Lemma startsBatch_first (k : Z) : startsBatch N (k * N) = true.
Proof.
  unfold startsBatch. rewrite Z.rem_mul by lia. now rewrite orb_true_r.
Qed.

Lemma startsBatch_inside (k j : Z) :
  (0 <= k)%Z -> (0 < j < N)%Z -> startsBatch N (k * N + j) = false.
Proof.
  intros Hk Hj. unfold startsBatch.
  rewrite Z.rem_mod_nonneg by nia.
  rewrite Z.add_comm, Z.mod_add by lia. rewrite Z.mod_small by lia.
  repeat (apply orb_false_iff; split).
  - apply Z.eqb_neq. nia.
  - apply Z.ltb_ge. lia.
  - apply Z.eqb_neq. lia.
Qed.

(** Inside a batch every row is a comma, a line break and its tuple. *)
Lemma emitted_inside (k : Z) (b : list string) :
  (0 <= k)%Z ->
  forall j, (0 < j)%Z -> (j + Z.of_nat (length b) <= N)%Z ->
    emitted table columns N (k * N + j) b
    = concatAll (map (String.append ("," +:+ str1 LF)) (map paren b)).
Proof.
  intros Hk. induction b as [|t b IH]; intros j Hj Hlen; [reflexivity|].
  cbn [length] in Hlen. cbn [emitted map concatAll fold_right].
  unfold rowOpening. rewrite startsBatch_inside by lia.
  rewrite <- Z.add_assoc, IH by lia.
  unfold paren. now rewrite !app_assoc.
Qed.

(** A whole batch, but for its terminator: the prefix and the tuples, after
    the terminator of the batch before it, if any. *)
Lemma emitted_batch (k : Z) (b : list string) :
  (0 <= k)%Z -> b <> [] -> (Z.of_nat (length b) <= N)%Z ->
  emitted table columns N (k * N) b
  = (if (0 <? k)%Z then ";" +:+ str1 LF else "")
    +:+ insertPrefix table columns
    +:+ String.concat ("," +:+ str1 LF) (map paren b).
Proof.
  intros Hk Hb Hlen. destruct b as [|t b]; [contradiction|].
  cbn [length] in Hlen. cbn [emitted map].
  unfold rowOpening. rewrite startsBatch_first.
  rewrite concat_cons.
  replace (k * N + 1)%Z with (k * N + 1)%Z by reflexivity.
  rewrite emitted_inside by lia.
  replace (0 <? k * N)%Z with (0 <? k)%Z.
  - unfold paren. now rewrite !app_assoc.
  - destruct (Z.ltb_spec 0 k); destruct (Z.ltb_spec 0 (k * N)); try reflexivity; nia.
Qed.

(** The rows from a batch boundary on, with the final terminator: the
    batches of [N] tuples one after the other. *)
Lemma emitted_chunks (n : nat) :
  forall (tuples : list string) (k : Z),
    length tuples <= n -> tuples <> [] -> (0 <= k)%Z ->
    emitted table columns N (k * N) tuples +:+ ";" +:+ str1 LF
    = (if (0 <? k)%Z then ";" +:+ str1 LF else "")
      +:+ concatAll (map (renderBatch table columns) (chunks (Z.to_nat N) tuples)).
Proof.
  induction n as [|n IH]; intros tuples k Hn Hne Hk.
  - destruct tuples; [contradiction | simpl in Hn; lia].
  - rewrite (chunks_cons (Z.to_nat N) tuples) by (try lia; assumption).
    cbn [map concatAll fold_right].
    rewrite <- (take_drop (Z.to_nat N) tuples) at 1.
    rewrite emitted_app.
    assert (Htake : take (Z.to_nat N) tuples <> []).
    { destruct tuples; [contradiction|].
      destruct (Z.to_nat N) eqn:E; [lia | discriminate]. }
    rewrite emitted_batch; [| exact Hk | exact Htake | rewrite length_take; lia].
    destruct (drop (Z.to_nat N) tuples) as [|t rest] eqn:Ed.
    + cbn [emitted chunks chunks_fuel length map concatAll fold_right].
      unfold renderBatch. fold paren.
      now rewrite !app_assoc, !app_nil_r, ?app_nil_l.
    + assert (Hlen : length (take (Z.to_nat N) tuples) = Z.to_nat N).
      { rewrite length_take. apply Nat.min_l.
        assert (length (drop (Z.to_nat N) tuples) > 0) by (rewrite Ed; simpl; lia).
        rewrite length_drop in H. lia. }
      rewrite Hlen, Z2Nat.id by lia.
      replace (k * N + N)%Z with ((k + 1) * N)%Z by lia.
      assert (Hrest : length (t :: rest) <= n).
      { rewrite <- Ed, length_drop. destruct tuples; [contradiction|].
        cbn [length] in Hn |- *. lia. }
      pose proof (IH (t :: rest) (k + 1)%Z Hrest ltac:(discriminate) ltac:(lia)) as Hi.
      replace (0 <? k + 1)%Z with true in Hi by (symmetry; apply Z.ltb_lt; lia).
      unfold renderBatch at 1. fold paren.
      rewrite !app_assoc. rewrite !app_assoc in Hi.
      do 3 f_equal. exact Hi.
Qed.

(** C4. With a batch size [N >= 2] and at least one row, all rows being
    formatted, the data section is the prologue, then one [INSERT] statement
    per batch of [N] consecutive rows (the last batch holding the rows that
    are left), then the footer. Each statement is the text
    [INSERT INTO `<table>` (`<columns>`) VALUES], a line break, the first
    tuple in parentheses, then a comma, a line break and the tuple of every
    further row of the batch, and the terminator with a line break. A table
    of three rows with batch size 2 gives one statement of two tuples and
    one of a single tuple. *)
Theorem writeTableData_batches (rows : list (list value)) (tuples : list string) :
  rows <> [] ->
  Forall2 (fun row t => buildRowData fmtOther rev row columnTypes = Returned (t, None))
          rows tuples ->
  writeTableData fmtOther rev (inr (mkRows (inr columns) (inr columnTypes) (map ScanRow rows)))
                 table N
  = Returned
      (dataPrologue rev table
       +:+ concatAll
             (map (fun batch =>
                     "INSERT INTO `" +:+ table +:+ "` (`" +:+ String.concat "`,`" columns
                     +:+ "`) VALUES " +:+ str1 LF
                     +:+ String.concat ("," +:+ str1 LF)
                           (map (fun t => "(" +:+ t +:+ ")") batch)
                     +:+ ";" +:+ str1 LF)
                  (chunks (Z.to_nat N) tuples))
       +:+ dataFooter table, None)
  /\ (forall t1 t2 t3, tuples = [t1; t2; t3] -> N = 2%Z ->
      writeTableData fmtOther rev
        (inr (mkRows (inr columns) (inr columnTypes) (map ScanRow rows))) table N
      = Returned
          (dataPrologue rev table
           +:+ "INSERT INTO `" +:+ table +:+ "` (`" +:+ String.concat "`,`" columns
           +:+ "`) VALUES " +:+ str1 LF
           +:+ "(" +:+ t1 +:+ ")," +:+ str1 LF +:+ "(" +:+ t2 +:+ ");" +:+ str1 LF
           +:+ "INSERT INTO `" +:+ table +:+ "` (`" +:+ String.concat "`,`" columns
           +:+ "`) VALUES " +:+ str1 LF
           +:+ "(" +:+ t3 +:+ ");" +:+ str1 LF
           +:+ dataFooter table, None)).
Proof.
  intros Hrows Hfmt.
  assert (Hne : tuples <> []).
  { destruct Hfmt; [contradiction | discriminate]. }
  assert (Hmain : writeTableData fmtOther rev
                    (inr (mkRows (inr columns) (inr columnTypes) (map ScanRow rows))) table N
                  = Returned
                      (dataPrologue rev table
                       +:+ concatAll (map (renderBatch table columns)
                                          (chunks (Z.to_nat N) tuples))
                       +:+ dataFooter table, None)).
  { rewrite writeTableData_frame.
    rewrite (writeRows_formatted _ _ Hfmt). unfold dataEpilogue.
    pose proof (emitted_chunks (length tuples) tuples 0 (Nat.le_refl _) Hne (Z.le_refl 0))
      as He.
    cbn [Z.mul Z.ltb Z.compare] in He. rewrite app_nil_l in He.
    rewrite <- He. now rewrite !app_assoc. }
  split.
  - rewrite Hmain.
    erewrite (map_ext (renderBatch table columns)); [reflexivity|].
    intros b. cbv beta. unfold renderBatch, insertPrefix. now rewrite !app_assoc.
  - intros t1 t2 t3 -> ->. rewrite Hmain.
    change (chunks (Z.to_nat 2) [t1; t2; t3]) with [[t1; t2]; [t3]].
    cbn [map concatAll fold_right]. unfold renderBatch, insertPrefix.
    cbn [map String.concat]. now rewrite !app_assoc, ?app_nil_l, ?app_nil_r.
Qed.

End Batches.

Lemma writeTableData_batches_witness :
  writeTableData (fun _ _ => "") Inline
    (inr (mkRows (inr ["id"; "name"]) (inr ["INT"; "VARCHAR"])
                 (map ScanRow [[Int64 1; Bytes "a"]; [Int64 2; Nil]; [Int64 3; Bytes "c"]])))
    "t" 2
  = Returned
      ("-- ----------------------------" +:+ str1 LF
       +:+ "-- Records of t" +:+ str1 LF
       +:+ "-- ----------------------------" +:+ str1 LF
       +:+ "LOCK TABLES `t` WRITE;" +:+ str1 LF
       +:+ "/*!40000 ALTER TABLE `t` DISABLE KEYS */;" +:+ str1 LF
       +:+ "INSERT INTO `t` (`id`,`name`) VALUES " +:+ str1 LF
       +:+ "(1,'a')," +:+ str1 LF +:+ "(2,NULL);" +:+ str1 LF
       +:+ "INSERT INTO `t` (`id`,`name`) VALUES " +:+ str1 LF
       +:+ "(3,'c');" +:+ str1 LF
       +:+ "/*!40000 ALTER TABLE `t` ENABLE KEYS */;" +:+ str1 LF
       +:+ "UNLOCK TABLES;" +:+ str1 LF +:+ str1 LF, None)
  /\ (forall t1 t2 t3, ["1,'a'"; "2,NULL"; "3,'c'"] = [t1; t2; t3] -> 2%Z = 2%Z ->
      writeTableData (fun _ _ => "") Inline
        (inr (mkRows (inr ["id"; "name"]) (inr ["INT"; "VARCHAR"])
                     (map ScanRow [[Int64 1; Bytes "a"]; [Int64 2; Nil]; [Int64 3; Bytes "c"]])))
        "t" 2
      = Returned
          (dataPrologue Inline "t"
           +:+ "INSERT INTO `" +:+ "t" +:+ "` (`" +:+ String.concat "`,`" ["id"; "name"]
           +:+ "`) VALUES " +:+ str1 LF
           +:+ "(" +:+ t1 +:+ ")," +:+ str1 LF +:+ "(" +:+ t2 +:+ ");" +:+ str1 LF
           +:+ "INSERT INTO `" +:+ "t" +:+ "` (`" +:+ String.concat "`,`" ["id"; "name"]
           +:+ "`) VALUES " +:+ str1 LF
           +:+ "(" +:+ t3 +:+ ");" +:+ str1 LF
           +:+ dataFooter "t", None)).
Proof.
  apply (writeTableData_batches (fun _ _ => "") Inline "t" ["id"; "name"] ["INT"; "VARCHAR"]
           2 ltac:(lia) [[Int64 1; Bytes "a"]; [Int64 2; Nil]; [Int64 3; Bytes "c"]]
           ["1,'a'"; "2,NULL"; "3,'c'"]).
  - discriminate.
  - repeat constructor.
Defined.

(** The text of that data section. *)
Example writeTableData_three_rows_by_two :
  writeTableData (fun _ _ => "") Inline
    (inr (mkRows (inr ["id"; "name"]) (inr ["INT"; "VARCHAR"])
                 (map ScanRow [[Int64 1; Bytes "a"]; [Int64 2; Nil]; [Int64 3; Bytes "c"]])))
    "t" 2
  = Returned
      (dataPrologue Inline "t"
       +:+ "INSERT INTO `t` (`id`,`name`) VALUES " +:+ str1 LF
       +:+ "(1,'a')," +:+ str1 LF +:+ "(2,NULL);" +:+ str1 LF
       +:+ "INSERT INTO `t` (`id`,`name`) VALUES " +:+ str1 LF
       +:+ "(3,'c');" +:+ str1 LF
       +:+ dataFooter "t", None).
Proof. vm_compute. reflexivity. Qed.

(** ** Rows that leave the formatter without an error *)

Section TruncatedRows.

Variable fmtOther : ascii -> value -> string.
Variable rev : Revision.
Variable table : string.
Variables columns columnTypes : list string.
Variable N : Z.

(** Rows for which [buildRowData] returns a text and a nil error are all
    written, each with the opening its number asks for, and the section is
    closed: the empty text of a row that left the loop early is written as
    the tuple [()]. *)
Lemma writeTableData_emitted (rows : list (list value)) (tuples : list string) :
  Forall2 (fun row t => buildRowData fmtOther rev row columnTypes = Returned (t, None))
          rows tuples ->
  writeTableData fmtOther rev (inr (mkRows (inr columns) (inr columnTypes) (map ScanRow rows)))
                 table N
  = Returned
      (dataPrologue rev table +:+ emitted table columns N 0 tuples
       +:+ ";" +:+ str1 LF +:+ dataFooter table, None).
Proof.
  intros Hfmt. rewrite writeTableData_frame.
  rewrite (writeRows_formatted _ _ _ _ _ _ _ _ Hfmt). unfold dataEpilogue.
  now rewrite !app_assoc.
Qed.

Lemma emitted_one_empty :
  emitted table columns N 0 [""] = insertPrefix table columns +:+ "()".
Proof.
  cbn [emitted]. unfold rowOpening, startsBatch. cbn [Z.eqb orb Z.ltb Z.compare].
  now rewrite !app_nil_l, ?app_nil_r.
Qed.

(** C8, amended. When the first column that leaves the loop of
    [buildRowData] is a non-NULL DATE, DATETIME, TIMESTAMP, TIME or YEAR
    column whose value has not the dynamic type its case asserts (every
    column before it is appended), [buildRowData] returns the empty string
    and a nil error. [writeTableData] then writes the empty tuple [()] for
    the row, in the place of the row and with the opening of its number,
    writes the rows before and after it as usual, and returns a nil error:
    a table that holds just this row is dumped as one [INSERT] statement
    with the tuple [()]. *)
Theorem buildRowData_temporal_mismatch
    (before after : list value) (col : value) (Type_ : string)
    (rowsBefore rowsAfter : list (list value)) (tuplesBefore tuplesAfter : list string) :
  formatted fmtOther rev columnTypes 0 before = true ->
  col <> Nil ->
  nth_error columnTypes (length before) = Some Type_ ->
  temporalMismatch Type_ col = true ->
  Forall2 (fun row t => buildRowData fmtOther rev row columnTypes = Returned (t, None))
          rowsBefore tuplesBefore ->
  Forall2 (fun row t => buildRowData fmtOther rev row columnTypes = Returned (t, None))
          rowsAfter tuplesAfter ->
  buildRowData fmtOther rev (before ++ col :: after) columnTypes = Returned ("", None)
  /\ writeTableData fmtOther rev
       (inr (mkRows (inr columns) (inr columnTypes)
                    (map ScanRow (rowsBefore ++ (before ++ col :: after) :: rowsAfter))))
       table N
     = Returned
         (dataPrologue rev table
          +:+ emitted table columns N 0 (tuplesBefore ++ "" :: tuplesAfter)
          +:+ ";" +:+ str1 LF +:+ dataFooter table, None)
  /\ writeTableData fmtOther rev
       (inr (mkRows (inr columns) (inr columnTypes) [ScanRow (before ++ col :: after)]))
       table N
     = Returned
         (dataPrologue rev table
          +:+ "INSERT INTO `" +:+ table +:+ "` (`" +:+ String.concat "`,`" columns
          +:+ "`) VALUES " +:+ str1 LF +:+ "()"
          +:+ ";" +:+ str1 LF +:+ dataFooter table, None).
Proof.
  intros Hf Hnil Hty Hm Hb Ha.
  assert (Hrow : buildRowData fmtOther rev (before ++ col :: after) columnTypes
                 = Returned ("", None)).
  { apply buildRowData_returns; [exact Hf|].
    now apply columnStep_temporal with (Type_ := Type_). }
  split; [exact Hrow|]. split.
  - apply writeTableData_emitted. apply Forall2_app; [exact Hb|].
    constructor; [exact Hrow | exact Ha].
  - change [ScanRow (before ++ col :: after)] with (map ScanRow [before ++ col :: after]).
    rewrite (writeTableData_emitted [before ++ col :: after] [""])
      by (constructor; [exact Hrow | constructor]).
    rewrite emitted_one_empty. unfold insertPrefix. now rewrite !app_assoc.
Qed.

(** C5. The unsupported-type error is not reported when a temporal column
    ahead of the unsupported one, in the same row, holds a value that has
    not the dynamic type its case asserts, as a DATE column delivered as
    bytes: [buildRowData] returns at that column with the empty string and
    a nil error and never reaches the column of unsupported type. The row
    is written as the tuple [()], the rows before and after it are written,
    and [writeTableData] returns a nil error. *)
Theorem unsupported_type_goes_unreported
    (before mid after : list value) (d g : value) (Td Tg : string)
    (rowsBefore rowsAfter : list (list value)) (tuplesBefore tuplesAfter : list string) :
  formatted fmtOther rev columnTypes 0 before = true ->
  d <> Nil ->
  nth_error columnTypes (length before) = Some Td ->
  temporalMismatch Td d = true ->
  g <> Nil ->
  nth_error columnTypes (length before + 1 + length mid) = Some Tg ->
  oneOf (normalizeType Tg) supportedTypes = false ->
  Forall2 (fun row t => buildRowData fmtOther rev row columnTypes = Returned (t, None))
          rowsBefore tuplesBefore ->
  Forall2 (fun row t => buildRowData fmtOther rev row columnTypes = Returned (t, None))
          rowsAfter tuplesAfter ->
  nth_error (before ++ d :: mid ++ g :: after) (length before + 1 + length mid) = Some g
  /\ buildRowData fmtOther rev (before ++ d :: mid ++ g :: after) columnTypes
     = Returned ("", None)
  /\ writeTableData fmtOther rev
       (inr (mkRows (inr columns) (inr columnTypes)
                    (map ScanRow (rowsBefore ++ (before ++ d :: mid ++ g :: after)
                                             :: rowsAfter))))
       table N
     = Returned
         (dataPrologue rev table
          +:+ emitted table columns N 0 (tuplesBefore ++ "" :: tuplesAfter)
          +:+ ";" +:+ str1 LF +:+ dataFooter table, None).
Proof.
  intros Hf Hnil Hty Hm _ _ _ Hb Ha.
  assert (Hrow : buildRowData fmtOther rev (before ++ d :: mid ++ g :: after) columnTypes
                 = Returned ("", None)).
  { apply buildRowData_returns; [exact Hf|].
    now apply columnStep_temporal with (Type_ := Td). }
  split; [| split; [exact Hrow|]].
  - rewrite nth_error_app2 by lia.
    replace (length before + 1 + length mid - length before) with (S (length mid)) by lia.
    cbn [nth_error]. rewrite nth_error_app2 by lia.
    now rewrite Nat.sub_diag.
  - apply writeTableData_emitted. apply Forall2_app; [exact Hb|].
    constructor; [exact Hrow | exact Ha].
Qed.

End TruncatedRows.

Lemma buildRowData_temporal_mismatch_witness :
  buildRowData (fun _ _ => "") Inline ([Int64 7] ++ Bytes "2024-02-29" :: [Bytes "x"])
               ["INT"; "DATE"; "VARCHAR"] = Returned ("", None)
  /\ writeTableData (fun _ _ => "") Inline
       (inr (mkRows (inr ["id"; "d"; "s"]) (inr ["INT"; "DATE"; "VARCHAR"])
                    (map ScanRow ([[Int64 6; Nil; Bytes "w"]]
                                  ++ ([Int64 7] ++ Bytes "2024-02-29" :: [Bytes "x"])
                                  :: [[Int64 8; Nil; Nil]]))))
       "t" 2
     = Returned
         ("-- ----------------------------" +:+ str1 LF
          +:+ "-- Records of t" +:+ str1 LF
          +:+ "-- ----------------------------" +:+ str1 LF
          +:+ "LOCK TABLES `t` WRITE;" +:+ str1 LF
          +:+ "/*!40000 ALTER TABLE `t` DISABLE KEYS */;" +:+ str1 LF
          +:+ "INSERT INTO `t` (`id`,`d`,`s`) VALUES " +:+ str1 LF
          +:+ "(6,NULL,'w')," +:+ str1 LF +:+ "();" +:+ str1 LF
          +:+ "INSERT INTO `t` (`id`,`d`,`s`) VALUES " +:+ str1 LF
          +:+ "(8,NULL,NULL);" +:+ str1 LF
          +:+ "/*!40000 ALTER TABLE `t` ENABLE KEYS */;" +:+ str1 LF
          +:+ "UNLOCK TABLES;" +:+ str1 LF +:+ str1 LF, None)
  /\ writeTableData (fun _ _ => "") Inline
       (inr (mkRows (inr ["id"; "d"; "s"]) (inr ["INT"; "DATE"; "VARCHAR"])
                    [ScanRow ([Int64 7] ++ Bytes "2024-02-29" :: [Bytes "x"])]))
       "t" 2
     = Returned
         ("-- ----------------------------" +:+ str1 LF
          +:+ "-- Records of t" +:+ str1 LF
          +:+ "-- ----------------------------" +:+ str1 LF
          +:+ "LOCK TABLES `t` WRITE;" +:+ str1 LF
          +:+ "/*!40000 ALTER TABLE `t` DISABLE KEYS */;" +:+ str1 LF
          +:+ "INSERT INTO `t` (`id`,`d`,`s`) VALUES " +:+ str1 LF
          +:+ "();" +:+ str1 LF
          +:+ "/*!40000 ALTER TABLE `t` ENABLE KEYS */;" +:+ str1 LF
          +:+ "UNLOCK TABLES;" +:+ str1 LF +:+ str1 LF, None).
Proof.
  apply (buildRowData_temporal_mismatch (fun _ _ => "") Inline "t" ["id"; "d"; "s"]
           ["INT"; "DATE"; "VARCHAR"] 2 [Int64 7] [Bytes "x"] (Bytes "2024-02-29") "DATE"
           [[Int64 6; Nil; Bytes "w"]] [[Int64 8; Nil; Nil]]
           ["6,NULL,'w'"] ["8,NULL,NULL"]).
  - reflexivity.
  - discriminate.
  - reflexivity.
  - reflexivity.
  - repeat constructor.
  - repeat constructor.
Defined.

(** C8 as stated fails for a row whose temporal column stands behind a
    column of unsupported type: the error of that column is returned. *)
Lemma temporal_mismatch_behind_an_unsupported_type :
  holdsTemporalMismatch [Bytes "POINT(1 1)"; Bytes "2024-02-29"] ["GEOMETRY"; "DATE"]
  /\ buildRowData (fun _ _ => "") Inline [Bytes "POINT(1 1)"; Bytes "2024-02-29"]
                  ["GEOMETRY"; "DATE"]
     = Returned ("", Some "unsupported type: GEOMETRY")
  /\ ~ truncatedSilently (fun _ _ => "") Inline [Bytes "POINT(1 1)"; Bytes "2024-02-29"]
                         ["GEOMETRY"; "DATE"].
Proof.
  split; [| split].
  - exists 1, (Bytes "2024-02-29"), "DATE".
    split; [reflexivity|]. split; [discriminate|]. split; [reflexivity|].
    vm_compute. reflexivity.
  - vm_compute. reflexivity.
  - unfold truncatedSilently. vm_compute. discriminate.
Qed.

Lemma unsupported_type_goes_unreported_witness :
  nth_error ([Int64 1] ++ Bytes "2024-02-29" :: [] ++ Bytes "POINT(1 1)" :: [])
            (length [Int64 1] + 1 + length (@nil value))
  = Some (Bytes "POINT(1 1)")
  /\ buildRowData (fun _ _ => "") Inline
       ([Int64 1] ++ Bytes "2024-02-29" :: [] ++ Bytes "POINT(1 1)" :: [])
       ["INT"; "DATE"; "GEOMETRY"]
     = Returned ("", None)
  /\ writeTableData (fun _ _ => "") Inline
       (inr (mkRows (inr ["id"; "d"; "g"]) (inr ["INT"; "DATE"; "GEOMETRY"])
                    (map ScanRow
                       ([] ++ ([Int64 1] ++ Bytes "2024-02-29" :: [] ++ Bytes "POINT(1 1)" :: [])
                           :: [[Int64 2; Nil; Nil]]))))
       "t" 0
     = Returned
         ("-- ----------------------------" +:+ str1 LF
          +:+ "-- Records of t" +:+ str1 LF
          +:+ "-- ----------------------------" +:+ str1 LF
          +:+ "LOCK TABLES `t` WRITE;" +:+ str1 LF
          +:+ "/*!40000 ALTER TABLE `t` DISABLE KEYS */;" +:+ str1 LF
          +:+ "INSERT INTO `t` (`id`,`d`,`g`) VALUES " +:+ str1 LF
          +:+ "();" +:+ str1 LF
          +:+ "INSERT INTO `t` (`id`,`d`,`g`) VALUES " +:+ str1 LF
          +:+ "(2,NULL,NULL);" +:+ str1 LF
          +:+ "/*!40000 ALTER TABLE `t` ENABLE KEYS */;" +:+ str1 LF
          +:+ "UNLOCK TABLES;" +:+ str1 LF +:+ str1 LF, None).
Proof.
  apply (unsupported_type_goes_unreported (fun _ _ => "") Inline "t" ["id"; "d"; "g"]
           ["INT"; "DATE"; "GEOMETRY"] 0 [Int64 1] [] [] (Bytes "2024-02-29")
           (Bytes "POINT(1 1)") "DATE" "GEOMETRY" [] [[Int64 2; Nil; Nil]] []
           ["2,NULL,NULL"]).
  - reflexivity.
  - discriminate.
  - reflexivity.
  - reflexivity.
  - discriminate.
  - reflexivity.
  - reflexivity.
  - constructor.
  - repeat constructor.
Defined.

(** * Further properties *)

(** ** [mergeInsert] on any batch *)

Lemma mergeInsert_tail_spec (total : nat) (rest : list string) :
  forall (i : nat) (builder : string),
    i + length rest < total ->
    mergeInsert_tail total i rest builder
    = if existsb lacksValues rest
      then inl "invalid SQL: missing VALUES keyword"
      else inr (builder +:+ concatAll (map (fun s => "," +:+ mergedPart s) rest)).
Proof.
  induction rest as [|s rest IH]; intros i builder Hlt.
  - simpl. now rewrite app_nil_r.
  - cbn [length] in Hlt. cbn [mergeInsert_tail existsb map concatAll fold_right].
    replace (i <? total - 1) with true by (symmetry; apply Nat.ltb_lt; lia).
    unfold lacksValues at 1.
    destruct (Index s "VALUES" =? -1)%Z; [reflexivity|].
    cbn [orb]. rewrite IH by lia.
    destruct (existsb lacksValues rest); [reflexivity|].
    unfold mergedPart. now rewrite !app_assoc.
Qed.

(** X1. [mergeInsert] fails exactly when one of the statements after the
    first holds no [VALUES]; otherwise the result is the first statement
    without its terminator, then for each other statement a comma and what
    follows its first [VALUES], then one terminator. A comma is written
    before every merged statement, and the first statement is not searched
    for [VALUES]. *)
Theorem mergeInsert_spec (sql1 : string) (rest : list string) :
  mergeInsert (sql1 :: rest)
  = if existsb lacksValues rest
    then inl "invalid SQL: missing VALUES keyword"
    else inr (TrimSuffix sql1 ";"
              +:+ concatAll (map (fun s => "," +:+ mergedPart s) rest) +:+ ";").
Proof.
  unfold mergeInsert. rewrite mergeInsert_tail_spec by (cbn [length]; lia).
  destruct (existsb lacksValues rest); [reflexivity|]. now rewrite !app_assoc.
Qed.

Lemma mergeInsert_inserts (h1 t1 : string) (more : list (string * string)) :
  forallb (fun ht => singleRowInsert (fst ht) (snd ht)) more = true ->
  mergeInsert (insertStatement h1 t1
               :: map (fun ht => insertStatement (fst ht) (snd ht)) more)
  = inr (mergedStatement ((h1, t1) :: more)).
Proof.
  intros Hmore. unfold mergeInsert.
  rewrite mergeInsert_tail_spec by (cbn [length]; lia).
  assert (H : existsb lacksValues (map (fun ht => insertStatement (fst ht) (snd ht)) more)
              = false
              /\ map (fun s => "," +:+ mergedPart s)
                     (map (fun ht => insertStatement (fst ht) (snd ht)) more)
                 = map (fun ht' => "," +:+ snd ht') more).
  { induction more as [|[h t] more IH]; [now split|].
    cbn [forallb fst snd] in Hmore. apply andb_prop in Hmore as [Hht Hmore].
    destruct (IH Hmore) as [IH1 IH2].
    cbn [map existsb fst snd]. unfold lacksValues at 1, mergedPart at 1.
    rewrite (Index_found _ _ Hht), (merged_part _ _ Hht), IH1, IH2. now split. }
  destruct H as [-> ->].
  rewrite insertStatement_semi, TrimSuffix_app.
  unfold mergedStatement. cbn [fst snd]. now rewrite !app_assoc.
Qed.

(** X2. Merging single-row [INSERT] statements keeps the head of the first
    one only: the heads of the others, whatever table and column list they
    name, are dropped unchecked and their tuples are appended to the first
    statement. *)
Theorem mergeInsert_keeps_first_head (h1 t1 : string) (more : list (string * string)) :
  forallb (fun ht => singleRowInsert (fst ht) (snd ht)) more = true ->
  mergeInsert (insertStatement h1 t1
               :: map (fun ht => insertStatement (fst ht) (snd ht)) more)
  = inr (mergedStatement ((h1, t1) :: more)).
Proof. exact (mergeInsert_inserts h1 t1 more). Qed.

Lemma mergeInsert_keeps_first_head_witness :
  mergeInsert (insertStatement "INSERT INTO `a` (`x`) " " (1)"
               :: map (fun ht => insertStatement (fst ht) (snd ht))
                      [("INSERT INTO `b` (`y`,`z`) ", " (2,3)")])
  = inr (mergedStatement (("INSERT INTO `a` (`x`) ", " (1)")
                          :: [("INSERT INTO `b` (`y`,`z`) ", " (2,3)")])).
Proof.
  apply (mergeInsert_keeps_first_head "INSERT INTO `a` (`x`) " " (1)"
           [("INSERT INTO `b` (`y`,`z`) ", " (2,3)")]).
  reflexivity.
Defined.

(** ** [Source] without merging *)

Lemma terminatedLines_cut (s : string) :
  terminatedLines s
  = match cut SEMI s with
    | Some (line, rest) => line :: terminatedLines rest
    | None => []
    end.
Proof.
  induction s as [|c s IH]; [reflexivity|].
  cbn [terminatedLines cut].
  destruct (Ascii.eqb c SEMI); [reflexivity|].
  rewrite IH. now destruct (cut SEMI s) as [[line rest]|].
Qed.

Lemma source_loop_unmerged (o : sourceOption) (db : dbWrapper) :
  (opt_mergeInsert o <= 1)%Z ->
  (forall q, Exec db q = None) ->
  forall (f : nat) (input : string) (trace : list string),
    String.length input < f ->
    source_loop f o db (mkReader input None) trace
    = Some (trace ++ map trim (terminatedLines input), None).
Proof.
  intros Hm Hx. induction f as [|f IH]; intros input trace Hlt; [lia|].
  cbn [source_loop]. unfold ReadString. cbn [pending failure].
  rewrite (terminatedLines_cut input).
  destruct (cut SEMI input) as [[line rest]|] eqn:E.
  - rewrite (nextStatement_unmerged _ _ _ Hm), Hx.
    apply cut_split in E as [-> Hl].
    rewrite IH by (rewrite length_app in Hlt; lia).
    cbn [map]. now rewrite <- List.app_assoc.
  - cbn [map]. now rewrite List.app_nil_r.
Qed.

(** X3. With merge size [1] or less (the default), against a server that
    accepts every statement or in dry-run mode, [Source] dispatches one
    statement per terminated line of the input, in order, each trimmed, and
    nothing else between [SET autocommit=0] and [COMMIT]: as many statements
    are executed as the input holds terminators. A line that holds only a
    terminator is dispatched as the statement [;]. *)
Theorem Source_without_merging (srv : Server) (dsn dbName input : string)
    (opts : list SourceOption) :
  GetDBNameFromDSN dsn = inr dbName ->
  open_error srv dsn = None ->
  (opt_mergeInsert (applyOptions opts) <= 1)%Z ->
  (forall q, Exec (wrapperOf srv opts) q = None) ->
  Source srv dsn (mkReader input None) opts
  = (["USE " +:+ dbName +:+ ";"; "SET autocommit=0;"]
     ++ map trim (terminatedLines input)
     ++ ["COMMIT;"; "SET autocommit=1;"], None).
Proof.
  intros Hdsn Hopen Hm Hx. unfold Source. rewrite Hdsn, Hopen.
  fold (wrapperOf srv opts). cbn [execAll]. rewrite !Hx.
  cbn [pending]. rewrite (source_loop_unmerged _ _ Hm Hx) by lia.
  cbn [app]. now rewrite <- !List.app_assoc.
Qed.

Lemma Source_without_merging_witness :
  Source acceptAll "root:secret@tcp(127.0.0.1:3306)/shop"
         (mkReader ("DROP TABLE t;;" +:+ str1 LF +:+ " CREATE TABLE t (a INT); tail") None) []
  = (["USE shop;"; "SET autocommit=0;";
      "DROP TABLE t;"; ";"; "CREATE TABLE t (a INT);";
      "COMMIT;"; "SET autocommit=1;"], None).
Proof.
  apply (Source_without_merging acceptAll "root:secret@tcp(127.0.0.1:3306)/shop" "shop").
  - vm_compute. reflexivity.
  - reflexivity.
  - vm_compute. discriminate.
  - intros q. reflexivity.
Defined.

(** ** Dry run *)

Section SameAnswers.

Variables o o' : sourceOption.
Variables db db' : dbWrapper.
Hypothesis same_size : opt_mergeInsert o = opt_mergeInsert o'.
Hypothesis same_answers : forall q, Exec db q = Exec db' q.

Lemma nextStatement_same (ssql : string) (r : Reader) :
  nextStatement o ssql r = nextStatement o' ssql r.
Proof. unfold nextStatement. now rewrite same_size. Qed.

Lemma source_loop_same (f : nat) :
  forall (r : Reader) (trace : list string),
    source_loop f o db r trace = source_loop f o' db' r trace.
Proof.
  induction f as [|f IH]; intros r trace; [reflexivity|].
  cbn [source_loop]. destruct (ReadString r SEMI) as [[line|line|line e] r1]; try reflexivity.
  rewrite <- nextStatement_same.
  destruct (nextStatement o (trim line) r1) as [e|[q r2]]; [reflexivity|].
  rewrite <- same_answers. destruct (Exec db q); [reflexivity | apply IH].
Qed.

Lemma execAll_same (queries trace : list string) :
  execAll db queries trace = execAll db' queries trace.
Proof.
  revert trace. induction queries as [|q queries IH]; intros trace; [reflexivity|].
  cbn [execAll]. rewrite <- same_answers. destruct (Exec db q); [reflexivity | apply IH].
Qed.

End SameAnswers.

Lemma applyOptions_snoc (opts : list SourceOption) (opt : SourceOption) :
  applyOptions (opts ++ [opt]) = opt (applyOptions opts).
Proof. unfold applyOptions. now rewrite fold_left_app. Qed.

(** X4. A dry run of [Source] never depends on what the server would answer
    to a statement: with [WithDryRun] added to the options, [Source]
    dispatches the statements, and returns the result, of the run without it
    against a server that accepts every statement. *)
Theorem Source_dry_run (srv : Server) (dsn : string) (reader : Reader)
    (opts : list SourceOption) :
  Source srv dsn reader (opts ++ [WithDryRun])
  = Source (accepting srv) dsn reader opts.
Proof.
  unfold Source. rewrite applyOptions_snoc.
  destruct (GetDBNameFromDSN dsn) as [e|dbName]; [reflexivity|].
  cbn [accepting open_error].
  destruct (open_error srv dsn); [reflexivity|].
  set (o := applyOptions opts).
  set (db := newDBWrapper srv _ _). set (db' := newDBWrapper (accepting srv) _ _).
  assert (Hsame : forall q, Exec db q = Exec db' q).
  { intros q. unfold Exec, db, db'. cbn. now destruct (opt_dryRun o). }
  rewrite (execAll_same db db' Hsame).
  destruct (execAll db' _ []) as [tr0 [e|]]; [reflexivity|].
  rewrite (source_loop_same (WithDryRun o) o db db' eq_refl Hsame).
  destruct (source_loop _ o db' reader tr0) as [[tr1 [e|]]|]; try reflexivity.
  apply execAll_same. exact Hsame.
Qed.

(** ** The first rejected statement *)

Section Rejected.

Variable o : sourceOption.
Variable db : dbWrapper.

Let accepted (q : string) : Prop := Exec db q = None.

(** Either every statement of the trace was accepted, or the last one was
    rejected, with the returned error, and the others were accepted. *)
Let stopped (trace : list string) (res : option error) : Prop :=
  Forall accepted trace
  \/ exists before q e,
       trace = before ++ [q] /\ Forall accepted before /\ Exec db q = Some e /\ res = Some e.

Lemma execAll_stopped (queries : list string) :
  forall (trace : list string),
    Forall accepted trace ->
    stopped (fst (execAll db queries trace)) (snd (execAll db queries trace)).
Proof.
  induction queries as [|q queries IH]; intros trace Ht.
  - now left.
  - cbn [execAll]. destruct (Exec db q) as [e|] eqn:E.
    + right. now exists trace, q, e.
    + apply IH. apply Forall_app. split; [exact Ht | now constructor].
Qed.

Lemma source_loop_stopped (f : nat) :
  forall (r : Reader) (trace trace' : list string) (res : option error),
    Forall accepted trace ->
    source_loop f o db r trace = Some (trace', res) ->
    stopped trace' res.
Proof.
  induction f as [|f IH]; intros r trace trace' res Ht H; [discriminate|].
  cbn [source_loop] in H.
  destruct (ReadString r SEMI) as [[line|line|line e] r1];
    try (injection H as <- <-; now left).
  destruct (nextStatement o (trim line) r1) as [e|[q r2]];
    [injection H as <- <-; now left|].
  destruct (Exec db q) as [e|] eqn:E.
  - injection H as <- <-. right. now exists trace, q, e.
  - apply (IH r2 (trace ++ [q]) _ _); [|exact H].
    apply Forall_app. split; [exact Ht | now constructor].
Qed.

End Rejected.

(** X5. [Source] stops at the first statement the server rejects: in every
    run, either all dispatched statements were accepted (the returned error,
    if any, then comes from the DSN, the connection, the reader or the
    merge), or the last dispatched statement is the one that was rejected,
    its error is the one returned, and every statement before it was
    accepted. Nothing is dispatched after a rejected statement, [COMMIT]
    included. *)
Theorem Source_stops_at_first_rejected (srv : Server) (dsn : string) (reader : Reader)
    (opts : list SourceOption) :
  Forall (fun q => Exec (wrapperOf srv opts) q = None) (fst (Source srv dsn reader opts))
  \/ exists before q e,
       fst (Source srv dsn reader opts) = before ++ [q]
       /\ Forall (fun p => Exec (wrapperOf srv opts) p = None) before
       /\ Exec (wrapperOf srv opts) q = Some e
       /\ snd (Source srv dsn reader opts) = Some e.
Proof.
  unfold Source. fold (wrapperOf srv opts).
  destruct (GetDBNameFromDSN dsn) as [e|dbName]; [left; constructor|].
  destruct (open_error srv dsn); [left; constructor|].
  pose proof (execAll_stopped (wrapperOf srv opts)
                ["USE " +:+ dbName +:+ ";"; "SET autocommit=0;"] [] ltac:(constructor)) as H0.
  destruct (execAll _ _ []) as [tr0 [e|]]; [exact H0|].
  destruct H0 as [H0 | (b & q & e & _ & _ & _ & He)]; [|discriminate].
  pose proof (source_loop_stopped (applyOptions opts) (wrapperOf srv opts)
                (S (String.length (pending reader))) reader tr0) as H1.
  destruct (source_loop _ _ _ reader tr0) as [[tr1 [e|]]|].
  - exact (H1 _ _ H0 eq_refl).
  - specialize (H1 _ _ H0 eq_refl).
    destruct H1 as [H1 | (b & q & e & _ & _ & _ & He)]; [|discriminate].
    apply execAll_stopped. exact H1.
  - now left.
Qed.

(** ** Merging a stream of single-row INSERT statements *)

Lemma forallb_take {A : Type} (p : A -> bool) (n : nat) (l : list A) :
  forallb p l = true -> forallb p (take n l) = true.
Proof.
  revert n. induction l as [|a l IH]; intros [|n] H; try reflexivity.
  cbn [forallb take] in *. apply andb_prop in H as [Ha Hl].
  now rewrite Ha, (IH n Hl).
Qed.

Lemma forallb_drop {A : Type} (p : A -> bool) (n : nat) (l : list A) :
  forallb p l = true -> forallb p (drop n l) = true.
Proof.
  revert n. induction l as [|a l IH]; intros [|n] H; try reflexivity; try exact H.
  cbn [forallb drop] in *. apply andb_prop in H as [Ha Hl]. exact (IH n Hl).
Qed.

Section InsertStream.

Variable sep : string.
Hypothesis sep_space : allAsciiSpace sep = true.

Variable o : sourceOption.
Variable db : dbWrapper.
Hypothesis merge_size : (2 <= opt_mergeInsert o)%Z.
Hypothesis accepts : forall q, Exec db q = None.

Let shaped (l : list (string * string)) : Prop :=
  forallb (fun ht => singleRowInsert (fst ht) (snd ht)) l = true.

Let text (ht : string * string) : string := insertStatement (fst ht) (snd ht).

(** The reader is at the statements [l]: what is pending is white space,
    then those statements, each followed by the separator. *)
Let holds (r : Reader) (l : list (string * string)) : Prop :=
  exists ws, allAsciiSpace ws = true /\ r = mkReader (ws +:+ insertStream sep l) None.

Lemma holds_read (r : Reader) (ht : string * string) (l : list (string * string)) :
  holds r (ht :: l) -> shaped (ht :: l) ->
  exists line r1,
    ReadString r SEMI = (ReadOk line, r1) /\ trim line = text ht /\ holds r1 l.
Proof.
  intros (ws & Hws & ->) Hs. unfold shaped in Hs. cbn [forallb] in Hs.
  apply andb_prop in Hs as [Hht _].
  destruct (read_insertStatement _ _ Hht ws (sep +:+ insertStream sep l) None Hws)
    as [R T].
  exists (ws +:+ text ht), (mkReader (sep +:+ insertStream sep l) None).
  repeat split.
  - unfold insertStream. cbn [map concatAll fold_right]. fold (insertStream sep l).
    rewrite app_assoc. exact R.
  - exact T.
  - now exists sep.
Qed.

Lemma holds_end (r : Reader) :
  holds r [] -> exists line, ReadString r SEMI = (ReadEOF line, mkReader "" None).
Proof.
  intros (ws & Hws & ->). unfold ReadString. cbn [pending failure].
  unfold insertStream. cbn [map concatAll fold_right]. rewrite app_nil_r.
  rewrite (cut_none _ _ (allAsciiSpace_no_semi _ Hws)). now exists ws.
Qed.

Lemma holds_drained : holds (mkReader "" None) [].
Proof. now exists "". Qed.

(** The inner loop reads the next [k] statements, or those that are left. *)
Lemma accumulate_stream (k : nat) :
  forall (l : list (string * string)) (r : Reader) (acc : list string),
    holds r l -> shaped l ->
    exists r',
      accumulate k r acc = inr (acc ++ map text (take k l), r') /\ holds r' (drop k l).
Proof.
  induction k as [|k IH]; intros l r acc Hr Hs.
  - exists r. rewrite take_0, drop_0. cbn [map accumulate]. now rewrite List.app_nil_r.
  - destruct l as [|ht l].
    + destruct (holds_end r Hr) as [line E].
      exists (mkReader "" None). cbn [accumulate take drop map]. rewrite E.
      rewrite List.app_nil_r. split; [reflexivity | apply holds_drained].
    + destruct (holds_read r ht l Hr Hs) as (line & r1 & E & T & Hr1).
      assert (Hs' : shaped l).
      { unfold shaped in *. cbn [forallb] in Hs. now apply andb_prop in Hs as [_ ?]. }
      assert (Hp : HasPrefix (text ht) "INSERT INTO" = true).
      { unfold shaped in Hs. cbn [forallb] in Hs. apply andb_prop in Hs as [Hht _].
        exact (insertStatement_prefix _ _ Hht). }
      destruct (IH l r1 (acc ++ [text ht]) Hr1 Hs') as (r' & Ea & Hr').
      exists r'. cbn [accumulate take drop map]. rewrite E, T, Hp, Ea.
      split; [now rewrite <- List.app_assoc | exact Hr'].
Qed.

(** One pass of the outer loop takes a batch of up to [M] statements. *)
Lemma nextStatement_stream (ht : string * string) (l : list (string * string)) (r1 : Reader) :
  holds r1 l -> shaped (ht :: l) ->
  exists r',
    nextStatement o (text ht) r1
    = inr (mergedStatement (take (Z.to_nat (opt_mergeInsert o)) (ht :: l)), r')
    /\ holds r' (drop (Z.to_nat (opt_mergeInsert o)) (ht :: l)).
Proof.
  intros Hr Hs.
  assert (Hht : singleRowInsert (fst ht) (snd ht) = true /\ shaped l).
  { unfold shaped in *. cbn [forallb] in Hs. now apply andb_prop in Hs. }
  destruct Hht as [Hht Hs'].
  unfold nextStatement.
  replace (1 <? opt_mergeInsert o)%Z with true by (symmetry; apply Z.ltb_lt; lia).
  pose proof (accumulate_stream (Z.to_nat (opt_mergeInsert o - 1)) l r1
                [insertStatement (fst ht) (snd ht)] Hr Hs') as (r' & Ea & Hr').
  unfold text in *. rewrite (insertStatement_prefix _ _ Hht). cbn [andb]. rewrite Ea.
  replace (Z.to_nat (opt_mergeInsert o)) with (S (Z.to_nat (opt_mergeInsert o - 1))) by lia.
  cbn [take drop app].
  rewrite (mergeInsert_inserts (fst ht) (snd ht)) by (now apply forallb_take).
  exists r'. destruct ht as [h t]. now split.
Qed.

Lemma source_loop_stream (f : nat) :
  forall (l : list (string * string)) (r : Reader) (trace : list string),
    holds r l -> shaped l -> length l < f ->
    source_loop f o db r trace
    = Some (trace ++ map mergedStatement (chunks (Z.to_nat (opt_mergeInsert o)) l), None).
Proof.
  induction f as [|f IH]; intros l r trace Hr Hs Hlt; [lia|].
  destruct l as [|ht l].
  - destruct (holds_end r Hr) as [line E].
    rewrite (source_loop_eof _ _ _ _ _ _ _ E). cbn. now rewrite List.app_nil_r.
  - destruct (holds_read r ht l Hr Hs) as (line & r1 & E & T & Hr1).
    destruct (nextStatement_stream ht l r1 Hr1 Hs) as (r' & En & Hr').
    rewrite <- T in En.
    rewrite (source_loop_next _ _ _ _ _ _ _ _ _ E En (accepts _)).
    rewrite chunks_cons by (try lia; discriminate).
    rewrite (IH (drop (Z.to_nat (opt_mergeInsert o)) (ht :: l)) r').
    + cbn [map]. now rewrite <- List.app_assoc.
    + exact Hr'.
    + now apply forallb_drop.
    + rewrite length_drop. cbn [length] in *. lia.
Qed.

End InsertStream.

Lemma insertStream_length (sep : string) (l : list (string * string)) :
  length l <= String.length (insertStream sep l).
Proof.
  induction l as [|ht l IH]; [cbn; lia|].
  change (insertStream sep (ht :: l))
    with ((insertStatement (fst ht) (snd ht) +:+ sep) +:+ insertStream sep l).
  unfold insertStatement. rewrite !length_app. cbn [length].
  change (String.length "VALUES") with 6. lia.
Qed.

(** X6. A stream of any number of single-row [INSERT] statements, each
    followed by the same run of white space, restored with a merge size
    [M >= 2] against a server that accepts every statement or in dry-run
    mode: [Source] dispatches one statement per group of [M] consecutive
    statements (the last group holding those that are left); each carries
    the head of the first statement of its group and the tuples of all
    statements of the group, in the order of the stream. *)
Theorem Source_merges_stream (srv : Server) (dsn dbName sep : string)
    (inserts : list (string * string)) (opts : list SourceOption) :
  GetDBNameFromDSN dsn = inr dbName ->
  open_error srv dsn = None ->
  (2 <= opt_mergeInsert (applyOptions opts))%Z ->
  (forall q, Exec (wrapperOf srv opts) q = None) ->
  allAsciiSpace sep = true ->
  forallb (fun ht => singleRowInsert (fst ht) (snd ht)) inserts = true ->
  Source srv dsn (mkReader (insertStream sep inserts) None) opts
  = (["USE " +:+ dbName +:+ ";"; "SET autocommit=0;"]
     ++ map mergedStatement (chunks (Z.to_nat (opt_mergeInsert (applyOptions opts))) inserts)
     ++ ["COMMIT;"; "SET autocommit=1;"], None).
Proof.
  intros Hdsn Hopen Hm Hx Hsep Hs. unfold Source. rewrite Hdsn, Hopen.
  fold (wrapperOf srv opts). cbn [execAll]. rewrite !Hx. cbn [pending].
  rewrite (source_loop_stream sep Hsep _ _ Hm Hx _ inserts).
  - cbn [app]. now rewrite <- !List.app_assoc.
  - now exists "".
  - exact Hs.
  - pose proof (insertStream_length sep inserts). lia.
Qed.

Lemma Source_merges_stream_witness :
  Source acceptAll "root:secret@tcp(127.0.0.1:3306)/shop"
         (mkReader (insertStream (str1 LF)
                      [("INSERT INTO `t` ", " (1)"); ("INSERT INTO `t` ", " (2)");
                       ("INSERT INTO `t` ", " (3)"); ("INSERT INTO `t` ", " (4)")]) None)
         [WithMergeInsert 3]
  = (["USE " +:+ "shop" +:+ ";"; "SET autocommit=0;"]
     ++ map mergedStatement
          (chunks (Z.to_nat (opt_mergeInsert (applyOptions [WithMergeInsert 3])))
                  [("INSERT INTO `t` ", " (1)"); ("INSERT INTO `t` ", " (2)");
                   ("INSERT INTO `t` ", " (3)"); ("INSERT INTO `t` ", " (4)")])
     ++ ["COMMIT;"; "SET autocommit=1;"], None).
Proof.
  apply (Source_merges_stream acceptAll "root:secret@tcp(127.0.0.1:3306)/shop" "shop").
  - vm_compute. reflexivity.
  - reflexivity.
  - vm_compute. discriminate.
  - intros q. reflexivity.
  - reflexivity.
  - vm_compute. reflexivity.
Defined.

(** ** Splitting at a one-byte separator *)

Lemma rev_string_acc (s : string) :
  forall acc, rev_string acc s = rev_string "" s +:+ acc.
Proof.
  induction s as [|c s IH]; intros acc; [reflexivity|].
  cbn [rev_string]. rewrite (IH (String c acc)), (IH (String c "")).
  now rewrite app_assoc.
Qed.

Lemma rev_string_app (s t : string) :
  rev_string "" (s +:+ t) = rev_string "" t +:+ rev_string "" s.
Proof.
  induction s as [|c s IH].
  - now rewrite app_nil_l, app_nil_r.
  - rewrite app_cons. cbn [rev_string].
    rewrite (rev_string_acc (s +:+ t)), (rev_string_acc s), IH. now rewrite app_assoc.
Qed.

Lemma rev_string_involutive (s : string) : rev_string "" (rev_string "" s) = s.
Proof.
  induction s as [|c s IH]; [reflexivity|].
  cbn [rev_string]. rewrite (rev_string_acc s), rev_string_app, IH. reflexivity.
Qed.

Section SplitByte.

Variable d : ascii.

Lemma split_from_byte (cur : string) (c : ascii) (s : string) :
  split_from (str1 d) 0 cur (String c s)
  = if Ascii.eqb c d
    then rev_string "" cur :: split_from (str1 d) 0 "" s
    else split_from (str1 d) 0 (String c cur) s.
Proof.
  cbn [split_from]. unfold str1. cbn [String.prefix String.length Nat.sub].
  destruct (ascii_dec d c) as [->|Hn].
  - rewrite Ascii.eqb_refl. now destruct s.
  - destruct (Ascii.eqb_spec c d) as [->|_]; [now contradiction Hn | reflexivity].
Qed.

(** Bytes other than the separator extend the current field. *)
Lemma split_from_field (a : string) :
  forall (cur rest : string),
    mem_ascii d a = false ->
    split_from (str1 d) 0 cur (a +:+ rest) = split_from (str1 d) 0 (rev_string cur a) rest.
Proof.
  induction a as [|c a IH]; intros cur rest H; [reflexivity|].
  change (mem_ascii d (String c a)) with (Ascii.eqb d c || mem_ascii d a) in H.
  apply orb_false_iff in H as [Hc Ha].
  rewrite app_cons, split_from_byte, Ascii.eqb_sym, Hc. cbn [rev_string]. now apply IH.
Qed.

Lemma Split_field (a : string) :
  mem_ascii d a = false -> Split a (str1 d) = [a].
Proof.
  intros H. unfold Split.
  rewrite <- (app_nil_r a) at 1. rewrite (split_from_field a "" "" H).
  cbn [split_from]. now rewrite rev_string_involutive.
Qed.

Lemma Split_cons (a b : string) :
  mem_ascii d a = false ->
  Split (a +:+ String d b) (str1 d) = a :: Split b (str1 d).
Proof.
  intros H. unfold Split.
  rewrite (split_from_field a "" _ H), split_from_byte, Ascii.eqb_refl.
  now rewrite rev_string_involutive.
Qed.

(** There is one field more than there are separators. *)
Lemma Split_length (s : string) :
  forall cur, length (split_from (str1 d) 0 cur s) = S (countChar d s).
Proof.
  induction s as [|c s IH]; intros cur; [reflexivity|].
  rewrite split_from_byte. cbn [countChar].
  destruct (Ascii.eqb c d); cbn [length]; now rewrite IH.
Qed.

End SplitByte.

(** ** The DSN *)

(** X7. [GetDBNameFromDSN] returns the database name of a DSN of the form
    [<address>/<name>] or [<address>/<name>?<parameters>], when the slash
    shown is the only slash of the DSN and the name holds no question
    mark. *)
Theorem GetDBNameFromDSN_name (address name : string) (parameters : option string) :
  mem_ascii "/" address = false ->
  mem_ascii "/" name = false ->
  mem_ascii "?" name = false ->
  match parameters with Some p => mem_ascii "/" p = false | None => True end ->
  GetDBNameFromDSN
    (address +:+ "/" +:+ name
     +:+ match parameters with Some p => "?" +:+ p | None => "" end)
  = inr name.
Proof.
  intros Ha Hn Hq Hp. unfold GetDBNameFromDSN, splitS.
  change "/" with (str1 "/"). change "?" with (str1 "?").
  change (str1 "/" +:+ name +:+ match parameters with Some p => str1 "?" +:+ p | None => "" end)
    with (String "/" (name +:+ match parameters with Some p => String "?" p | None => "" end)).
  rewrite (Split_cons "/" address _ Ha).
  rewrite (Split_field "/").
  - destruct parameters as [p|].
    + now rewrite (Split_cons "?" name p Hq).
    + now rewrite app_nil_r, (Split_field "?" name Hq).
  - rewrite mem_ascii_app, Hn. destruct parameters as [p|]; [|reflexivity].
    change (mem_ascii "/" (String "?" p)) with (Ascii.eqb "/" "?" || mem_ascii "/" p).
    now rewrite Hp.
Qed.

Lemma GetDBNameFromDSN_name_witness :
  GetDBNameFromDSN
    ("root:secret@tcp(127.0.0.1:3306)" +:+ "/" +:+ "shop"
     +:+ match Some "charset=utf8mb4&parseTime=true" with
         | Some p => "?" +:+ p
         | None => ""
         end)
  = inr "shop".
Proof.
  apply (GetDBNameFromDSN_name "root:secret@tcp(127.0.0.1:3306)" "shop"
           (Some "charset=utf8mb4&parseTime=true")); reflexivity.
Defined.

(** X8. [GetDBNameFromDSN] fails, with the error [dsn error: <dsn>], exactly
    when the DSN does not hold one single slash: a DSN without database
    part, and one with a slash in its address or in a parameter (a socket
    path, a time zone), are both refused. *)
Theorem GetDBNameFromDSN_error (dsn : string) :
  GetDBNameFromDSN dsn = inl ("dsn error: " +:+ dsn) <-> countChar "/" dsn <> 1.
Proof.
  unfold GetDBNameFromDSN, splitS, Split.
  pose proof (Split_length "/" dsn "") as Hl. change (str1 "/") with "/" in Hl.
  destruct (split_from "/" 0 "" dsn) as [|a [|b [|c l]]]; cbn [length] in Hl.
  - discriminate.
  - split; [intros _; lia | reflexivity].
  - split; [discriminate | intros H; lia].
  - split; [intros _; lia | reflexivity].
Qed.

Lemma GetDBHostFromDSN_split (credentials address rest : string) :
  mem_ascii "@" credentials = false ->
  mem_ascii "@" address = false ->
  mem_ascii "@" rest = false ->
  mem_ascii "/" address = false ->
  GetDBHostFromDSN (credentials +:+ "@" +:+ address +:+ "/" +:+ rest)
  = let h := if HasPrefix address "tcp(" then TrimSuffix (TrimPrefix address "tcp(") ")"
             else address in
    if String.eqb (TrimSpace h) "" then inr "127.0.0.1" else inr h.
Proof.
  intros Hc Ha Hr Hs. unfold GetDBHostFromDSN, splitS.
  change "@" with (str1 "@"). change "/" with (str1 "/").
  change (str1 "@" +:+ address +:+ str1 "/" +:+ rest)
    with (String "@" (address +:+ String "/" rest)).
  rewrite (Split_cons "@" credentials _ Hc).
  rewrite (Split_field "@").
  - rewrite (Split_cons "/" address rest Hs). reflexivity.
  - rewrite mem_ascii_app, Ha.
    change (mem_ascii "@" (String "/" rest)) with (Ascii.eqb "@" "/" || mem_ascii "@" rest).
    now rewrite Hr.
Qed.

(** X9. For a DSN [<credentials>@tcp(<host>)/<rest>] with no other [@] and
    no slash in the host, [GetDBHostFromDSN] returns the host as written
    between the parentheses, port included, and [127.0.0.1] when that is
    blank. For a DSN [<credentials>@<blank>/<rest>] it returns
    [127.0.0.1]. *)
Theorem GetDBHostFromDSN_host (credentials host rest : string) :
  mem_ascii "@" credentials = false ->
  mem_ascii "@" host = false ->
  mem_ascii "@" rest = false ->
  mem_ascii "/" host = false ->
  GetDBHostFromDSN (credentials +:+ "@" +:+ ("tcp(" +:+ host +:+ ")") +:+ "/" +:+ rest)
  = inr (if String.eqb (TrimSpace host) "" then "127.0.0.1" else host)
  /\ (TrimSpace host = "" -> HasPrefix host "tcp(" = false ->
      GetDBHostFromDSN (credentials +:+ "@" +:+ host +:+ "/" +:+ rest) = inr "127.0.0.1").
Proof.
  intros Hc Hh Hr Hs. split.
  - rewrite GetDBHostFromDSN_split; try assumption.
    + cbv zeta. unfold HasPrefix. rewrite prefix_app, TrimPrefix_app, TrimSuffix_app.
      now destruct (String.eqb (TrimSpace host) "").
    + now rewrite !mem_ascii_app, Hh.
    + now rewrite !mem_ascii_app, Hs.
  - intros Hb Hp. rewrite GetDBHostFromDSN_split; try assumption.
    cbv zeta. now rewrite Hp, Hb.
Qed.

Lemma GetDBHostFromDSN_host_witness :
  GetDBHostFromDSN ("root:secret" +:+ "@" +:+ ("tcp(" +:+ "db.example.org:3306" +:+ ")")
                    +:+ "/" +:+ "shop?parseTime=true")
  = inr (if String.eqb (TrimSpace "db.example.org:3306") "" then "127.0.0.1"
         else "db.example.org:3306")
  /\ (TrimSpace "db.example.org:3306" = "" -> HasPrefix "db.example.org:3306" "tcp(" = false ->
      GetDBHostFromDSN ("root:secret" +:+ "@" +:+ "db.example.org:3306" +:+ "/"
                        +:+ "shop?parseTime=true") = inr "127.0.0.1").
Proof.
  apply (GetDBHostFromDSN_host "root:secret" "db.example.org:3306" "shop?parseTime=true");
    reflexivity.
Defined.

(** X10. [GetDBHostFromDSN] fails, with the error [dsn error: <dsn>],
    exactly when the DSN does not hold one single [@]: a password that
    holds an [@] makes the DSN unusable. *)
Theorem GetDBHostFromDSN_error (dsn : string) :
  GetDBHostFromDSN dsn = inl ("dsn error: " +:+ dsn) <-> countChar "@" dsn <> 1.
Proof.
  unfold GetDBHostFromDSN, splitS, Split.
  pose proof (Split_length "@" dsn "") as Hl. change (str1 "@") with "@" in Hl.
  destruct (split_from "@" 0 "" dsn) as [|a [|b [|c l]]]; cbn [length] in Hl.
  - discriminate.
  - split; [intros _; lia | reflexivity].
  - split; [|intros H; lia].
    cbv zeta. now destruct (String.eqb _ "").
  - split; [intros _; lia | reflexivity].
Qed.

(** ** The text of a row *)

Lemma concat_two (sep x y : string) (l : list string) :
  String.concat sep (x :: y :: l) = x +:+ sep +:+ String.concat sep (y :: l).
Proof. reflexivity. Qed.

Section RowText.

Variable fmtOther : ascii -> value -> string.
Variable rev : Revision.
Variable columnTypes : list string.

Lemma columnTexts_length (cols : list value) :
  forall (i : nat) (texts : list string),
    columnTexts fmtOther rev columnTypes i cols = Some texts -> length texts = length cols.
Proof.
  induction cols as [|col cols IH]; intros i texts H.
  - now injection H as <-.
  - cbn [columnTexts] in H.
    destruct (columnStep fmtOther rev columnTypes i col); try discriminate.
    destruct (columnTexts fmtOther rev columnTypes (S i) cols) as [texts'|] eqn:E;
      [|discriminate].
    injection H as <-. cbn [length]. now rewrite (IH _ _ E).
Qed.

Lemma buildRowData_from_texts (len : nat) (cols : list value) :
  forall (i : nat) (ssql : string),
    i + length cols = len ->
    match columnTexts fmtOther rev columnTypes i cols with
    | Some texts =>
        buildRowData_from fmtOther rev len i cols columnTypes ssql
        = Returned (ssql +:+ Join texts ",", None)
    | None =>
        buildRowData_from fmtOther rev len i cols columnTypes ssql = Panicked
        \/ exists e, buildRowData_from fmtOther rev len i cols columnTypes ssql
                     = Returned ("", e)
    end.
Proof.
  induction cols as [|col cols IH]; intros i ssql Hlen.
  - cbn. now rewrite app_nil_r.
  - cbn [columnTexts buildRowData_from]. cbn [length] in Hlen.
    destruct (columnStep fmtOther rev columnTypes i col) as [text|s e|] eqn:E.
    + specialize (IH (S i) (if i <? len - 1 then (ssql +:+ text) +:+ "," else ssql +:+ text)
                     ltac:(lia)).
      destruct (columnTexts fmtOther rev columnTypes (S i) cols) as [texts|] eqn:Et;
        cbn [option_map]; [|exact IH].
      rewrite IH. apply columnTexts_length in Et.
      destruct cols as [|col' cols].
      * destruct texts; [|discriminate].
        replace (i <? len - 1) with false by (symmetry; apply Nat.ltb_ge; cbn in Hlen; lia).
        unfold Join. cbn. now rewrite !app_nil_r.
      * destruct texts as [|t texts]; [discriminate|].
        replace (i <? len - 1) with true by (symmetry; apply Nat.ltb_lt; cbn in Hlen; lia).
        unfold Join. rewrite concat_two. now rewrite !app_assoc.
    + right. exists e.
      unfold columnStep in E. destruct col; try discriminate;
        destruct (nth_error columnTypes i) as [T|]; try discriminate;
        unfold formatColumn in E;
        repeat match type of E with
               | (if ?b then _ else _) = _ => destruct b
               | match ?c with _ => _ end = _ => destruct c
               end; try discriminate; now injection E as <- <-.
    + now left.
Qed.

(** X11. [buildRowData] returns a row text only when every column was
    formatted, and that text is then the column texts joined by commas,
    with nil error; when a column leaves the loop it returns the empty
    string (with or without an error) or panics. A row with some of its
    columns only is never returned. *)
Theorem buildRowData_all_or_nothing (row : list value) :
  match columnTexts fmtOther rev columnTypes 0 row with
  | Some texts => buildRowData fmtOther rev row columnTypes = Returned (Join texts ",", None)
  | None =>
      buildRowData fmtOther rev row columnTypes = Panicked
      \/ exists e, buildRowData fmtOther rev row columnTypes = Returned ("", e)
  end.
Proof.
  unfold buildRowData.
  exact (buildRowData_from_texts (length row) row 0 "" eq_refl).
Qed.

Lemma columnTexts_nil (n : nat) :
  forall i, columnTexts fmtOther rev columnTypes i (repeat Nil n) = Some (repeat "NULL" n).
Proof.
  induction n as [|n IH]; intros i; [reflexivity|].
  cbn [repeat columnTexts columnStep]. now rewrite IH.
Qed.

(** X12. A NULL value bypasses the type switch: a row of [n] NULL values is
    written as [n] times [NULL], joined by commas, whatever the declared
    types of its columns are, unsupported and missing ones included. *)
Theorem buildRowData_nulls (n : nat) :
  buildRowData fmtOther rev (repeat Nil n) columnTypes
  = Returned (Join (repeat "NULL" n) ",", None).
Proof.
  pose proof (buildRowData_from_texts (length (repeat Nil n)) (repeat Nil n) 0 "" eq_refl)
    as H.
  now rewrite columnTexts_nil in H.
Qed.

End RowText.

(** ** Binary values *)

Lemma unhex_hexUpper (bs : string) : unhex (hexUpper bs) = Some bs.
Proof.
  induction bs as [|c bs IH]; [reflexivity|].
  cbn [hexUpper unhex]. rewrite IH.
  destruct c as [[] [] [] [] [] [] [] []]; reflexivity.
Qed.

Lemma hexUpper_length (bs : string) : String.length (hexUpper bs) = 2 * String.length bs.
Proof. induction bs as [|c bs IH]; [reflexivity|]. cbn [hexUpper String.length]. lia. Qed.

Lemma formatColumn_binary (fmtOther : ascii -> value -> string) (rev : Revision)
    (Type_ : string) (bs : string) :
  oneOf (normalizeType Type_) binaryTypes = true ->
  formatColumn fmtOther rev Type_ (Bytes bs) = Append ("0x" +:+ hexUpper bs).
Proof.
  intros H. unfold formatColumn. cbv zeta.
  remember (normalizeType Type_) as T.
  unfold oneOf, binaryTypes in H. cbn [existsb] in H.
  repeat (apply orb_prop in H as [H|H];
          [apply String.eqb_eq in H; subst T; rewrite H; reflexivity|]).
  discriminate.
Qed.

(** X13. A byte-slice value of a binary column (BIT, BINARY, VARBINARY and
    the BLOB types) is written as [0x] followed by two upper-case
    hexadecimal digits for each of its bytes; for a value of at least one
    byte a MySQL parser reads the literal back as the very same bytes. An
    empty value is written as the bare [0x]. *)
Theorem binary_round_trip (fmtOther : ascii -> value -> string) (rev : Revision)
    (Type_ : string) (bs : string) :
  oneOf (normalizeType Type_) binaryTypes = true ->
  formatColumn fmtOther rev Type_ (Bytes bs) = Append ("0x" +:+ hexUpper bs)
  /\ String.length (hexUpper bs) = 2 * String.length bs
  /\ (bs <> "" -> decodeHexLiteral ("0x" +:+ hexUpper bs) = Some bs).
Proof.
  intros H. split; [now apply formatColumn_binary|].
  split; [apply hexUpper_length|].
  intros Hne. destruct bs as [|c bs]; [contradiction|].
  change (decodeHexLiteral ("0x" +:+ hexUpper (String c bs)))
    with (unhex (hexUpper (String c bs))).
  apply unhex_hexUpper.
Qed.

Lemma binary_round_trip_witness :
  formatColumn (fun _ _ => "") Inline "BLOB" (Bytes (String (ascii_of_nat 255) "a"))
  = Append ("0x" +:+ hexUpper (String (ascii_of_nat 255) "a"))
  /\ String.length (hexUpper (String (ascii_of_nat 255) "a"))
     = 2 * String.length (String (ascii_of_nat 255) "a")
  /\ (String (ascii_of_nat 255) "a" <> "" ->
      decodeHexLiteral ("0x" +:+ hexUpper (String (ascii_of_nat 255) "a"))
      = Some (String (ascii_of_nat 255) "a")).
Proof.
  apply (binary_round_trip (fun _ _ => "") Inline "BLOB" (String (ascii_of_nat 255) "a")).
  reflexivity.
Defined.

(** ** One statement per row *)

Section SingleRowBatches.

Variable fmtOther : ascii -> value -> string.
Variable rev : Revision.
Variable table : string.
Variables columns columnTypes : list string.
Variable N : Z.
Hypothesis unbatched : (N < 2)%Z.

Lemma emitted_single (tuples : list string) :
  forall rowId, (0 <= rowId)%Z -> tuples <> [] ->
    emitted table columns N rowId tuples +:+ ";" +:+ str1 LF
    = (if (0 <? rowId)%Z then ";" +:+ str1 LF else "")
      +:+ concatAll (map (fun t => renderBatch table columns [t]) tuples).
Proof.
  induction tuples as [|t tuples IH]; intros rowId Hr Hne; [contradiction|].
  cbn [emitted map concatAll fold_right].
  unfold rowOpening, startsBatch.
  replace (N <? 2)%Z with true by (symmetry; apply Z.ltb_lt; exact unbatched).
  rewrite orb_true_r. cbn [orb].
  unfold renderBatch at 1. cbn [map String.concat].
  destruct tuples as [|t' tuples].
  - cbn [emitted map concatAll fold_right]. now rewrite !app_assoc, ?app_nil_l, ?app_nil_r.
  - specialize (IH (rowId + 1)%Z ltac:(lia) ltac:(discriminate)).
    replace (0 <? rowId + 1)%Z with true in IH by (symmetry; apply Z.ltb_lt; lia).
    rewrite !app_assoc. rewrite !app_assoc in IH. do 5 f_equal. exact IH.
Qed.

(** X14. With a batch size below 2 (the default) and at least one row, all
    rows being formatted, the data section is the prologue, then one
    [INSERT] statement with a single tuple for each row, in the order of the
    cursor, then the footer. *)
Theorem writeTableData_one_statement_per_row (rows : list (list value))
    (tuples : list string) :
  rows <> [] ->
  Forall2 (fun row t => buildRowData fmtOther rev row columnTypes = Returned (t, None))
          rows tuples ->
  writeTableData fmtOther rev (inr (mkRows (inr columns) (inr columnTypes) (map ScanRow rows)))
                 table N
  = Returned
      (dataPrologue rev table
       +:+ concatAll (map (fun t => renderBatch table columns [t]) tuples)
       +:+ dataFooter table, None).
Proof.
  intros Hrows Hfmt.
  assert (Hne : tuples <> []) by (destruct Hfmt; [contradiction | discriminate]).
  rewrite writeTableData_frame.
  rewrite (writeRows_formatted _ _ _ _ _ _ _ _ Hfmt). unfold dataEpilogue.
  pose proof (emitted_single tuples 0 (Z.le_refl 0) Hne) as He.
  cbn [Z.ltb Z.compare] in He. rewrite app_nil_l in He.
  rewrite <- He. now rewrite !app_assoc.
Qed.

End SingleRowBatches.

Lemma writeTableData_one_statement_per_row_witness :
  writeTableData (fun _ _ => "") Sanitized
    (inr (mkRows (inr ["id"]) (inr ["INT"]) (map ScanRow [[Int64 1]; [Bytes "2"]])))
    "t" 0
  = Returned
      (dataPrologue Sanitized "t"
       +:+ concatAll (map (fun t => renderBatch "t" ["id"] [t]) ["1"; "2"])
       +:+ dataFooter "t", None).
Proof.
  apply (writeTableData_one_statement_per_row (fun _ _ => "") Sanitized "t" ["id"] ["INT"] 0
           ltac:(lia) [[Int64 1]; [Bytes "2"]] ["1"; "2"]).
  - discriminate.
  - repeat constructor.
Defined.

(** ** Quoted values *)

Lemma formatColumn_char (fmtOther : ascii -> value -> string) (rev : Revision)
    (Type_ : string) (s : string) :
  oneOf (normalizeType Type_) charTypes = true ->
  formatColumn fmtOther rev Type_ (Bytes s) = Append (quoted (escapeText rev s)).
Proof.
  intros H. unfold formatColumn. cbv zeta.
  remember (normalizeType Type_) as T.
  unfold oneOf, charTypes in H. cbn [existsb] in H.
  repeat (apply orb_prop in H as [H|H];
          [apply String.eqb_eq in H; subst T; rewrite H; reflexivity|]).
  discriminate.
Qed.

(** X15. A byte-slice value of a character column (CHAR, VARCHAR and the
    TEXT types) that holds no backslash is written as a literal that a MySQL
    parser reads back as the very same bytes, with either escape table. *)
Theorem character_round_trip (fmtOther : ascii -> value -> string) (rev : Revision)
    (Type_ : string) (s : string) :
  oneOf (normalizeType Type_) charTypes = true ->
  mem_ascii BACKSLASH s = false ->
  exists literal,
    formatColumn fmtOther rev Type_ (Bytes s) = Append literal
    /\ decodeLiteral literal = Some s.
Proof.
  intros HT Hs. exists (quoted (escapeText rev s)). split.
  - now apply formatColumn_char.
  - now apply escaping_keeps_values_without_backslash.
Qed.

Lemma character_round_trip_witness :
  exists literal,
    formatColumn (fun _ _ => "") Inline "VARCHAR"
                 (Bytes ("it's" +:+ str1 LF +:+ "a " +:+ str1 DQUOTE +:+ "test" +:+ str1 DQUOTE))
    = Append literal
    /\ decodeLiteral literal
       = Some ("it's" +:+ str1 LF +:+ "a " +:+ str1 DQUOTE +:+ "test" +:+ str1 DQUOTE).
Proof.
  apply (character_round_trip (fun _ _ => "") Inline "VARCHAR"); reflexivity.
Defined.

Lemma formatColumn_quoted (fmtOther : ascii -> value -> string) (rev : Revision)
    (Type_ : string) (s : string) :
  oneOf (normalizeType Type_) quotedTypes = true ->
  formatColumn fmtOther rev Type_ (Bytes s) = Append (quoted s).
Proof.
  intros H. unfold formatColumn. cbv zeta.
  remember (normalizeType Type_) as T.
  unfold oneOf, quotedTypes in H. cbn [existsb] in H.
  repeat (apply orb_prop in H as [H|H];
          [apply String.eqb_eq in H; subst T; rewrite H; reflexivity|]).
  discriminate.
Qed.

Lemma unescape_length (d : ascii) :
  String.length (unescape d) <= 2
  /\ (Ascii.eqb d SQUOTE = true -> String.length (unescape d) = 1).
Proof.
  split.
  - unfold unescape.
    repeat match goal with |- context [if ?b then _ else _] => destruct b end;
      cbn; lia.
  - intros H. apply Ascii.eqb_eq in H. now subst d.
Qed.

(** What a parser reads from a literal is not longer than what stands
    between the quotes, and shorter when a quote stands there. *)
Lemma decodeBody_length (n : nat) :
  forall (s r : string),
    String.length s <= n ->
    decodeBody (s +:+ "'") = Some r ->
    String.length r <= String.length s
    /\ (mem_ascii SQUOTE s = true -> String.length r < String.length s).
Proof.
  induction n as [|n IH]; intros s r Hn H.
  - destruct s; [|cbn in Hn; lia]. cbn in H. injection H as <-. split; [lia | discriminate].
  - destruct s as [|c s]; [cbn in H; injection H as <-; split; [cbn; lia | discriminate]|].
    rewrite app_cons in H. cbn [decodeBody] in H.
    change (mem_ascii SQUOTE (String c s)) with (Ascii.eqb SQUOTE c || mem_ascii SQUOTE s).
    cbn [String.length] in Hn |- *.
    destruct (Ascii.eqb c BACKSLASH) eqn:Eb.
    + destruct s as [|d s]; [cbn in H; discriminate|].
      rewrite app_cons in H.
      destruct (decodeBody (s +:+ "'")) as [r'|] eqn:E; [|discriminate].
      cbn [option_map] in H. injection H as <-.
      cbn [String.length] in Hn |- *.
      destruct (IH s r' ltac:(lia) E) as [Hle Hlt].
      destruct (unescape_length d) as [H2 H1].
      rewrite length_app.
      apply Ascii.eqb_eq in Eb. subst c.
      change (mem_ascii SQUOTE (String d s)) with (Ascii.eqb SQUOTE d || mem_ascii SQUOTE s).
      split; [lia|].
      intros Hq. apply orb_prop in Hq as [Hq|Hq]; [discriminate|].
      apply orb_prop in Hq as [Hq|Hq].
      * rewrite Ascii.eqb_sym in Hq. specialize (H1 Hq). lia.
      * specialize (Hlt Hq). lia.
    + destruct (Ascii.eqb c SQUOTE) eqn:Eq.
      * destruct s as [|d s].
        -- rewrite app_nil_l in H. cbn in H. discriminate.
        -- rewrite app_cons in H. destruct (Ascii.eqb d SQUOTE); [|discriminate].
           destruct (decodeBody (s +:+ "'")) as [r'|] eqn:E; [|discriminate].
           cbn [option_map] in H. injection H as <-.
           cbn [String.length] in Hn |- *.
           destruct (IH s r' ltac:(lia) E) as [Hle _]. split; [lia | intros _; lia].
      * destruct (decodeBody (s +:+ "'")) as [r'|] eqn:E; [|discriminate].
        cbn [option_map] in H. injection H as <-.
        destruct (IH s r' ltac:(lia) E) as [Hle Hlt]. cbn [String.length].
        rewrite Ascii.eqb_sym, Eq. cbn [orb]. split; [lia|].
        intros Hq. specialize (Hlt Hq). lia.
Qed.

(** X16. A byte-slice value of an ENUM, SET or JSON column is written
    between quotes unchanged. A MySQL parser reads the literal back as the
    value when the value holds neither quote nor backslash, and never when
    it holds a single quote. *)
Theorem quoted_types_round_trip (fmtOther : ascii -> value -> string) (rev : Revision)
    (Type_ : string) (s : string) :
  oneOf (normalizeType Type_) quotedTypes = true ->
  formatColumn fmtOther rev Type_ (Bytes s) = Append ("'" +:+ s +:+ "'")
  /\ (mem_ascii SQUOTE s = false -> mem_ascii BACKSLASH s = false ->
      decodeLiteral ("'" +:+ s +:+ "'") = Some s)
  /\ (mem_ascii SQUOTE s = true -> decodeLiteral ("'" +:+ s +:+ "'") <> Some s).
Proof.
  intros HT. split; [now apply formatColumn_quoted|]. split.
  - intros Hq Hb.
    change (decodeLiteral ("'" +:+ s +:+ "'")) with (decodeBody (s +:+ "'")).
    clear HT. induction s as [|c s IH]; [reflexivity|].
    change (mem_ascii SQUOTE (String c s)) with (Ascii.eqb SQUOTE c || mem_ascii SQUOTE s) in Hq.
    change (mem_ascii BACKSLASH (String c s))
      with (Ascii.eqb BACKSLASH c || mem_ascii BACKSLASH s) in Hb.
    apply orb_false_iff in Hq as [Hq1 Hq2]. apply orb_false_iff in Hb as [Hb1 Hb2].
    rewrite app_cons. cbn [decodeBody].
    rewrite Ascii.eqb_sym, Hb1, Ascii.eqb_sym, Hq1, (IH Hq2 Hb2). reflexivity.
  - intros Hq H.
    change (decodeLiteral ("'" +:+ s +:+ "'")) with (decodeBody (s +:+ "'")) in H.
    destruct (decodeBody_length (String.length s) s s (Nat.le_refl _) H) as [_ Hlt].
    specialize (Hlt Hq). lia.
Qed.

Lemma quoted_types_round_trip_witness :
  formatColumn (fun _ _ => "") Sanitized "JSON" (Bytes "{}") = Append ("'" +:+ "{}" +:+ "'")
  /\ (mem_ascii SQUOTE "{}" = false -> mem_ascii BACKSLASH "{}" = false ->
      decodeLiteral ("'" +:+ "{}" +:+ "'") = Some "{}")
  /\ (mem_ascii SQUOTE "{}" = true -> decodeLiteral ("'" +:+ "{}" +:+ "'") <> Some "{}").
Proof.
  apply (quoted_types_round_trip (fun _ _ => "") Sanitized "JSON" "{}"). reflexivity.
Defined.

(** ** What the trigger cache holds *)

Section TriggerGroups.

Variable fmtOther : ascii -> value -> string.

Let ofTable (table : string) (triggers : list triggerStruct) : list triggerStruct :=
  List.filter (fun trigger => String.eqb (Table trigger) table) triggers.

Lemma fillTriggers_groups (columns : list string) (rows : list (list value)) :
  forall (m0 : gmap string (list triggerStruct)),
  exists m,
    fillTriggers fmtOther columns (map ScanRow rows) m0 = (m, None)
    /\ forall table,
         triggersOf m table
         = triggersOf m0 table ++ ofTable table (map (parseTrigger fmtOther columns) rows).
Proof.
  induction rows as [|trgrow rows IH]; intros m0.
  - exists m0. split; [reflexivity|]. intros table. cbn. now rewrite List.app_nil_r.
  - cbn [map fillTriggers].
    destruct (IH (<[Table (parseTrigger fmtOther columns trgrow)
                    := triggersOf m0 (Table (parseTrigger fmtOther columns trgrow))
                       ++ [parseTrigger fmtOther columns trgrow]]> m0)) as (m & Hm & Hl).
    exists m. split; [exact Hm|]. intros table. rewrite Hl, triggersOf_insert.
    unfold ofTable. cbn [List.filter].
    destruct (String.eqb_spec (Table (parseTrigger fmtOther columns trgrow)) table) as [->|_].
    + now rewrite <- List.app_assoc.
    + reflexivity.
Qed.

(** X17. When [SHOW TRIGGERS] is answered and every row is scanned, the
    first call of [getTrigger] returns the triggers whose [Table] column
    names the table asked for, in the order of the answer, and the mapping
    it installs gives, for every table, just the triggers of that table in
    that order: no trigger is lost, duplicated or filed under another
    table. *)
Theorem getTrigger_groups_by_table (db : string -> error + Rows)
    (columns columnTypes : list string) (rows : list (list value)) (table : string) :
  db "SHOW TRIGGERS" = inr (mkRows (inr columns) (inr columnTypes) (map ScanRow rows)) ->
  exists m,
    getTrigger fmtOther db (mkSession None []) table
    = (mkSession (Some m) ["SHOW TRIGGERS"],
       (ofTable table (map (parseTrigger fmtOther columns) rows), None))
    /\ forall other,
         triggersOf m other = ofTable other (map (parseTrigger fmtOther columns) rows).
Proof.
  intros Hdb. unfold getTrigger. cbn [allTriggers queries app]. rewrite Hdb.
  cbn [Columns cursor].
  destruct (fillTriggers_groups columns rows ∅) as (m & -> & Hl).
  exists m.
  assert (H : forall other,
             triggersOf m other = ofTable other (map (parseTrigger fmtOther columns) rows)).
  { intros other. rewrite Hl. unfold triggersOf at 1. now rewrite lookup_empty. }
  split; [now rewrite H | exact H].
Qed.

(** X18. When the [SHOW TRIGGERS] query fails, the first call of
    [getTrigger] returns the error, yet it leaves an empty mapping behind:
    every later call in the process, for any table, returns no trigger and
    a nil error, and the query is never sent again. *)
Theorem getTrigger_failure_is_cached (db : string -> error + Rows) (e : error)
    (table : string) (tables : list string) :
  db "SHOW TRIGGERS" = inl e ->
  getTriggers fmtOther db (mkSession None []) (table :: tables)
  = (mkSession (Some ∅) ["SHOW TRIGGERS"],
     ([], Some e) :: map (fun _ => ([], None)) tables).
Proof.
  intros Hdb. cbn [getTriggers]. unfold getTrigger at 1.
  cbn [allTriggers queries app]. rewrite Hdb.
  rewrite getTriggers_cached.
  replace (map (fun t => (triggersOf (∅ : gmap string (list triggerStruct)) t,
                          @None error)) tables)
    with (map (fun _ : string => (@nil triggerStruct, @None error)) tables);
    [reflexivity|].
  apply map_ext. intros t. unfold triggersOf. now rewrite lookup_empty.
Qed.

Lemma fillTriggers_scan_error (columns : list string) (scanned : list (list value))
    (e : error) (rest : list Scanned) :
  forall (m0 : gmap string (list triggerStruct)),
  exists m,
    fillTriggers fmtOther columns (map ScanRow scanned ++ ScanErr e :: rest) m0 = (m, Some e)
    /\ forall t,
         triggersOf m t
         = triggersOf m0 t ++ ofTable t (map (parseTrigger fmtOther columns) scanned).
Proof.
  induction scanned as [|trgrow scanned IH]; intros m0.
  - exists m0. split; [reflexivity|]. intros t. cbn. now rewrite List.app_nil_r.
  - cbn [map app fillTriggers].
    destruct (IH (<[Table (parseTrigger fmtOther columns trgrow)
                    := triggersOf m0 (Table (parseTrigger fmtOther columns trgrow))
                       ++ [parseTrigger fmtOther columns trgrow]]> m0)) as (m & Hm & Hl).
    exists m. split; [exact Hm|]. intros t. rewrite Hl, triggersOf_insert.
    unfold ofTable. cbn [List.filter].
    destruct (String.eqb_spec (Table (parseTrigger fmtOther columns trgrow)) t) as [->|_].
    + now rewrite <- List.app_assoc.
    + reflexivity.
Qed.

(** X19. When scanning a row of the [SHOW TRIGGERS] answer fails, the first
    call of [getTrigger] returns the error and keeps the triggers scanned
    before it: every later call returns, with a nil error, the triggers of
    its table among those, so the triggers from the failed row on are left
    out without notice. *)
Theorem getTrigger_scan_error_is_cached (db : string -> error + Rows)
    (columns columnTypes : list string) (scanned : list (list value)) (e : error)
    (rest : list Scanned) (table : string) (tables : list string) :
  db "SHOW TRIGGERS"
  = inr (mkRows (inr columns) (inr columnTypes) (map ScanRow scanned ++ ScanErr e :: rest)) ->
  exists m,
    getTriggers fmtOther db (mkSession None []) (table :: tables)
    = (mkSession (Some m) ["SHOW TRIGGERS"],
       ([], Some e)
       :: map (fun t => (ofTable t (map (parseTrigger fmtOther columns) scanned), None))
              tables).
Proof.
  intros Hdb.
  destruct (fillTriggers_scan_error columns scanned e rest ∅) as (m & Hm & Hl). exists m.
  cbn [getTriggers]. unfold getTrigger at 1.
  cbn [allTriggers queries app]. rewrite Hdb. cbn [Columns cursor]. rewrite Hm.
  rewrite getTriggers_cached.
  replace (map (fun t => (triggersOf m t, @None error)) tables)
    with (map (fun t => (ofTable t (map (parseTrigger fmtOther columns) scanned),
                         @None error)) tables);
    [reflexivity|].
  apply map_ext. intros t. rewrite Hl. unfold triggersOf at 1. now rewrite lookup_empty.
Qed.

End TriggerGroups.

Lemma getTrigger_groups_by_table_witness :
  exists m,
    getTrigger (fun _ _ => "")
      (fun _ => inr (mkRows (inr ["Trigger"; "Table"]) (inr [])
                            (map ScanRow [[Bytes "a"; Bytes "t"]; [Bytes "b"; Bytes "u"]])))
      (mkSession None []) "t"
    = (mkSession (Some m) ["SHOW TRIGGERS"], ([mkTrigger "a" "" "t" "" ""], None))
    /\ forall other,
         triggersOf m other
         = List.filter (fun trigger => String.eqb (Table trigger) other)
             [mkTrigger "a" "" "t" "" ""; mkTrigger "b" "" "u" "" ""].
Proof.
  apply (getTrigger_groups_by_table (fun _ _ => "")
           (fun _ => inr (mkRows (inr ["Trigger"; "Table"]) (inr [])
                                 (map ScanRow [[Bytes "a"; Bytes "t"]; [Bytes "b"; Bytes "u"]])))
           ["Trigger"; "Table"] [] [[Bytes "a"; Bytes "t"]; [Bytes "b"; Bytes "u"]] "t").
  reflexivity.
Defined.

Lemma getTrigger_failure_is_cached_witness :
  getTriggers (fun _ _ => "") (fun _ => inl "connection lost") (mkSession None [])
              ("t" :: ["u"; "t"])
  = (mkSession (Some ∅) ["SHOW TRIGGERS"],
     ([], Some "connection lost") :: map (fun _ => ([], None)) ["u"; "t"]).
Proof.
  apply (getTrigger_failure_is_cached (fun _ _ => "") (fun _ => inl "connection lost")
           "connection lost" "t" ["u"; "t"]).
  reflexivity.
Defined.

Lemma getTrigger_scan_error_is_cached_witness :
  exists m,
    getTriggers (fun _ _ => "")
      (fun _ => inr (mkRows (inr ["Trigger"; "Table"]) (inr [])
                            (map ScanRow [[Bytes "a"; Bytes "t"]]
                             ++ ScanErr "bad row" :: [ScanRow [Bytes "b"; Bytes "t"]])))
      (mkSession None []) ("t" :: ["t"])
    = (mkSession (Some m) ["SHOW TRIGGERS"],
       [([], Some "bad row"); ([mkTrigger "a" "" "t" "" ""], None)]).
Proof.
  apply (getTrigger_scan_error_is_cached (fun _ _ => "")
           (fun _ => inr (mkRows (inr ["Trigger"; "Table"]) (inr [])
                                 (map ScanRow [[Bytes "a"; Bytes "t"]]
                                  ++ ScanErr "bad row" :: [ScanRow [Bytes "b"; Bytes "t"]])))
           ["Trigger"; "Table"] [] [[Bytes "a"; Bytes "t"]] "bad row"
           [ScanRow [Bytes "b"; Bytes "t"]] "t" ["t"]).
  reflexivity.
Defined.

(** ** The orchestrator *)

Import Orchestrator.

Section RunInvariant.

Variable fmtOther : ascii -> value -> string.
Variable srv : Database.
Variable opts : list DumpOption.

(** A relation between sessions that every step of a run keeps. *)
Variable R : Session -> Session -> Prop.
Hypothesis R_refl : forall st, R st st.
Hypothesis R_trans : forall st1 st2 st3, R st1 st2 -> R st2 st3 -> R st1 st3.
Hypothesis R_plain : forall st q, plainQuery q -> R st (sent st q).
Hypothesis R_trigger : forall db st table, R st (fst (getTrigger fmtOther db st table)).
Hypothesis R_data : forall st table,
  isData (applyDumpOptions opts) = true -> R st (sent st (selectAllQuery table)).

Lemma keeps_ret {A : Type} (a : A) : keeps R (ret a).
Proof. intros st buf. apply R_refl. Qed.

Lemma keeps_write (s : string) : keeps R (write s).
Proof. intros st buf. apply R_refl. Qed.

Lemma keeps_stop {A : Type} (e : error) : keeps R (@stop A e).
Proof. intros st buf. apply R_refl. Qed.

Lemma keeps_bind {A B : Type} (m : Prog A) (k : A -> Prog B) :
  keeps R m -> (forall a, keeps R (k a)) -> keeps R (bind m k).
Proof.
  intros Hm Hk st buf. unfold bind. specialize (Hm st buf).
  destruct (m st buf) as [a st' buf'|e st' buf'|st']; cbn [sessionOf] in *; auto.
  eapply R_trans; [exact Hm | apply Hk].
Qed.

Lemma keeps_if {A : Type} (b : bool) (p q : Prog A) :
  keeps R p -> keeps R q -> keeps R (if b then p else q).
Proof. destruct b; auto. Qed.

Lemma keeps_forEach {A : Type} (body : A -> Prog unit) (l : list A) :
  (forall a, keeps R (body a)) -> keeps R (forEach body l).
Proof.
  intros Hb. induction l as [|a l IH]; cbn [forEach].
  - apply keeps_ret.
  - apply keeps_bind; auto.
Qed.

Lemma keeps_exec (q : string) : plainQuery q -> keeps R (exec srv q).
Proof.
  intros Hq st buf. unfold exec.
  destruct (execError srv (queries st) q); cbn [sessionOf]; auto.
Qed.

Lemma keeps_queryRow (q : string) (n : nat) : plainQuery q -> keeps R (queryRow srv q n).
Proof.
  intros Hq st buf. unfold queryRow.
  destruct (rowOf srv (queries st) q) as [e|cols]; cbn [sessionOf]; auto.
  destruct (length cols =? n); cbn [sessionOf]; auto.
Qed.

Lemma keeps_queryNames (q : string) : plainQuery q -> keeps R (queryNames srv q).
Proof.
  intros Hq st buf. unfold queryNames.
  destruct (namesOf srv (queries st) q) as [e|rows]; cbn [sessionOf]; auto.
  destruct (scanNames rows []); cbn [sessionOf]; auto.
Qed.

Lemma keeps_getTableType (table : string) : keeps R (getTableType srv table).
Proof.
  unfold getTableType. apply keeps_bind.
  - apply keeps_queryRow; constructor.
  - intros cols. repeat apply keeps_if; apply keeps_ret.
Qed.

Lemma keeps_writeTableStruct (table : string) : keeps R (writeTableStruct srv table).
Proof.
  unfold writeTableStruct, getCreateTableSQL.
  repeat (apply keeps_bind; [try apply keeps_write | intros ?]); try apply keeps_write.
  - apply keeps_queryRow; constructor.
  - apply keeps_ret.
Qed.

Lemma keeps_writeViewStruct (table : string) : keeps R (writeViewStruct srv table).
Proof.
  unfold writeViewStruct.
  repeat (apply keeps_bind; [try apply keeps_write | intros ?]); try apply keeps_write.
  apply keeps_queryRow; constructor.
Qed.

Lemma keeps_writeTableTrigger (table : string) :
  keeps R (writeTableTrigger fmtOther srv table).
Proof.
  intros st buf. unfold writeTableTrigger.
  pose proof (R_trigger (rowsOf srv (queries st)) st table) as H.
  destruct (getTrigger fmtOther (rowsOf srv (queries st)) st table) as [st' [triggers [e|]]];
    exact H.
Qed.

Lemma keeps_runTableData (table : string) (perData : Z) :
  isData (applyDumpOptions opts) = true ->
  keeps R (runTableData fmtOther srv table perData).
Proof.
  intros Hd st buf. unfold runTableData.
  destruct (writeTableData _ _ _ _ _) as [[text [e|]]|]; cbn [sessionOf]; auto.
Qed.

Lemma keeps_dumpTable (o : dumpOption) (table : string) :
  isData o = isData (applyDumpOptions opts) ->
  keeps R (dumpTable fmtOther srv o table).
Proof.
  intros Ho. unfold dumpTable.
  apply keeps_bind; [apply keeps_getTableType | intros tt_].
  apply keeps_bind; [| intros _].
  - apply keeps_if; [| apply keeps_ret].
    apply keeps_bind; [apply keeps_if; [apply keeps_write | apply keeps_ret] | intros _].
    apply keeps_bind; [apply keeps_writeTableStruct | intros _].
    apply keeps_bind; [| intros _; apply keeps_writeTableTrigger].
    destruct (isData o) eqn:Ed; [| apply keeps_ret].
    apply keeps_runTableData. congruence.
  - apply keeps_if; [| apply keeps_ret].
    apply keeps_bind; [apply keeps_if; [apply keeps_write | apply keeps_ret] | intros _].
    apply keeps_writeViewStruct.
Qed.

Lemma keeps_dumpDatabase (o : dumpOption) (useDb : bool) (dbStr : string) :
  isData o = isData (applyDumpOptions opts) ->
  keeps R (dumpDatabase fmtOther srv o useDb dbStr).
Proof.
  intros Ho. unfold dumpDatabase.
  apply keeps_bind; [apply keeps_exec; constructor | intros _].
  apply keeps_bind; [| intros tbls].
  - apply keeps_if; [apply keeps_queryNames; constructor | apply keeps_ret].
  - apply keeps_bind; [apply keeps_if; [apply keeps_write | apply keeps_ret] | intros _].
    apply keeps_forEach. intros table. now apply keeps_dumpTable.
Qed.

Lemma keeps_Dump (clock : Clock) (dsn : string) :
  keeps R (Dump fmtOther srv clock dsn opts).
Proof.
  unfold Dump.
  apply keeps_bind; [| intros databases].
  { apply keeps_if; [| apply keeps_ret].
    destruct (GetDBNameFromDSN dsn); [apply keeps_stop | apply keeps_ret]. }
  apply keeps_bind; [| intros dbHost].
  { destruct (GetDBHostFromDSN dsn); [apply keeps_stop | apply keeps_ret]. }
  apply keeps_bind; [| intros _].
  { destruct (openError srv dsn); [apply keeps_stop | apply keeps_ret]. }
  apply keeps_bind; [apply keeps_queryRow; constructor | intros cols].
  apply keeps_bind; [apply keeps_write | intros _].
  apply keeps_bind; [| intros dbs'].
  { apply keeps_if; [apply keeps_queryNames; constructor | apply keeps_ret]. }
  apply keeps_bind; [| intros _; apply keeps_write].
  apply keeps_forEach. intros dbStr. now apply keeps_dumpDatabase.
Qed.

End RunInvariant.

Lemma plainQuery_other (q : string) :
  plainQuery q -> isTriggerQuery q = false /\ readsRows q = false.
Proof. intros []; split; reflexivity. Qed.

Lemma triggerQueries_app (a b : list string) :
  triggerQueries (a ++ b) = triggerQueries a + triggerQueries b.
Proof. unfold triggerQueries. now rewrite List.filter_app, List.length_app. Qed.

Lemma withinBudget_refl (st : Session) : withinBudget st st.
Proof.
  split; [| lia]. exists []. unfold reached. now rewrite List.app_nil_r.
Qed.

Lemma withinBudget_trans (st1 st2 st3 : Session) :
  withinBudget st1 st2 -> withinBudget st2 st3 -> withinBudget st1 st3.
Proof.
  intros [[a Ha] H1] [[b Hb] H2]. split; [| lia].
  exists (a ++ b). unfold reached in *. now rewrite Hb, Ha, <- List.app_assoc.
Qed.

Lemma withinBudget_sent (st : Session) (q : string) :
  isTriggerQuery q = false -> withinBudget st (sent st q).
Proof.
  intros Hq. split; [now exists [q] |].
  unfold triggerBudget, sent; cbn [queries allTriggers].
  rewrite triggerQueries_app. unfold triggerQueries at 2. cbn [List.filter].
  rewrite Hq. cbn [length]. lia.
Qed.

Lemma withinBudget_getTrigger (fmtOther : ascii -> value -> string)
    (db : string -> error + Rows) (st : Session) (table : string) :
  withinBudget st (fst (getTrigger fmtOther db st table)).
Proof.
  unfold getTrigger. destruct (allTriggers st) as [m|] eqn:Em.
  - apply withinBudget_refl.
  - assert (forall m, withinBudget st (mkSession (Some m) (queries st ++ ["SHOW TRIGGERS"])))
      as H.
    { intros m. split; [now exists ["SHOW TRIGGERS"] |].
      unfold triggerBudget; cbn [queries allTriggers]. rewrite Em, triggerQueries_app.
      cbn. lia. }
    destruct (db "SHOW TRIGGERS") as [e|trgs]; cbn [fst]; [apply H |].
    destruct (fillTriggers _ _ _ _) as [m [e|]]; cbn [fst]; apply H.
Qed.

(** X20. Whatever the server answers and however many databases and tables
    are dumped, a run of [Dump] sends [SHOW TRIGGERS] at most once, and not
    at all when the package variable [allTriggers] is already loaded, as
    an earlier [Dump] of the same process leaves it. *)
Theorem Dump_asks_for_triggers_at_most_once (fmtOther : ascii -> value -> string)
    (srv : Database) (clock : Clock) (dsn : string) (opts : list DumpOption)
    (st : Session) (buf : string) :
  exists asked,
    reached st (sessionOf (Dump fmtOther srv clock dsn opts st buf)) asked
    /\ triggerQueries asked <= match allTriggers st with Some _ => 0 | None => 1 end.
Proof.
  destruct (keeps_Dump fmtOther srv opts withinBudget withinBudget_refl withinBudget_trans
              (fun st q H => withinBudget_sent st q (proj1 (plainQuery_other q H)))
              (withinBudget_getTrigger fmtOther)
              (fun st table _ => withinBudget_sent st (selectAllQuery table) eq_refl)
              clock dsn st buf) as [[asked Ha] Hb].
  exists asked. split; [exact Ha |].
  unfold triggerBudget in Hb. rewrite Ha, triggerQueries_app in Hb.
  destruct (allTriggers (sessionOf _)); lia.
Qed.

Lemma withoutRows_refl (st : Session) : withoutRows st st.
Proof. exists []. split; [unfold reached; now rewrite List.app_nil_r | reflexivity]. Qed.

Lemma withoutRows_trans (st1 st2 st3 : Session) :
  withoutRows st1 st2 -> withoutRows st2 st3 -> withoutRows st1 st3.
Proof.
  intros (a & Ha & Pa) (b & Hb & Pb). exists (a ++ b). split.
  - unfold reached in *. now rewrite Hb, Ha, <- List.app_assoc.
  - now rewrite forallb_app, Pa, Pb.
Qed.

Lemma withoutRows_sent (st : Session) (q : string) :
  readsRows q = false -> withoutRows st (sent st q).
Proof.
  intros Hq. exists [q]. split; [reflexivity |]. cbn [forallb]. now rewrite Hq.
Qed.

Lemma withoutRows_getTrigger (fmtOther : ascii -> value -> string)
    (db : string -> error + Rows) (st : Session) (table : string) :
  withoutRows st (fst (getTrigger fmtOther db st table)).
Proof.
  unfold getTrigger. destruct (allTriggers st) as [m|].
  - apply withoutRows_refl.
  - assert (forall m, withoutRows st (mkSession (Some m) (queries st ++ ["SHOW TRIGGERS"])))
      as H by (intros m; now exists ["SHOW TRIGGERS"]).
    destruct (db "SHOW TRIGGERS") as [e|trgs]; cbn [fst]; [apply H |].
    destruct (fillTriggers _ _ _ _) as [m [e|]]; cbn [fst]; apply H.
Qed.

(** X21. Without the option [WithData], a run of [Dump] reads the rows of no
    table: whatever the server answers, none of the queries it sends
    starts with [SELECT * FROM]. *)
Theorem Dump_without_data_reads_no_rows (fmtOther : ascii -> value -> string)
    (srv : Database) (clock : Clock) (dsn : string) (opts : list DumpOption)
    (st : Session) (buf : string) :
  isData (applyDumpOptions opts) = false ->
  exists asked,
    reached st (sessionOf (Dump fmtOther srv clock dsn opts st buf)) asked
    /\ forallb (fun q => negb (readsRows q)) asked = true.
Proof.
  intros Hd.
  apply (keeps_Dump fmtOther srv opts withoutRows withoutRows_refl withoutRows_trans
           (fun st q H => withoutRows_sent st q (proj2 (plainQuery_other q H)))
           (withoutRows_getTrigger fmtOther)).
  intros st' table H. congruence.
Qed.

Lemma Dump_without_data_reads_no_rows_witness :
  exists asked,
    reached freshSession
      (sessionOf (Dump (fun _ _ => "") shopServer exampleClock "root:pw@tcp(db:3306)/shop"
                       [WithDropTable; WithAllDatabases] freshSession ""))
      asked
    /\ forallb (fun q => negb (readsRows q)) asked = true.
Proof.
  apply (Dump_without_data_reads_no_rows (fun _ _ => "") shopServer exampleClock
           "root:pw@tcp(db:3306)/shop" [WithDropTable; WithAllDatabases] freshSession "").
  reflexivity.
Defined.

Lemma GetDBNameFromDSN_fails (dsn : string) :
  countChar "/" dsn <> 1 -> GetDBNameFromDSN dsn = inl ("dsn error: " +:+ dsn).
Proof.
  intros H. unfold GetDBNameFromDSN, splitS, Split.
  pose proof (Split_length "/" dsn "") as Hl. change (str1 "/") with "/" in Hl.
  destruct (split_from "/" 0 "" dsn) as [|a [|b [|c l]]]; cbn [length] in Hl;
    try reflexivity. lia.
Qed.

Lemma GetDBHostFromDSN_fails (dsn : string) :
  countChar "@" dsn <> 1 -> GetDBHostFromDSN dsn = inl ("dsn error: " +:+ dsn).
Proof.
  intros H. unfold GetDBHostFromDSN, splitS, Split.
  pose proof (Split_length "@" dsn "") as Hl. change (str1 "@") with "@" in Hl.
  destruct (split_from "@" 0 "" dsn) as [|a [|b [|c l]]]; cbn [length] in Hl;
    try reflexivity. lia.
Qed.

Lemma GetDBNameFromDSN_inl (dsn : string) (e : error) :
  GetDBNameFromDSN dsn = inl e -> e = "dsn error: " +:+ dsn.
Proof.
  unfold GetDBNameFromDSN.
  destruct (splitS dsn "/") as [|a [|b [|c l]]]; intros H; now inversion H.
Qed.

(** X22. A DSN that does not hold exactly one [@], or, when no database is
    named by [WithDBs], not exactly one [/], makes [Dump] return the error
    [dsn error: <dsn>] before it connects: no query is sent and nothing
    is written. A password with an [@] or a [/], or a socket path, is
    enough for that. *)
Theorem Dump_rejects_dsn (fmtOther : ascii -> value -> string) (srv : Database)
    (clock : Clock) (dsn : string) (opts : list DumpOption) (st : Session) (buf : string) :
  countChar "@" dsn <> 1
  \/ (dbs (applyDumpOptions opts) = [] /\ countChar "/" dsn <> 1) ->
  Dump fmtOther srv clock dsn opts st buf = Stop ("dsn error: " +:+ dsn) st buf.
Proof.
  intros H. unfold Dump, bind.
  destruct (dbs (applyDumpOptions opts)) as [|d l] eqn:Ed; cbn [length Nat.eqb].
  - destruct (GetDBNameFromDSN dsn) as [e|dbName] eqn:En.
    + apply GetDBNameFromDSN_inl in En as ->. reflexivity.
    + unfold ret. destruct H as [H|[_ H]].
      * now rewrite (GetDBHostFromDSN_fails dsn H).
      * rewrite (GetDBNameFromDSN_fails dsn H) in En. discriminate.
  - unfold ret. destruct H as [H|[H _]]; [| discriminate].
    now rewrite (GetDBHostFromDSN_fails dsn H).
Qed.

Lemma Dump_rejects_dsn_witness :
  Dump (fun _ _ => "") shopServer exampleClock "root:p@ss@tcp(db:3306)/shop" [WithData]
       freshSession ""
  = Stop ("dsn error: " +:+ "root:p@ss@tcp(db:3306)/shop") freshSession "".
Proof.
  apply (Dump_rejects_dsn (fun _ _ => "") shopServer exampleClock
           "root:p@ss@tcp(db:3306)/shop" [WithData] freshSession "").
  left. vm_compute. discriminate.
Defined.

(** ** A dump read back by [Source] *)

Lemma terminatedLines_statement (x rest : string) :
  mem_ascii SEMI x = false ->
  terminatedLines (x +:+ ";" +:+ rest) = (x +:+ ";") :: terminatedLines rest.
Proof.
  intros Hx. rewrite terminatedLines_cut.
  change (";" +:+ rest) with (String SEMI rest).
  now rewrite (cut_found SEMI x rest Hx).
Qed.

(** A statement that starts with no white space and holds one terminator,
    at its end, is dispatched as it stands, without the white space ahead
    of it. *)
Lemma dispatched_statement (ws x rest : string) :
  allAsciiSpace ws = true -> mem_ascii SEMI x = false ->
  spaceRuneLen (x +:+ ";") = 0 ->
  map trim (terminatedLines (ws +:+ x +:+ ";" +:+ rest))
  = (x +:+ ";") :: map trim (terminatedLines rest).
Proof.
  intros Hws Hx Hs. rewrite <- (app_assoc ws x).
  rewrite terminatedLines_statement
    by (rewrite mem_ascii_app, (allAsciiSpace_no_semi ws Hws), Hx; reflexivity).
  cbn [map]. f_equal. rewrite app_assoc. now apply trim_statement.
Qed.

Lemma concat_noSemi (sep : string) (l : list string) :
  mem_ascii SEMI sep = false -> forallb noSemi l = true ->
  mem_ascii SEMI (String.concat sep l) = false.
Proof.
  intros Hsep. induction l as [|x l IH]; intros Hl; [reflexivity|].
  cbn [forallb] in Hl. apply andb_prop in Hl as [Hx Hl].
  apply negb_true_iff in Hx.
  destruct l as [|y l]; [exact Hx|].
  change (String.concat sep (x :: y :: l)) with (x +:+ sep +:+ String.concat sep (y :: l)).
  now rewrite !mem_ascii_app, Hx, Hsep, (IH Hl).
Qed.

Lemma Source_dispatches (srv : Server) (dsn dbName input : string)
    (opts : list SourceOption) (statements : list string) :
  GetDBNameFromDSN dsn = inr dbName ->
  open_error srv dsn = None ->
  (opt_mergeInsert (applyOptions opts) <= 1)%Z ->
  (forall q, Exec (wrapperOf srv opts) q = None) ->
  map trim (terminatedLines input) = statements ->
  Source srv dsn (mkReader input None) opts
  = (["USE " +:+ dbName +:+ ";"; "SET autocommit=0;"] ++ statements
     ++ ["COMMIT;"; "SET autocommit=1;"], None).
Proof.
  intros Hdsn Hopen Hm Hx <-. unfold Source. rewrite Hdsn, Hopen.
  fold (wrapperOf srv opts). cbn [execAll]. rewrite !Hx.
  cbn [pending]. rewrite (source_loop_unmerged _ _ Hm Hx) by lia.
  cbn [app]. now rewrite <- !List.app_assoc.
Qed.

Section DataSection.

Variable fmtOther : ascii -> value -> string.
Variable rev : Revision.
Variable table : string.
Variables columns columnTypes : list string.
Variable N : Z.

Hypothesis table_plain : mem_ascii SEMI table = false.

Lemma writeTableData_text (rows : list (list value)) (tuples : list string) :
  rows <> [] ->
  Forall2 (fun row t => buildRowData fmtOther rev row columnTypes = Returned (t, None))
          rows tuples ->
  writeTableData fmtOther rev (inr (mkRows (inr columns) (inr columnTypes) (map ScanRow rows)))
                 table N
  = Returned
      (dataPrologue rev table
       +:+ concatAll (map (renderBatch table columns) (batchesOf N tuples))
       +:+ dataFooter table, None).
Proof.
  intros Hrows Hfmt.
  assert (Hne : tuples <> []) by (destruct Hfmt; [contradiction | discriminate]).
  rewrite writeTableData_frame.
  rewrite (writeRows_formatted _ _ _ _ _ _ _ _ Hfmt). unfold dataEpilogue, batchesOf.
  destruct (N <? 2)%Z eqn:EN.
  - apply Z.ltb_lt in EN.
    pose proof (emitted_single table columns N EN tuples 0 (Z.le_refl 0) Hne) as He.
    cbn [Z.ltb Z.compare] in He. rewrite app_nil_l in He.
    rewrite map_map. rewrite <- He. now rewrite !app_assoc.
  - apply Z.ltb_ge in EN.
    pose proof (emitted_chunks table columns N EN (length tuples) tuples 0
                  (Nat.le_refl _) Hne (Z.le_refl 0)) as He.
    cbn [Z.mul Z.ltb Z.compare] in He. rewrite app_nil_l in He.
    rewrite <- He. now rewrite !app_assoc.
Qed.

Lemma lock_plain : mem_ascii SEMI (commentRule +:+ sectionHeader rev table +:+ commentRule
                                   +:+ "LOCK TABLES `" +:+ table +:+ "` WRITE") = false.
Proof.
  rewrite !mem_ascii_app, table_plain.
  destruct rev; cbn [sectionHeader]; rewrite !mem_ascii_app, table_plain; reflexivity.
Qed.

Lemma keys_plain (word : string) :
  mem_ascii SEMI word = false ->
  mem_ascii SEMI ("/*!40000 ALTER TABLE `" +:+ table +:+ "` " +:+ word +:+ " KEYS */") = false.
Proof. intros H. now rewrite !mem_ascii_app, table_plain, H. Qed.

(** What [Source] dispatches for the statements that close a data section. *)
Lemma dispatched_footer :
  map trim (terminatedLines (str1 LF +:+ dataFooter table))
  = [enableKeys table; "UNLOCK TABLES;"].
Proof.
  unfold dataFooter, enableKeys.
  replace (str1 LF
           +:+ ("/*!40000 ALTER TABLE `" +:+ table +:+ "` ENABLE KEYS */;" +:+ str1 LF
                +:+ "UNLOCK TABLES;" +:+ str1 LF +:+ str1 LF))
    with (str1 LF +:+ ("/*!40000 ALTER TABLE `" +:+ table +:+ "` " +:+ "ENABLE" +:+ " KEYS */")
          +:+ ";" +:+ (str1 LF +:+ "UNLOCK TABLES" +:+ ";" +:+ (str1 LF +:+ str1 LF)))
    by (rewrite !app_assoc; reflexivity).
  rewrite dispatched_statement; [| reflexivity | now apply keys_plain | reflexivity].
  rewrite dispatched_statement; [| reflexivity | reflexivity | reflexivity].
  rewrite !app_assoc. reflexivity.
Qed.

(** What it dispatches for the statements that open one. *)
Lemma dispatched_prologue (rest : string) :
  map trim (terminatedLines (dataPrologue rev table +:+ rest))
  = lockStatement rev table :: disableKeys table
    :: map trim (terminatedLines (str1 LF +:+ rest)).
Proof.
  unfold dataPrologue, lockStatement, disableKeys.
  replace ((commentRule +:+ sectionHeader rev table +:+ commentRule
            +:+ "LOCK TABLES `" +:+ table +:+ "` WRITE;" +:+ str1 LF
            +:+ "/*!40000 ALTER TABLE `" +:+ table +:+ "` DISABLE KEYS */;" +:+ str1 LF)
           +:+ rest)
    with ("" +:+ (commentRule +:+ sectionHeader rev table +:+ commentRule
                  +:+ "LOCK TABLES `" +:+ table +:+ "` WRITE")
          +:+ ";"
          +:+ (str1 LF +:+ ("/*!40000 ALTER TABLE `" +:+ table +:+ "` " +:+ "DISABLE"
                            +:+ " KEYS */")
               +:+ ";" +:+ (str1 LF +:+ rest)))
    by (rewrite !app_assoc; reflexivity).
  rewrite dispatched_statement; [| reflexivity | apply lock_plain | reflexivity].
  rewrite dispatched_statement; [| reflexivity | now apply keys_plain | reflexivity].
  rewrite !app_assoc. reflexivity.
Qed.

Hypothesis columns_plain : forallb noSemi columns = true.

Lemma dispatched_batches (batches : list (list string)) (rest : string) :
  forallb (forallb noSemi) batches = true ->
  map trim (terminatedLines
              (str1 LF +:+ concatAll (map (renderBatch table columns) batches) +:+ rest))
  = map (insertOf table columns) batches ++ map trim (terminatedLines (str1 LF +:+ rest)).
Proof.
  induction batches as [|b batches IH]; intros Hb; [reflexivity|].
  cbn [forallb] in Hb. apply andb_prop in Hb as [Hb Hbs].
  cbn [map concatAll fold_right]. fold (concatAll (map (renderBatch table columns) batches)).
  unfold renderBatch at 1, insertOf at 1.
  set (tuples := String.concat ("," +:+ str1 LF) (map (fun t => "(" +:+ t +:+ ")") b)).
  replace (str1 LF
           +:+ ((insertPrefix table columns +:+ tuples +:+ ";" +:+ str1 LF)
                +:+ concatAll (map (renderBatch table columns) batches))
           +:+ rest)
    with (str1 LF +:+ (insertPrefix table columns +:+ tuples) +:+ ";"
          +:+ (str1 LF +:+ concatAll (map (renderBatch table columns) batches) +:+ rest))
    by (rewrite !app_assoc; reflexivity).
  rewrite dispatched_statement.
  - rewrite (IH Hbs). cbn [app]. now rewrite !app_assoc.
  - reflexivity.
  - unfold insertPrefix, Join. rewrite !mem_ascii_app, table_plain.
    rewrite (concat_noSemi "`,`" columns eq_refl columns_plain).
    cbn [orb]. change (mem_ascii SEMI (str1 LF)) with false. cbn [orb].
    subst tuples. apply concat_noSemi; [reflexivity|].
    clear -Hb. induction b as [|t b IHb]; [reflexivity|].
    cbn [forallb map] in *. apply andb_prop in Hb as [Ht Hb]. rewrite (IHb Hb), andb_true_r.
    unfold noSemi in *. apply negb_true_iff in Ht. apply negb_true_iff.
    now rewrite !mem_ascii_app, Ht.
  - unfold insertPrefix. rewrite !app_assoc. reflexivity.
Qed.

End DataSection.

Lemma forallb_chunks_fuel {A : Type} (p : A -> bool) (n fuel : nat) :
  forall l : list A, forallb p l = true -> forallb (forallb p) (chunks_fuel fuel n l) = true.
Proof.
  induction fuel as [|fuel IH]; intros l Hl; [reflexivity|].
  destruct l as [|a l]; [reflexivity|].
  cbn [chunks_fuel forallb].
  now rewrite (forallb_take p n (a :: l) Hl), (IH _ (forallb_drop p n (a :: l) Hl)).
Qed.

Lemma forallb_batchesOf (p : string -> bool) (N : Z) (tuples : list string) :
  forallb p tuples = true -> forallb (forallb p) (batchesOf N tuples) = true.
Proof.
  intros H. unfold batchesOf. destruct (N <? 2)%Z.
  - induction tuples as [|t tuples IH]; [reflexivity|].
    cbn [forallb map] in *. apply andb_prop in H as [Ht H]. now rewrite Ht, (IH H).
  - now apply forallb_chunks_fuel.
Qed.

(** X23. What [writeTableData] writes for a table is read back by [Source]
    statement by statement, when neither the names nor the row texts hold
    a [;]: with the default merge size, against a server that accepts
    every statement, [Source] dispatches the [LOCK TABLES] statement (with
    the comment lines ahead of it), [DISABLE KEYS], one [INSERT] for each
    batch of rows with all its tuples, [ENABLE KEYS] and [UNLOCK TABLES],
    and nothing else between [SET autocommit=0] and [COMMIT]. *)
Theorem written_rows_are_restored (fmtOther : ascii -> value -> string) (rev : Revision)
    (table : string) (columns columnTypes : list string) (N : Z)
    (rows : list (list value)) (tuples : list string)
    (srv : Server) (dsn dbName : string) (opts : list SourceOption) :
  GetDBNameFromDSN dsn = inr dbName ->
  open_error srv dsn = None ->
  (opt_mergeInsert (applyOptions opts) <= 1)%Z ->
  (forall q, Exec (wrapperOf srv opts) q = None) ->
  mem_ascii SEMI table = false ->
  forallb noSemi columns = true ->
  forallb noSemi tuples = true ->
  rows <> [] ->
  Forall2 (fun row t => buildRowData fmtOther rev row columnTypes = Returned (t, None))
          rows tuples ->
  exists text,
    writeTableData fmtOther rev
      (inr (mkRows (inr columns) (inr columnTypes) (map ScanRow rows))) table N
    = Returned (text, None)
    /\ Source srv dsn (mkReader text None) opts
       = (["USE " +:+ dbName +:+ ";"; "SET autocommit=0;";
           lockStatement rev table; disableKeys table]
          ++ map (insertOf table columns) (batchesOf N tuples)
          ++ [enableKeys table; "UNLOCK TABLES;"; "COMMIT;"; "SET autocommit=1;"], None).
Proof.
  intros Hdsn Hopen Hm Hx Ht Hc Htu Hrows Hfmt.
  eexists. split; [exact (writeTableData_text _ _ _ _ _ _ _ _ Hrows Hfmt) |].
  rewrite (Source_dispatches srv dsn dbName _ opts _ Hdsn Hopen Hm Hx eq_refl).
  rewrite (dispatched_prologue rev table Ht).
  rewrite (dispatched_batches table columns Ht Hc _ _ (forallb_batchesOf noSemi N tuples Htu)).
  rewrite (dispatched_footer table Ht).
  cbn [app]. now rewrite <- !List.app_assoc.
Qed.

Lemma written_rows_are_restored_witness :
  exists text,
    writeTableData (fun _ _ => "") Inline
      (inr (mkRows (inr ["id"; "name"]) (inr ["INT"; "VARCHAR"])
                   (map ScanRow [[Int64 1; Bytes "a"]; [Int64 2; Bytes "b"];
                                 [Int64 3; Nil]])))
      "item" 2
    = Returned (text, None)
    /\ Source acceptAll "root:secret@tcp(127.0.0.1:3306)/shop" (mkReader text None) []
       = (["USE " +:+ "shop" +:+ ";"; "SET autocommit=0;";
           lockStatement Inline "item"; disableKeys "item"]
          ++ map (insertOf "item" ["id"; "name"]) (batchesOf 2 ["1,'a'"; "2,'b'"; "3,NULL"])
          ++ [enableKeys "item"; "UNLOCK TABLES;"; "COMMIT;"; "SET autocommit=1;"], None).
Proof.
  apply (written_rows_are_restored (fun _ _ => "") Inline "item" ["id"; "name"]
           ["INT"; "VARCHAR"] 2
           [[Int64 1; Bytes "a"]; [Int64 2; Bytes "b"]; [Int64 3; Nil]]
           ["1,'a'"; "2,'b'"; "3,NULL"]
           acceptAll "root:secret@tcp(127.0.0.1:3306)/shop" "shop" []).
  - vm_compute. reflexivity.
  - reflexivity.
  - vm_compute. discriminate.
  - intros q. reflexivity.
  - reflexivity.
  - reflexivity.
  - reflexivity.
  - discriminate.
  - repeat constructor.
Defined.

(** X24. The data section that [writeTableData] writes for a table without
    rows makes [Source] dispatch a statement that holds nothing but the
    terminator, between [DISABLE KEYS] and [ENABLE KEYS]. *)
Theorem empty_table_restores_an_empty_statement (fmtOther : ascii -> value -> string)
    (rev : Revision) (table : string) (columns columnTypes : list string) (N : Z)
    (srv : Server) (dsn dbName : string) (opts : list SourceOption) :
  GetDBNameFromDSN dsn = inr dbName ->
  open_error srv dsn = None ->
  (opt_mergeInsert (applyOptions opts) <= 1)%Z ->
  (forall q, Exec (wrapperOf srv opts) q = None) ->
  mem_ascii SEMI table = false ->
  exists text,
    writeTableData fmtOther rev (inr (mkRows (inr columns) (inr columnTypes) [])) table N
    = Returned (text, None)
    /\ Source srv dsn (mkReader text None) opts
       = (["USE " +:+ dbName +:+ ";"; "SET autocommit=0;";
           lockStatement rev table; disableKeys table; ";";
           enableKeys table; "UNLOCK TABLES;"; "COMMIT;"; "SET autocommit=1;"], None).
Proof.
  intros Hdsn Hopen Hm Hx Ht.
  exists (dataPrologue rev table +:+ dataEpilogue table). split; [reflexivity |].
  rewrite (Source_dispatches srv dsn dbName _ opts _ Hdsn Hopen Hm Hx eq_refl).
  rewrite (dispatched_prologue rev table Ht). unfold dataEpilogue.
  replace (str1 LF +:+ ";" +:+ str1 LF +:+ dataFooter table)
    with (str1 LF +:+ "" +:+ ";" +:+ (str1 LF +:+ dataFooter table)) by reflexivity.
  rewrite dispatched_statement by reflexivity.
  rewrite (dispatched_footer table Ht). reflexivity.
Qed.

Lemma empty_table_restores_an_empty_statement_witness :
  exists text,
    writeTableData (fun _ _ => "") Inline (inr (mkRows (inr ["id"]) (inr ["INT"]) []))
                   "item" 0
    = Returned (text, None)
    /\ Source acceptAll "root:secret@tcp(127.0.0.1:3306)/shop" (mkReader text None) []
       = (["USE " +:+ "shop" +:+ ";"; "SET autocommit=0;";
           lockStatement Inline "item"; disableKeys "item"; ";";
           enableKeys "item"; "UNLOCK TABLES;"; "COMMIT;"; "SET autocommit=1;"], None).
Proof.
  apply (empty_table_restores_an_empty_statement (fun _ _ => "") Inline "item" ["id"] ["INT"] 0
           acceptAll "root:secret@tcp(127.0.0.1:3306)/shop" "shop" []).
  - vm_compute. reflexivity.
  - reflexivity.
  - vm_compute. discriminate.
  - intros q. reflexivity.
  - reflexivity.
Defined.

(** X25. [Source] does not know the [DELIMITER] directive that
    [writeTableTrigger] writes around every trigger. Reading the trigger
    section of a table that has at least one trigger, it cuts the line
    [DELIMITER ;;] at its first [;]: it dispatches the comment lines
    together with [DELIMITER ;] as one statement, then a statement that
    holds nothing but the terminator. *)
Theorem trigger_section_is_cut_at_DELIMITER (table : string) (v : triggerStruct)
    (more : list triggerStruct) (after : string)
    (srv : Server) (dsn dbName : string) (opts : list SourceOption) :
  GetDBNameFromDSN dsn = inr dbName ->
  open_error srv dsn = None ->
  (opt_mergeInsert (applyOptions opts) <= 1)%Z ->
  (forall q, Exec (wrapperOf srv opts) q = None) ->
  mem_ascii SEMI table = false ->
  exists rest,
    Source srv dsn (mkReader (triggerSection table (v :: more) +:+ after) None) opts
    = (["USE " +:+ dbName +:+ ";"; "SET autocommit=0;";
        triggerBanner table +:+ "DELIMITER ;"; ";"] ++ rest, None).
Proof.
  intros Hdsn Hopen Hm Hx Ht.
  rewrite (Source_dispatches srv dsn dbName _ opts _ Hdsn Hopen Hm Hx eq_refl).
  unfold triggerSection, Join. cbn [length Nat.ltb Nat.leb flat_map triggerLines app].
  do 4 rewrite concat_two.
  set (tail := String.concat (str1 LF) _).
  replace (("-- ----------------------------" +:+ str1 LF
            +:+ ("-- Dump table triggers of " +:+ table +:+ "--------") +:+ str1 LF
            +:+ "-- ----------------------------" +:+ str1 LF
            +:+ "DELIMITER ;;" +:+ str1 LF +:+ tail) +:+ after)
    with ("" +:+ (triggerBanner table +:+ "DELIMITER ") +:+ ";"
          +:+ ("" +:+ "" +:+ ";" +:+ (str1 LF +:+ tail +:+ after)))
    by (unfold triggerBanner; rewrite !app_assoc; reflexivity).
  rewrite dispatched_statement;
    [| reflexivity
     | unfold triggerBanner; rewrite !mem_ascii_app, Ht; reflexivity
     | reflexivity].
  rewrite dispatched_statement by reflexivity.
  exists (map trim (terminatedLines (str1 LF +:+ tail +:+ after))
          ++ ["COMMIT;"; "SET autocommit=1;"]).
  cbn [app]. now rewrite !app_assoc.
Qed.

Lemma trigger_section_is_cut_at_DELIMITER_witness :
  exists rest,
    Source acceptAll "root:secret@tcp(127.0.0.1:3306)/shop"
      (mkReader (triggerSection "item"
                   (mkTrigger "audit" "INSERT" "item" "SET @n = 1" "BEFORE" :: []) +:+ "")
                None) []
    = (["USE " +:+ "shop" +:+ ";"; "SET autocommit=0;";
        triggerBanner "item" +:+ "DELIMITER ;"; ";"] ++ rest, None).
Proof.
  apply (trigger_section_is_cut_at_DELIMITER "item"
           (mkTrigger "audit" "INSERT" "item" "SET @n = 1" "BEFORE") [] ""
           acceptAll "root:secret@tcp(127.0.0.1:3306)/shop" "shop" []).
  - vm_compute. reflexivity.
  - reflexivity.
  - vm_compute. discriminate.
  - intros q. reflexivity.
  - reflexivity.
Defined.

(** ** What a run sends, and what it takes from the cache *)

Lemma onlyDumpQueries_refl (st : Session) : onlyDumpQueries st st.
Proof.
  exists []. split; [unfold reached; now rewrite List.app_nil_r | constructor].
Qed.

Lemma onlyDumpQueries_trans (st1 st2 st3 : Session) :
  onlyDumpQueries st1 st2 -> onlyDumpQueries st2 st3 -> onlyDumpQueries st1 st3.
Proof.
  intros (a & Ha & Pa) (b & Hb & Pb). exists (a ++ b). split.
  - unfold reached in *. now rewrite Hb, Ha, <- List.app_assoc.
  - apply Forall_app. now split.
Qed.

Lemma onlyDumpQueries_sent (st : Session) (q : string) :
  dumpQuery q -> onlyDumpQueries st (sent st q).
Proof.
  intros Hq. exists [q]. split; [reflexivity |]. constructor; [exact Hq | constructor].
Qed.

Lemma onlyDumpQueries_getTrigger (fmtOther : ascii -> value -> string)
    (db : string -> error + Rows) (st : Session) (table : string) :
  onlyDumpQueries st (fst (getTrigger fmtOther db st table)).
Proof.
  unfold getTrigger. destruct (allTriggers st) as [m|].
  - apply onlyDumpQueries_refl.
  - assert (forall m, onlyDumpQueries st (mkSession (Some m) (queries st ++ ["SHOW TRIGGERS"])))
      as H.
    { intros m. exists ["SHOW TRIGGERS"]. split; [reflexivity|].
      constructor; [right; now left | constructor]. }
    destruct (db "SHOW TRIGGERS") as [e|trgs]; cbn [fst]; [apply H |].
    destruct (fillTriggers _ _ _ _) as [m [e|]]; cbn [fst]; apply H.
Qed.

Lemma dumpQuery_startsAsRead (asked : list string) :
  Forall dumpQuery asked -> forallb startsAsRead asked = true.
Proof.
  induction 1 as [|q asked Hq _ IH]; [reflexivity|].
  cbn [forallb]. rewrite IH, andb_true_r.
  destruct Hq as [[]|[->|[table ->]]]; reflexivity.
Qed.

(** X26. Whatever the options, the names and the answers of the server,
    every text [Dump] sends has one of eight forms: [SELECT version()],
    [SHOW DATABASES], [SHOW TABLES], [SHOW TRIGGERS], [USE] of a name, the
    table type query of a name, [SHOW CREATE TABLE] of a name, and
    [SELECT * FROM] of a name. Each starts with [SELECT], [SHOW] or [USE]:
    no [LOCK TABLES] and no [START TRANSACTION] is sent. *)
Theorem Dump_sends_only_its_queries (fmtOther : ascii -> value -> string)
    (srv : Database) (clock : Clock) (dsn : string) (opts : list DumpOption)
    (st : Session) (buf : string) :
  exists asked,
    reached st (sessionOf (Dump fmtOther srv clock dsn opts st buf)) asked
    /\ Forall dumpQuery asked
    /\ forallb startsAsRead asked = true.
Proof.
  destruct (keeps_Dump fmtOther srv opts onlyDumpQueries onlyDumpQueries_refl
              onlyDumpQueries_trans
              (fun st q H => onlyDumpQueries_sent st q (or_introl H))
              (onlyDumpQueries_getTrigger fmtOther)
              (fun st table _ =>
                 onlyDumpQueries_sent st (selectAllQuery table)
                   (or_intror (or_intror (ex_intro _ table eq_refl))))
              clock dsn st buf) as (asked & Ha & Hq).
  exists asked. split; [exact Ha |]. split; [exact Hq |].
  now apply dumpQuery_startsAsRead.
Qed.

Section CachedTriggers.

Variable fmtOther : ascii -> value -> string.
Variable srv : Database.
Variable answer : error + Rows.

Lemma agree_same {A : Type} (p : Prog A) :
  (forall st buf, loaded st -> loaded (sessionOf (p st buf))) -> agree p p.
Proof. intros H st buf Hl. split; [reflexivity | now apply H]. Qed.

Lemma agree_bind {A B : Type} (m m' : Prog A) (k k' : A -> Prog B) :
  agree m m' -> (forall a, agree (k a) (k' a)) -> agree (bind m k) (bind m' k').
Proof.
  intros Hm Hk st buf Hl. unfold bind. destruct (Hm st buf Hl) as [<- Hl'].
  destruct (m st buf) as [a st' buf'|e st' buf'|st']; cbn [sessionOf] in *.
  - now apply Hk.
  - now split.
  - now split.
Qed.

Lemma agree_if {A : Type} (b : bool) (p p' q q' : Prog A) :
  agree p p' -> agree q q' -> agree (if b then p else q) (if b then p' else q').
Proof. destruct b; auto. Qed.

Lemma agree_forEach {A : Type} (body body' : A -> Prog unit) (l : list A) :
  (forall a, agree (body a) (body' a)) -> agree (forEach body l) (forEach body' l).
Proof.
  intros Hb. induction l as [|a l IH]; cbn [forEach].
  - now apply agree_same.
  - apply agree_bind; auto.
Qed.

Lemma agree_ret {A : Type} (a : A) : agree (ret a) (ret a).
Proof. now apply agree_same. Qed.

Lemma agree_write (s : string) : agree (write s) (write s).
Proof. now apply agree_same. Qed.

Lemma agree_stop {A : Type} (e : error) : agree (@stop A e) (@stop A e).
Proof. now apply agree_same. Qed.

Lemma agree_exec (q : string) : agree (exec srv q) (exec srv q).
Proof.
  apply agree_same. intros st buf Hl. unfold exec.
  now destruct (execError srv (queries st) q).
Qed.

Lemma agree_queryRow (q : string) (n : nat) : agree (queryRow srv q n) (queryRow srv q n).
Proof.
  apply agree_same. intros st buf Hl. unfold queryRow.
  destruct (rowOf srv (queries st) q) as [e|cols]; [exact Hl |].
  now destruct (length cols =? n).
Qed.

Lemma agree_queryNames (q : string) : agree (queryNames srv q) (queryNames srv q).
Proof.
  apply agree_same. intros st buf Hl. unfold queryNames.
  destruct (namesOf srv (queries st) q) as [e|rows]; [exact Hl |].
  now destruct (scanNames rows []).
Qed.

Lemma agree_runTableData (table : string) (perData : Z) :
  agree (runTableData fmtOther (withTriggers answer srv) table perData)
        (runTableData fmtOther srv table perData).
Proof.
  change (runTableData fmtOther (withTriggers answer srv) table perData)
    with (runTableData fmtOther srv table perData).
  apply agree_same. intros st buf Hl. unfold runTableData.
  now destruct (writeTableData _ _ _ _ _) as [[text [e|]]|].
Qed.

Lemma agree_writeTableTrigger (table : string) :
  agree (writeTableTrigger fmtOther (withTriggers answer srv) table)
        (writeTableTrigger fmtOther srv table).
Proof.
  intros st buf Hl. unfold writeTableTrigger, getTrigger. unfold loaded in Hl.
  destruct (allTriggers st) as [m|] eqn:Em; [| contradiction].
  split; [reflexivity |]. cbn [sessionOf]. unfold loaded. now rewrite Em.
Qed.

Lemma agree_dumpTable (o : dumpOption) (table : string) :
  agree (dumpTable fmtOther (withTriggers answer srv) o table)
        (dumpTable fmtOther srv o table).
Proof.
  unfold dumpTable, getTableType, writeTableStruct, writeViewStruct, getCreateTableSQL.
  repeat first
    [ apply agree_bind; [| intros ?]
    | apply agree_if
    | apply agree_ret
    | apply agree_write
    | apply (agree_queryRow _ _)
    | apply agree_runTableData
    | apply agree_writeTableTrigger ].
Qed.

Lemma agree_dumpDatabase (o : dumpOption) (useDb : bool) (dbStr : string) :
  agree (dumpDatabase fmtOther (withTriggers answer srv) o useDb dbStr)
        (dumpDatabase fmtOther srv o useDb dbStr).
Proof.
  unfold dumpDatabase, getAllTables.
  apply agree_bind; [apply (agree_exec _) | intros _].
  apply agree_bind; [apply agree_if; [apply (agree_queryNames _) | apply agree_ret] | intros tbls].
  apply agree_bind; [apply agree_if; [apply agree_write | apply agree_ret] | intros _].
  apply agree_forEach. intros table. apply agree_dumpTable.
Qed.

Lemma agree_Dump (clock : Clock) (dsn : string) (opts : list DumpOption) :
  agree (Dump fmtOther (withTriggers answer srv) clock dsn opts)
        (Dump fmtOther srv clock dsn opts).
Proof.
  unfold Dump, getDBs.
  apply agree_bind; [| intros databases].
  { apply agree_if; [| apply agree_ret].
    destruct (GetDBNameFromDSN dsn); [apply agree_stop | apply agree_ret]. }
  apply agree_bind; [| intros dbHost].
  { destruct (GetDBHostFromDSN dsn); [apply agree_stop | apply agree_ret]. }
  apply agree_bind; [| intros _].
  { change (openError (withTriggers answer srv) dsn) with (openError srv dsn).
    destruct (openError srv dsn); [apply agree_stop | apply agree_ret]. }
  apply agree_bind; [apply (agree_queryRow _ _) | intros cols].
  apply agree_bind; [apply agree_write | intros _].
  apply agree_bind; [| intros dbs'].
  { apply agree_if; [apply (agree_queryNames _) | apply agree_ret]. }
  apply agree_bind; [| intros _; apply agree_write].
  apply agree_forEach. intros dbStr. apply agree_dumpDatabase.
Qed.

End CachedTriggers.

(** X27. The trigger cache is never refreshed. Once the package variable
    [allTriggers] is loaded, as the first table of an earlier [Dump] in the
    same process leaves it, a run of [Dump] does not depend on what the
    server answers to [SHOW TRIGGERS]: every trigger section is written
    from the cache, whatever DSN and databases the run is for. *)
Theorem Dump_reuses_cached_triggers (fmtOther : ascii -> value -> string)
    (srv : Database) (answer : error + Rows) (clock : Clock) (dsn : string)
    (opts : list DumpOption) (st : Session) (buf : string) :
  allTriggers st <> None ->
  Dump fmtOther (withTriggers answer srv) clock dsn opts st buf
  = Dump fmtOther srv clock dsn opts st buf.
Proof.
  intros Hl. exact (proj1 (agree_Dump fmtOther srv answer clock dsn opts st buf Hl)).
Qed.

Lemma Dump_reuses_cached_triggers_witness :
  Dump (fun _ _ => "") (withTriggers (inl "refused") shopServer) exampleClock
       "root:pw@tcp(db:3306)/shop" [WithData] (mkSession (Some ∅) []) ""
  = Dump (fun _ _ => "") shopServer exampleClock
         "root:pw@tcp(db:3306)/shop" [WithData] (mkSession (Some ∅) []) "".
Proof.
  apply (Dump_reuses_cached_triggers (fun _ _ => "") shopServer (inl "refused") exampleClock
           "root:pw@tcp(db:3306)/shop" [WithData] (mkSession (Some ∅) []) "").
  discriminate.
Defined.
